(** * dev-events: the event normaliser, the booking guard and the
      connection cache, embedded from the TypeScript sources

    - [src/database/event.model.ts]: [generateSlug], [normalizeDateToISO],
      [normalizeTime], the [pre('save')] hook of [EventSchema] and the
      validators and setters the schema declares;
    - [src/database/booking.model.ts]: [EMAIL_REGEX], the [pre('save')]
      hook of [BookingSchema] and the validators and setters the schema
      declares;
    - [src/lib/mongodb.ts]: the module body and [connectToDatabase].

    Strings.  A JavaScript string is a sequence of UTF-16 code units.  The
    model uses Rocq's [string]; a character of code [n] stands for the code
    unit U+00[n], so the strings covered are those over U+0000..U+00FF.  On
    that range [toLowerCase], [trim], [\s], [\w] and [\d] are written out
    below as ECMAScript defines them. *)

From Stdlib Require Import Bool Arith ZArith NArith List Lia.
From Stdlib Require Import Ascii String.
From Stdlib Require Import DecimalString DecimalNat.
Import ListNotations.

Local Open Scope string_scope.

(** ** JavaScript string primitives *)

Module Js.

Definition code (c : ascii) : nat := nat_of_ascii c.

Definition between (lo hi : nat) (c : ascii) : bool :=
  (lo <=? code c)%nat && (code c <=? hi)%nat.

(** [\d]: the ten ASCII digits. *)
Definition is_digit (c : ascii) : bool := between 48 57 c.

Definition is_upper (c : ascii) : bool := between 65 90 c.
Definition is_lower (c : ascii) : bool := between 97 122 c.

(** [\w] without the [i] and [u] flags: [A-Za-z0-9_]. *)
Definition is_word (c : ascii) : bool :=
  is_upper c || is_lower c || is_digit c || (code c =? 95)%nat.

(** [\s], which is also what [trim] removes: WhiteSpace and LineTerminator.
    Below U+0100 these are TAB, LF, VT, FF, CR, SP and NBSP. *)
Definition is_space (c : ascii) : bool :=
  between 9 13 c || (code c =? 32)%nat || (code c =? 160)%nat.

Definition is_hyphen (c : ascii) : bool := (code c =? 45)%nat.

(** Simple case mappings of U+0000..U+00FF.  Lower-casing stays inside the
    range: A-Z and U+00C0..U+00DE (without the sign U+00D7) move up by 32. *)
Definition lower_char (c : ascii) : ascii :=
  if is_upper c || (between 192 222 c && negb (code c =? 215)%nat)
  then ascii_of_nat (code c + 32) else c.

Fixpoint toLowerCase (s : string) : string :=
  match s with
  | EmptyString => EmptyString
  | String c s' => String (lower_char c) (toLowerCase s')
  end.

(** Upper-casing: a-z and U+00E0..U+00FE (without U+00F7) move down by 32 and
    U+00DF becomes "SS".  U+00B5 and U+00FF have their capitals (U+039C,
    U+0178) outside the range; they are kept as they are, which no pattern of
    this development can tell apart: the capitals, like the originals, are no
    digit, no white space, no colon and none of the letters A, M, P. *)
Definition upper_char (c : ascii) : string :=
  if is_lower c || (between 224 254 c && negb (code c =? 247)%nat)
  then String (ascii_of_nat (code c - 32)) EmptyString
  else if (code c =? 223)%nat then "SS"
  else String c EmptyString.

Fixpoint toUpperCase (s : string) : string :=
  match s with
  | EmptyString => EmptyString
  | String c s' => upper_char c ++ toUpperCase s'
  end.

Fixpoint dropWhile (p : ascii -> bool) (s : string) : string :=
  match s with
  | EmptyString => EmptyString
  | String c s' => if p c then dropWhile p s' else s
  end.

Fixpoint all (p : ascii -> bool) (s : string) : bool :=
  match s with
  | EmptyString => true
  | String c s' => p c && all p s'
  end.

(** Drops the trailing characters satisfying [p]. *)
Fixpoint dropWhileEnd (p : ascii -> bool) (s : string) : string :=
  match s with
  | EmptyString => EmptyString
  | String c s' => if p c && all p s' then EmptyString
                   else String c (dropWhileEnd p s')
  end.

(** [String.prototype.trim]. *)
Definition trim (s : string) : string :=
  dropWhileEnd is_space (dropWhile is_space s).

(** [s.replace(/[^...]/g, '')] for a negated character class: the characters
    of the class are kept, all others are deleted. *)
Fixpoint keep (p : ascii -> bool) (s : string) : string :=
  match s with
  | EmptyString => EmptyString
  | String c s' => if p c then String c (keep p s') else keep p s'
  end.

(** [s.replace(/X+/g, r)] for a character class [X] and a single character
    [r]: every maximal run of [X] becomes one [r].  [inrun] tells that the
    previous character belonged to a run already replaced. *)
Fixpoint replaceRuns (p : ascii -> bool) (r : ascii) (inrun : bool)
         (s : string) : string :=
  match s with
  | EmptyString => EmptyString
  | String c s' =>
      if p c
      then if inrun then replaceRuns p r true s'
           else String r (replaceRuns p r true s')
      else String c (replaceRuns p r false s')
  end.

(** Decimal rendering of a number ([Number.prototype.toString], and a number
    inside a template literal). *)
Definition showNat (n : nat) : string :=
  NilEmpty.string_of_uint (Nat.to_uint n).

Fixpoint repeatChar (c : ascii) (n : nat) : string :=
  match n with
  | O => EmptyString
  | S n' => String c (repeatChar c n')
  end.

(** [s.padStart(n, c)] for a one-character filler. *)
Definition padStart (n : nat) (c : ascii) (s : string) : string :=
  repeatChar c (n - String.length s) ++ s.

Definition digitVal (c : ascii) : nat := code c - 48.

(** [parseInt(s, 10)] and [Number(s)] on a non-empty string of digits. *)
Definition digitsVal (s : string) : nat :=
  (fix go (acc : nat) (s : string) : nat :=
     match s with
     | EmptyString => acc
     | String c s' => go (10 * acc + digitVal c) s'
     end) 0 s.

End Js.

(** ** The [Date] built-in (ECMAScript, Date objects)

    A time value is a number of milliseconds since the epoch, or NaN, which
    is [None] here.  Only what [normalizeDateToISO] reaches is modelled:
    [Date.UTC] with three arguments, the [Date] constructor and
    [toISOString]. *)

Module JsDate.
Import Js.
Local Open Scope Z_scope.

Definition msPerDay : Z := 86400000.

Definition Day (t : Z) : Z := t / msPerDay.
Definition InLeapYear (y : Z) : bool :=
  (y mod 4 =? 0) && (negb (y mod 100 =? 0) || (y mod 400 =? 0)).

Definition DaysInYear (y : Z) : Z := if InLeapYear y then 366 else 365.

Definition DayFromYear (y : Z) : Z :=
  365 * (y - 1970) + (y - 1969) / 4 - (y - 1901) / 100 + (y - 1601) / 400.

(** The largest year [y] with [DayFromYear y <= d]: 400 years have 146097
    days, so the quotient misses the year by at most one. *)
Definition YearFromDay (d : Z) : Z :=
  let y := 1970 + (d * 400) / 146097 in
  if d <? DayFromYear y then y - 1
  else if DayFromYear (y + 1) <=? d then y + 1
  else y.

Definition YearFromTime (t : Z) : Z := YearFromDay (Day t).

Definition DayWithinYear (t : Z) : Z := Day t - DayFromYear (YearFromTime t).

(** Number of days of the year before month [m] (0 is January). *)
Definition DaysBeforeMonth (leap : bool) (m : Z) : Z :=
  let l := if leap then 1 else 0 in
  if m <=? 0 then 0
  else if m =? 1 then 31
  else if m =? 2 then 59 + l
  else if m =? 3 then 90 + l
  else if m =? 4 then 120 + l
  else if m =? 5 then 151 + l
  else if m =? 6 then 181 + l
  else if m =? 7 then 212 + l
  else if m =? 8 then 243 + l
  else if m =? 9 then 273 + l
  else if m =? 10 then 304 + l
  else if m =? 11 then 334 + l
  else 365 + l.

Definition MonthFromTime (t : Z) : Z :=
  let leap := InLeapYear (YearFromTime t) in
  let d := DayWithinYear t in
  let before := DaysBeforeMonth leap in
  if d <? before 1 then 0
  else if d <? before 2 then 1
  else if d <? before 3 then 2
  else if d <? before 4 then 3
  else if d <? before 5 then 4
  else if d <? before 6 then 5
  else if d <? before 7 then 6
  else if d <? before 8 then 7
  else if d <? before 9 then 8
  else if d <? before 10 then 9
  else if d <? before 11 then 10
  else 11.

Definition DateFromTime (t : Z) : Z :=
  DayWithinYear t + 1
  - DaysBeforeMonth (InLeapYear (YearFromTime t)) (MonthFromTime t).

Definition HourFromTime (t : Z) : Z := (t / 3600000) mod 24.
Definition MinFromTime (t : Z) : Z := (t / 60000) mod 60.
Definition SecFromTime (t : Z) : Z := (t / 1000) mod 60.
Definition msFromTime (t : Z) : Z := t mod 1000.

(** [MakeDay] on integral arguments: the day number of the first of month
    [month mod 12] in year [year + floor(month / 12)], plus [date - 1]. *)
Definition MakeDay (year month date : Z) : Z :=
  let ym := year + month / 12 in
  let mn := month mod 12 in
  DayFromYear ym + DaysBeforeMonth (InLeapYear ym) mn + date - 1.

Definition MakeDate (day time : Z) : Z := day * msPerDay + time.

Definition TimeClip (t : Z) : option Z :=
  if 8640000000000000 <? Z.abs t then None else Some t.

(** A year from 0 to 99 means 1900 + year. *)
Definition MakeFullYear (y : Z) : Z :=
  if (0 <=? y) && (y <=? 99) then 1900 + y else y.

(** [Date.UTC(year, month, date)]; hours to milliseconds default to 0. *)
Definition UTC (year month date : Z) : option Z :=
  TimeClip (MakeDate (MakeDay (MakeFullYear year) month date) 0).

Definition pad (n : nat) (z : Z) : string :=
  padStart n "0" (showNat (Z.to_nat z)).

(** [Date.prototype.toISOString] of a finite time value: years 0 to 9999
    take four digits, all others a sign and six digits. *)
Definition toISOString (t : Z) : string :=
  let y := YearFromTime t in
  let year :=
    if (0 <=? y) && (y <=? 9999) then pad 4 y
    else if y <? 0 then "-" ++ pad 6 (- y) else "+" ++ pad 6 y in
  (year ++ "-" ++ pad 2 (MonthFromTime t + 1) ++ "-" ++ pad 2 (DateFromTime t)
   ++ "T" ++ pad 2 (HourFromTime t) ++ ":" ++ pad 2 (MinFromTime t) ++ ":"
   ++ pad 2 (SecFromTime t) ++ "." ++ pad 3 (msFromTime t) ++ "Z")%string.

End JsDate.

(** A thrown [Error] is represented by its message. *)
Inductive result (A : Type) : Type :=
| Ok (a : A)
| Throw (message : string).
Arguments Ok {A} a.
Arguments Throw {A} message.

(** ** event.model.ts: pure helpers *)

Definition ObjectId := string.

Module EventModel.
Import Js.

(** [IEvent], with what the hook reads of Mongoose's [Document]: [_id],
    [isNew] and the paths [isModified] answers for. *)
Record IEvent : Type := {
  _id : ObjectId;
  isNew : bool;
  modifiedPaths : list string;
  title : string;
  slug : string;
  description : string;
  overview : string;
  image : string;
  venue : string;
  location : string;
  date : string;
  time : string;
  mode : string;
  audience : string;
  agenda : list string;
  organizer : string;
  tags : list string
}.

Definition isModified (path : string) (e : IEvent) : bool :=
  existsb (String.eqb path) (modifiedPaths e).

Definition set_slug (v : string) (e : IEvent) : IEvent :=
  {| _id := _id e; isNew := isNew e; modifiedPaths := modifiedPaths e;
     title := title e; slug := v; description := description e;
     overview := overview e; image := image e; venue := venue e;
     location := location e; date := date e; time := time e; mode := mode e;
     audience := audience e; agenda := agenda e; organizer := organizer e;
     tags := tags e |}.

Definition set_date (v : string) (e : IEvent) : IEvent :=
  {| _id := _id e; isNew := isNew e; modifiedPaths := modifiedPaths e;
     title := title e; slug := slug e; description := description e;
     overview := overview e; image := image e; venue := venue e;
     location := location e; date := v; time := time e; mode := mode e;
     audience := audience e; agenda := agenda e; organizer := organizer e;
     tags := tags e |}.

Definition set_time (v : string) (e : IEvent) : IEvent :=
  {| _id := _id e; isNew := isNew e; modifiedPaths := modifiedPaths e;
     title := title e; slug := slug e; description := description e;
     overview := overview e; image := image e; venue := venue e;
     location := location e; date := date e; time := v; mode := mode e;
     audience := audience e; agenda := agenda e; organizer := organizer e;
     tags := tags e |}.

(** [this[field]] when it is a string ([typeof value === 'string']). *)
Definition getField (field : string) (e : IEvent) : option string :=
  if field =? "title" then Some (title e)
  else if field =? "slug" then Some (slug e)
  else if field =? "description" then Some (description e)
  else if field =? "overview" then Some (overview e)
  else if field =? "image" then Some (image e)
  else if field =? "venue" then Some (venue e)
  else if field =? "location" then Some (location e)
  else if field =? "date" then Some (date e)
  else if field =? "time" then Some (time e)
  else if field =? "mode" then Some (mode e)
  else if field =? "audience" then Some (audience e)
  else if field =? "organizer" then Some (organizer e)
  else None.

Definition requiredFields : list string :=
  ["title"; "description"; "overview"; "image"; "venue"; "location";
   "date"; "time"; "mode"; "audience"; "organizer"].

(** [title.toLowerCase().trim().replace(/[^\w\s-]/g, '')
         .replace(/\s+/g, '-').replace(/-+/g, '-')] *)
Definition generateSlug (title : string) : string :=
  replaceRuns is_hyphen "-" false
    (replaceRuns is_space "-" false
       (keep (fun c => is_word c || is_space c || is_hyphen c)
          (trim (toLowerCase title)))).

(** The common prefix [^(\d{1,2}):(\d{2})] of the two time patterns: the two
    groups and the rest of the input.  One or two digits must be followed by
    the colon, so the first group is fixed by where the colon stands. *)
Definition matchHourMinute (s : string) : option (string * string * string) :=
  match s with
  | String h1 (String x (String y (String z rest))) =>
      if is_digit h1 && (x =? ":")%char && is_digit y && is_digit z
      then Some (String h1 EmptyString, String y (String z EmptyString), rest)
      else
        match rest with
        | String w rest' =>
            if is_digit h1 && is_digit x && (y =? ":")%char
               && is_digit z && is_digit w
            then Some (String h1 (String x EmptyString),
                       String z (String w EmptyString), rest')
            else None
        | EmptyString => None
        end
  | _ => None
  end.

(** [/^(\d{1,2}):(\d{2})$/] *)
Definition time24Match (s : string) : option (string * string) :=
  match matchHourMinute s with
  | Some (h, m, EmptyString) => Some (h, m)
  | _ => None
  end.

(** [/^(\d{1,2}):(\d{2})\s*(AM|PM)$/] *)
Definition time12Match (s : string) : option (string * string * string) :=
  match matchHourMinute s with
  | Some (h, m, rest) =>
      let period := dropWhile is_space rest in
      if (period =? "AM") || (period =? "PM") then Some (h, m, period)
      else None
  | None => None
  end.

Definition normalizeTime (timeStr : string) : result string :=
  let trimmed := toUpperCase (trim timeStr) in
  let fallthrough :=
    match time12Match trimmed with
    | Some (h, minutes, period) =>
        let hours := digitsVal h in
        let hours :=
          if (period =? "PM") && negb (hours =? 12)%nat then hours + 12
          else if (period =? "AM") && (hours =? 12)%nat then 0
          else hours in
        Ok (padStart 2 "0" (showNat hours) ++ ":" ++ minutes)
    | None => Throw ("Invalid time format: " ++ timeStr)
    end in
  match time24Match trimmed with
  | Some (h, minutes) =>
      let hours := digitsVal h in
      if (0 <=? hours)%nat && (hours <=? 23)%nat
      then Ok (padStart 2 "0" (showNat hours) ++ ":" ++ minutes)
      else fallthrough
  | None => fallthrough
  end.

(** [/^\d{4}-\d{2}-\d{2}$/.test(s)] *)
Definition isoDateOnly (s : string) : bool :=
  match s with
  | String y1 (String y2 (String y3 (String y4 (String h1
      (String m1 (String m2 (String h2 (String d1 (String d2
         EmptyString))))))))) =>
      is_digit y1 && is_digit y2 && is_digit y3 && is_digit y4
      && is_hyphen h1 && is_digit m1 && is_digit m2
      && is_hyphen h2 && is_digit d1 && is_digit d2
  | _ => false
  end.

(** [s.split(c)]: the pieces between the occurrences of [c]. *)
Fixpoint split (c : ascii) (s : string) : list string :=
  match s with
  | EmptyString => [EmptyString]
  | String x s' =>
      match split c s' with
      | piece :: pieces =>
          if (x =? c)%char then EmptyString :: piece :: pieces
          else String x piece :: pieces
      | [] => []
      end
  end.

Section DateNormalisation.

(** [new Date(dateStr)] on a string: the time value the host's date parser
    gives, NaN ([None]) when it cannot parse.  Beyond the ISO format the
    accepted formats are the implementation's, so the parser is a
    parameter. *)
Variable parseDate : string -> option Z.

Definition newDateOfString (s : string) : option Z :=
  match parseDate s with
  | Some t => JsDate.TimeClip t
  | None => None
  end.

Definition normalizeDateToISO (dateStr : string) : result string :=
  let parsed :=
    if isoDateOnly dateStr then
      match map (fun p => Z.of_nat (digitsVal p)) (split "-" dateStr) with
      | year :: month :: day :: _ => JsDate.UTC year (month - 1) day
      | _ => None
      end
    else newDateOfString dateStr in
  match parsed with
  | None => Throw ("Invalid date format: " ++ dateStr)
  | Some t => Ok (hd EmptyString (split "T" (JsDate.toISOString t)))
  end.

End DateNormalisation.

End EventModel.


(** ** booking.model.ts: the document and the email pattern *)

Module BookingModel.
Import Js.

Record IBooking : Type := {
  _id : ObjectId;
  eventId : ObjectId;
  email : string
}.

(** The class [[^\s@]]. *)
Definition notSpaceAt (c : ascii) : bool :=
  negb (is_space c || (c =? "@")%char).

Fixpoint takeWhile (p : ascii -> bool) (s : string) : string :=
  match s with
  | EmptyString => EmptyString
  | String c s' => if p c then String c (takeWhile p s') else EmptyString
  end.

(** A dot that has a character before it (the caller has consumed one) and
    one after it. *)
Fixpoint dotBeforeLast (s : string) : bool :=
  match s with
  | EmptyString => false
  | String c s' =>
      match s' with
      | EmptyString => false
      | String _ _ => (c =? ".")%char || dotBeforeLast s'
      end
  end.

(** [EMAIL_REGEX.test(s)] for [/^[^\s@]+@[^\s@]+\.[^\s@]+$/].  The first
    [[^\s@]+] must stop at an [@], which it cannot contain, so it is the
    longest prefix free of white space and [@]; what follows the [@] must be
    free of them up to the end and be split by some dot into two non-empty
    parts. *)
Definition EMAIL_REGEX_test (s : string) : bool :=
  match takeWhile notSpaceAt s, dropWhile notSpaceAt s with
  | String _ _, String at_ domain =>
      (at_ =? "@")%char && all notSpaceAt domain
      && match domain with
         | EmptyString => false
         | String _ rest => dotBeforeLast rest
         end
  | _, _ => false
  end.

End BookingModel.

(** ** The persistence boundary (Mongoose)

    The collections are lists of documents.  Every round trip to the store is
    written to [journal], most recent last, so that what a hook asked and in
    which order can be read off afterwards. *)

Module Mongoose.
Import EventModel.

Inductive StorageOp : Type :=
| EventExistsSlug (slug : string) (ne_id : ObjectId)
    (* Event.exists({ slug, _id: { $ne } }) *)
| EventExistsId (id : ObjectId)
    (* Event.exists({ _id }) *)
| WriteEvent (id : ObjectId)
| WriteBooking (id : ObjectId).

Record Database : Type := {
  events : list IEvent;
  bookings : list BookingModel.IBooking;
  journal : list StorageOp
}.

Definition record (op : StorageOp) (db : Database) : Database :=
  {| events := events db; bookings := bookings db;
     journal := journal db ++ [op] |}.

(** How a computation ends: with a value, with a thrown error, or cut off by
    the fuel that bounds the model's loops. *)
Inductive outcome (A : Type) : Type :=
| Ret (a : A)
| Raise (message : string)
| OutOfFuel.
Arguments Ret {A} a.
Arguments Raise {A} message.
Arguments OutOfFuel {A}.

(** State and exceptions; the state reached before a throw is kept, as the
    assignments made to [this] before a [throw] are. *)
Definition M (S A : Type) : Type := S -> S * outcome A.

Definition ret {S A} (a : A) : M S A := fun s => (s, Ret a).

Definition bind {S A B} (m : M S A) (k : A -> M S B) : M S B :=
  fun s =>
    match m s with
    | (s', Ret a) => k a s'
    | (s', Raise e) => (s', Raise e)
    | (s', OutOfFuel) => (s', OutOfFuel)
    end.

Definition throw {S A} (message : string) : M S A :=
  fun s => (s, Raise message).

Definition liftResult {S A} (r : result A) : M S A :=
  match r with
  | Ok a => ret a
  | Throw e => throw e
  end.

Definition slugTaken (db : Database) (slug_ : string) (ne_id : ObjectId)
  : bool :=
  existsb (fun e => (slug e =? slug_) && negb (EventModel._id e =? ne_id))
          (events db).

Definition idPresent (db : Database) (id : ObjectId) : bool :=
  existsb (fun e => EventModel._id e =? id) (events db).

End Mongoose.

Declare Scope hook_scope.
Delimit Scope hook_scope with hook.
Notation "x <- m ;; k" := (Mongoose.bind m (fun x => k))
  (at level 61, m at next level, right associativity) : hook_scope.
Notation "m ;; k" := (Mongoose.bind m (fun _ => k))
  (at level 61, right associativity) : hook_scope.

(** ** event.model.ts: [EventSchema.pre('save', ...)] *)

Module EventHook.
Import Js EventModel Mongoose.
Local Open Scope hook_scope.

(** The hook runs on the store and on [this], the document being saved. *)
Definition HookState : Type := (Database * IEvent)%type.

Definition this : M HookState IEvent := fun s => (s, Ret (snd s)).

Definition assign (f : IEvent -> IEvent) : M HookState unit :=
  fun s => ((fst s, f (snd s)), Ret tt).

(** [await EventModel.exists({ slug, _id: { $ne: this._id } })] *)
Definition existsSlug (slug_ : string) : M HookState bool :=
  fun s =>
    let id := EventModel._id (snd s) in
    ((record (EventExistsSlug slug_ id) (fst s), snd s),
     Ret (slugTaken (fst s) slug_ id)).

(** The [while] loop of the hook, entered with [slug] and [counter]. *)
Fixpoint probe (fuel : nat) (baseSlug slug_ : string) (counter : nat)
  : M HookState string :=
  match fuel with
  | O => fun s => (s, OutOfFuel)
  | S fuel' =>
      found <- existsSlug slug_ ;;
      if found
      then probe fuel' baseSlug (baseSlug ++ "-" ++ showNat counter)
                 (S counter)
      else ret slug_
  end.

(** The [for] loop over [requiredFields]. *)
Fixpoint checkRequired (fields : list string) : M HookState unit :=
  match fields with
  | [] => ret tt
  | field :: rest =>
      self <- this ;;
      match getField field self with
      | Some value =>
          if trim value =? ""
          then throw (field ++ " cannot be empty")
          else checkRequired rest
      | None => checkRequired rest
      end
  end.

Section Hook.

Variable parseDate : string -> option Z.

(** The body of the hook.  [Ret tt] is [next()], [Raise e] is what the
    [catch] clause turns into [next(e)]. *)
Definition preSave (fuel : nat) : M HookState unit :=
  self <- this ;;
  (if isNew self || isModified "title" self then
     let baseSlug := generateSlug (title self) in
     slug_ <- probe fuel baseSlug baseSlug 1 ;;
     assign (set_slug slug_)
   else ret tt) ;;
  self <- this ;;
  (if isNew self || isModified "date" self then
     d <- liftResult (normalizeDateToISO parseDate (date self)) ;;
     assign (set_date d)
   else ret tt) ;;
  self <- this ;;
  (if isNew self || isModified "time" self then
     t <- liftResult (normalizeTime (time self)) ;;
     assign (set_time t)
   else ret tt) ;;
  checkRequired requiredFields.

(** What is stored for a document once it is saved. *)
Definition persisted (e : IEvent) : IEvent :=
  {| _id := EventModel._id e; isNew := false; modifiedPaths := [];
     title := title e; slug := slug e; description := description e;
     overview := overview e; image := image e; venue := venue e;
     location := location e; date := date e; time := time e;
     mode := mode e; audience := audience e; agenda := agenda e;
     organizer := organizer e; tags := tags e |}.

Definition commit (db : Database) (e : IEvent) : Database :=
  {| events :=
       filter (fun x => negb (EventModel._id x =? EventModel._id e))
              (events db) ++ [persisted e];
     bookings := bookings db;
     journal := journal db ++ [WriteEvent (EventModel._id e)] |}.

(** What [doc.save()] does from the application's hook on, that is, once
    the document has passed the schema's validation: the hook, then the
    write when the hook called [next()] without an error.  The store after
    the call and the saved document, or the error the hook passed on.  The
    validation that comes first is in [EventSchema] below, where
    [EventSchema.save] is the whole of [doc.save()]. *)
Definition save (fuel : nat) (db : Database) (doc : IEvent)
  : Database * outcome IEvent :=
  match preSave fuel (db, doc) with
  | ((db', doc'), Ret _) => (commit db' doc', Ret (persisted doc'))
  | ((db', _), Raise e) => (db', Raise e)
  | ((db', _), OutOfFuel) => (db', OutOfFuel)
  end.

End Hook.

End EventHook.

(** ** booking.model.ts: [BookingSchema.pre('save', ...)] *)

Module BookingHook.
Import Js BookingModel Mongoose.
Local Open Scope hook_scope.

Definition HookState : Type := (Database * IBooking)%type.

Definition this : M HookState IBooking := fun s => (s, Ret (snd s)).

(** [await Event.exists({ _id: this.eventId })] *)
Definition existsEvent (id : ObjectId) : M HookState bool :=
  fun s =>
    ((record (EventExistsId id) (fst s), snd s), Ret (idPresent (fst s) id)).

Definition preSave : M HookState unit :=
  self <- this ;;
  (if negb (EMAIL_REGEX_test (email self))
   then throw ("Invalid email format: " ++ email self)
   else ret tt) ;;
  self <- this ;;
  eventExists <- existsEvent (eventId self) ;;
  (if negb eventExists
   then throw ("Event with ID " ++ eventId self ++ " does not exist")
   else ret tt) ;;
  ret tt.

Definition commit (db : Database) (b : IBooking) : Database :=
  {| events := events db;
     bookings :=
       filter (fun x => negb (BookingModel._id x =? BookingModel._id b))
              (bookings db) ++ [b];
     journal := journal db ++ [WriteBooking (BookingModel._id b)] |}.

(** What [doc.save()] does from the application's hook on, that is, once
    the document has passed the schema's validation: the hook, then the
    write.  The validation that comes first is in [BookingSchema] below,
    where [BookingSchema.save] is the whole of [doc.save()]. *)
Definition save (db : Database) (doc : IBooking)
  : Database * outcome IBooking :=
  match preSave (db, doc) with
  | ((db', doc'), Ret _) => (commit db' doc', Ret doc')
  | ((db', _), Raise e) => (db', Raise e)
  | ((db', _), OutOfFuel) => (db', OutOfFuel)
  end.

End BookingHook.

(** ** Validation before the hooks (Mongoose)

    [doc.save()] first validates the document against its schema, in a
    built-in [pre('save')] hook that runs before the hooks the application
    registers: on a validation failure the promise is rejected with a
    [ValidationError], the application's hooks do not run and nothing is
    sent to the store.  A path is validated by the validators its schema
    entry declares, [required] first, and the first one that refuses the
    value gives the path's [ValidatorError].  Which paths are validated
    depends on the document: every path of a new document, and of a
    document read from the store at least the modified ones.  The paths
    validated are an argument here, and what is proved holds whichever they
    are.  The errors of the paths are listed in the order of the schema;
    nothing proved of them depends on that order.

    [createdAt] and [updatedAt], which [timestamps: true] has Mongoose
    maintain on every write, are not fields of the documents of this
    model. *)

Module Validation.
Import Mongoose.

Inductive Value : Type :=
| StringValue (s : string)
| ArrayValue (items : list string)
| IdValue (id : ObjectId).

Record ValidatorError : Type := {
  path : string;
  message : string;
  value : Value
}.

(** A validator answers with its message when it refuses the value. *)
Definition Validator : Type := Value -> option string.

(** [required: [true, message]].  A String path needs a string that is not
    empty; an array and an ObjectId pass as soon as they are there. *)
Definition required (message_ : string) : Validator :=
  fun v =>
    match v with
    | StringValue s => if s =? "" then Some message_ else None
    | ArrayValue _ => None
    | IdValue _ => None
    end.

(** [validate: { validator, message }] *)
Definition validator (test : Value -> bool) (message_ : string) : Validator :=
  fun v => if test v then None else Some message_.

Fixpoint firstFailure (validators : list Validator) (v : Value)
  : option string :=
  match validators with
  | [] => None
  | check :: rest =>
      match check v with
      | Some m => Some m
      | None => firstFailure rest v
      end
  end.

(** A schema entry: the path, how to read it off the document, and its
    validators. *)
Definition SchemaPath (Doc : Type) : Type :=
  (string * (Doc -> Value) * list Validator)%type.

Definition validatePath {Doc : Type} (paths : list string) (doc : Doc)
           (entry : SchemaPath Doc) : list ValidatorError :=
  let '(path_, get, validators) := entry in
  if existsb (String.eqb path_) paths then
    match firstFailure validators (get doc) with
    | Some m => [{| path := path_; message := m; value := get doc |}]
    | None => []
    end
  else [].

(** [doc.validate()] over the paths [paths]. *)
Definition validate {Doc : Type} (schema : list (SchemaPath Doc))
           (paths : list string) (doc : Doc) : list ValidatorError :=
  flat_map (validatePath paths doc) schema.

(** What rejects a save: the schema's validation, or the error a hook
    passed to [next]. *)
Inductive SaveError : Type :=
| ValidationError (errors : list ValidatorError)
| HookError (message : string).

(** The [message] of the error: for a validation error, the model's name
    and then every path with its message. *)
Definition errorMessage (model : string) (e : SaveError) : string :=
  match e with
  | ValidationError errors =>
      model ++ " validation failed: "
      ++ String.concat ", "
           (map (fun v => path v ++ ": " ++ message v) errors)
  | HookError m => m
  end.

Inductive SaveResult (Doc : Type) : Type :=
| Saved (doc : Doc)
| Rejected (e : SaveError)
| Unfinished.
Arguments Saved {Doc} doc.
Arguments Rejected {Doc} e.
Arguments Unfinished {Doc}.

(** [doc.save()]: validation, then the application's hook and the write. *)
Definition validated {Doc : Type} (schema : list (SchemaPath Doc))
           (hookAndWrite : Database -> Doc -> Database * outcome Doc)
           (paths : list string) (db : Database) (doc : Doc)
  : Database * SaveResult Doc :=
  match validate schema paths doc with
  | [] =>
      match hookAndWrite db doc with
      | (db', Ret saved) => (db', Saved saved)
      | (db', Raise e) => (db', Rejected (HookError e))
      | (db', OutOfFuel) => (db', Unfinished)
      end
  | errors => (db, Rejected (ValidationError errors))
  end.

End Validation.

(** ** booking.model.ts: [BookingSchema] *)

Module BookingSchema.
Import Js BookingModel Mongoose Validation.

(** The setters of [email], [lowercase] and [trim]: what the document holds
    once a value is assigned to the path. *)
Definition setEmail (v : string) : string := trim (toLowerCase v).

(** [new Booking({ eventId, email })] *)
Definition newBooking (id eventId_ : ObjectId) (email_ : string) : IBooking :=
  {| _id := id; eventId := eventId_; email := setEmail email_ |}.

Definition emailMatches (v : Value) : bool :=
  match v with
  | StringValue s => EMAIL_REGEX_test s
  | _ => false
  end.

Definition schema : list (SchemaPath IBooking) :=
  [("eventId", fun b => IdValue (eventId b),
    [required "Event ID is required"]);
   ("email", fun b => StringValue (email b),
    [required "Email is required";
     validator emailMatches "Invalid email format"])].

Definition allPaths : list string := ["eventId"; "email"].

(** [doc.save()] on a booking of which the paths [paths] are validated. *)
Definition save (paths : list string) (db : Database) (doc : IBooking)
  : Database * SaveResult IBooking :=
  validated schema BookingHook.save paths db doc.

(** [Booking.create({ eventId, email })]: a new document, saved. *)
Definition create (db : Database) (id eventId_ : ObjectId) (email_ : string)
  : Database * SaveResult IBooking :=
  save allPaths db (newBooking id eventId_ email_).

End BookingSchema.

(** ** event.model.ts: [EventSchema] *)

Module EventSchema.
Import Js EventModel Mongoose Validation.

(** The paths that have the [trim] setter. *)
Definition trimmed : list string :=
  ["title"; "description"; "overview"; "venue"; "location"; "audience";
   "organizer"].

(** [new Event(values)]: the document holds the values assigned, those of
    the paths with the [trim] setter trimmed. *)
Definition newEvent (values : IEvent) : IEvent :=
  {| _id := EventModel._id values; isNew := true;
     modifiedPaths := modifiedPaths values;
     title := trim (title values); slug := slug values;
     description := trim (description values);
     overview := trim (overview values); image := image values;
     venue := trim (venue values); location := trim (location values);
     date := date values; time := time values; mode := mode values;
     audience := trim (audience values); agenda := agenda values;
     organizer := trim (organizer values); tags := tags values |}.

Definition modes : list string := ["online"; "offline"; "hybrid"].

(** [enum: values], with the message Mongoose gives it. *)
Definition enum (path_ : string) (values : list string) : Validator :=
  fun v =>
    match v with
    | StringValue s =>
        if existsb (String.eqb s) values then None
        else Some ("`" ++ s ++ "` is not a valid enum value for path `"
                   ++ path_ ++ "`.")
    | _ => None
    end.

(** [(arr: string[]) => arr.length > 0] *)
Definition hasItem (v : Value) : bool :=
  match v with
  | ArrayValue (_ :: _) => true
  | _ => false
  end.

Definition text (get : IEvent -> string) (e : IEvent) : Value :=
  StringValue (get e).

Definition items (get : IEvent -> list string) (e : IEvent) : Value :=
  ArrayValue (get e).

Definition schema : list (SchemaPath IEvent) :=
  [("title", text title, [required "Title is required"]);
   ("slug", text slug, []);
   ("description", text description, [required "Description is required"]);
   ("overview", text overview, [required "Overview is required"]);
   ("image", text image, [required "Image is required"]);
   ("venue", text venue, [required "Venue is required"]);
   ("location", text location, [required "Location is required"]);
   ("date", text date, [required "Date is required"]);
   ("time", text time, [required "Time is required"]);
   ("mode", text mode, [required "Mode is required"; enum "mode" modes]);
   ("audience", text audience, [required "Audience is required"]);
   ("agenda", items agenda,
    [required "Agenda is required";
     validator hasItem "Agenda must have at least one item"]);
   ("organizer", text organizer, [required "Organizer is required"]);
   ("tags", items tags,
    [required "Tags are required";
     validator hasItem "Tags must have at least one item"])].

Definition allPaths : list string :=
  ["title"; "slug"; "description"; "overview"; "image"; "venue"; "location";
   "date"; "time"; "mode"; "audience"; "agenda"; "organizer"; "tags"].

Section Save.

Variable parseDate : string -> option Z.

(** [doc.save()] on an event of which the paths [paths] are validated. *)
Definition save (fuel : nat) (paths : list string) (db : Database)
           (doc : IEvent) : Database * SaveResult IEvent :=
  validated schema (EventHook.save parseDate fuel) paths db doc.

End Save.

End EventSchema.

(** ** lib/mongodb.ts *)

Module Mongodb.
Import Mongoose.

(** A connected [Mongoose] instance, by a handle. *)
Definition Connection := nat.

(** A promise is represented by what it settles to: calls are run one after
    the other and each [await] waits for the settlement. *)
Inductive Promise : Type :=
| Fulfilled (c : Connection)
| Rejected (reason : string).

Record MongooseCache : Type := {
  conn : option Connection;
  promise : option Promise
}.

(** The process: [global.mongoose] ([None] is [undefined]) and the number of
    calls of [mongoose.connect] made so far. *)
Record Process : Type := {
  global_mongoose : option MongooseCache;
  connectCalls : nat
}.

Inductive Loaded : Type :=
| LoadThrew (message : string)
| LoadDone (MONGODB_URI : string) (p : Process).

(** The module body.  [!MONGODB_URI] holds for [undefined] and for the empty
    string.  [cached] is the object [global.mongoose] holds from then on. *)
Definition loadModule (env_MONGODB_URI : option string) (p : Process)
  : Loaded :=
  match env_MONGODB_URI with
  | None | Some EmptyString =>
      LoadThrew "Please define the MONGODB_URI environment variable"
  | Some uri =>
      let cached :=
        match global_mongoose p with
        | Some c => c
        | None => {| conn := None; promise := None |}
        end in
      LoadDone uri {| global_mongoose := Some cached;
                      connectCalls := connectCalls p |}
  end.

Definition cached (p : Process) : MongooseCache :=
  match global_mongoose p with
  | Some c => c
  | None => {| conn := None; promise := None |}
  end.

Definition set_cached (c : MongooseCache) (p : Process) : Process :=
  {| global_mongoose := Some c; connectCalls := connectCalls p |}.

Section Connect.

(** [mongoose.connect(uri, options)]: what the promise of the [n]-th call
    settles to is the environment's. *)
Variable connect : string -> nat -> Promise.

Definition mongooseConnect (uri : string) : M Process Promise :=
  fun p =>
    ({| global_mongoose := global_mongoose p;
        connectCalls := S (connectCalls p) |},
     Ret (connect uri (connectCalls p))).

Definition await (pr : Promise) : M Process Connection :=
  match pr with
  | Fulfilled c => ret c
  | Rejected reason => throw reason
  end.

Definition getCached : M Process MongooseCache :=
  fun p => (p, Ret (cached p)).

(** [cached.promise = pr] *)
Definition setPromise (pr : Promise) : M Process unit :=
  fun p =>
    (set_cached {| conn := conn (cached p); promise := Some pr |} p,
     Ret tt).

(** [cached.conn = c] *)
Definition setConn (c : Connection) : M Process unit :=
  fun p =>
    (set_cached {| conn := Some c; promise := promise (cached p) |} p,
     Ret tt).

(** [cached.promise] is read for the [await] right after the [if] that
    fills it, so the promise awaited is the one found or just stored. *)
Definition connectToDatabase (MONGODB_URI : string)
  : M Process Connection :=
  (c <- getCached ;;
   match conn c with
   | Some m => ret m
   | None =>
       pr <- match promise c with
             | None =>
                 pr <- mongooseConnect MONGODB_URI ;;
                 setPromise pr ;;
                 ret pr
             | Some pr => ret pr
             end ;;
       m <- await pr ;;
       setConn m ;;
       ret m
   end)%hook.

End Connect.

End Mongodb.

(** ** The connection module with retry

    The repository holds a second text of the connection module (it follows
    the provider component in [src/app/providers.tsx]).  It keeps its cache
    in [global.mongooseCache], reads [process.env.MONGODB_URI] inside
    [connectToDatabase] and clears the promise when the attempt fails. *)

Module MongodbRetry.
Import Mongoose.

(** A connected [Mongoose] instance, by a handle. *)
Definition Connection := nat.

(** A promise, by what it settles to, as in the first module. *)
Inductive Promise : Type :=
| Fulfilled (c : Connection)
| Rejected (reason : string).

Record MongooseCache : Type := {
  conn : option Connection;
  promise : option Promise
}.

(** The process: [global.mongooseCache] ([None] is [undefined]) and the
    number of calls of [mongoose.connect] made so far. *)
Record Process : Type := {
  global_mongooseCache : option MongooseCache;
  connectCalls : nat
}.

(** The module body: [cached] is the object [global.mongooseCache] holds
    from then on.  Nothing in it throws. *)
Definition loadModule (p : Process) : Process :=
  let cached :=
    match global_mongooseCache p with
    | Some c => c
    | None => {| conn := None; promise := None |}
    end in
  {| global_mongooseCache := Some cached; connectCalls := connectCalls p |}.

Definition cached (p : Process) : MongooseCache :=
  match global_mongooseCache p with
  | Some c => c
  | None => {| conn := None; promise := None |}
  end.

Definition set_cached (c : MongooseCache) (p : Process) : Process :=
  {| global_mongooseCache := Some c; connectCalls := connectCalls p |}.

Definition uriNotDefined : string :=
  "MONGODB_URI environment variable is not defined. "
  ++ "Please add it to your .env.local file.".

(** [try { body } catch (error) { handler }]: the state reached when the
    body throws is the one the handler starts from. *)
Definition tryCatch {S A : Type} (body : M S A) (handler : string -> M S A)
  : M S A :=
  fun s =>
    match body s with
    | (s', Raise error) => handler error s'
    | r => r
    end.

Section Connect.

Variable connect : string -> nat -> Promise.

Definition mongooseConnect (uri : string) : M Process Promise :=
  fun p =>
    ({| global_mongooseCache := global_mongooseCache p;
        connectCalls := S (connectCalls p) |},
     Ret (connect uri (connectCalls p))).

Definition await (pr : Promise) : M Process Connection :=
  match pr with
  | Fulfilled c => ret c
  | Rejected reason => throw reason
  end.

Definition getCached : M Process MongooseCache :=
  fun p => (p, Ret (cached p)).

(** [cached.promise = pr]; [None] is [null]. *)
Definition setPromise (pr : option Promise) : M Process unit :=
  fun p =>
    (set_cached {| conn := conn (cached p); promise := pr |} p, Ret tt).

(** [cached.conn = c] *)
Definition setConn (c : Connection) : M Process unit :=
  fun p =>
    (set_cached {| conn := Some c; promise := promise (cached p) |} p,
     Ret tt).

(** [env_MONGODB_URI] is [process.env.MONGODB_URI] at the time of the
    call. *)
Definition connectToDatabase (env_MONGODB_URI : option string)
  : M Process Connection :=
  (c <- getCached ;;
   match conn c with
   | Some m => ret m
   | None =>
       pr <- match promise c with
             | None =>
                 match env_MONGODB_URI with
                 | None | Some EmptyString => throw uriNotDefined
                 | Some uri =>
                     pr <- mongooseConnect uri ;;
                     setPromise (Some pr) ;;
                     ret pr
                 end
             | Some pr => ret pr
             end ;;
       tryCatch (m <- await pr ;; setConn m ;; ret m)
                (fun error => setPromise None ;; throw error)
   end)%hook.

(** Calls made one after the other, each with the environment of its
    time; the process after the last. *)
Fixpoint calls (envs : list (option string)) (p : Process) : Process :=
  match envs with
  | [] => p
  | env :: rest => calls rest (fst (connectToDatabase env p))
  end.

End Connect.

End MongodbRetry.


(** * Properties *)

(** ** The connection cache *)

Module MongodbFacts.
Import Mongoose Mongodb.
Local Open Scope hook_scope.

(** An environment whose first connection attempt is refused and whose later
    attempts succeed. *)
Definition refusedOnce (uri : string) (n : nat) : Promise :=
  match n with
  | O => Rejected "connect ECONNREFUSED"
  | S _ => Fulfilled n
  end.

Definition freshProcess : Process :=
  {| global_mongoose := None; connectCalls := 0 |}.

Section AnyEnvironment.

Variable connect : string -> nat -> Promise.

(** With a rejected promise in the cache the call throws its reason and
    touches nothing: no call of [mongoose.connect] is made. *)
Lemma rejected_promise_replayed (uri reason : string) (p : Process) :
  conn (cached p) = None ->
  promise (cached p) = Some (Rejected reason) ->
  connectToDatabase connect uri p = (p, Raise reason).
Proof.
  intros Hc Hp. unfold connectToDatabase, bind, getCached.
  rewrite Hc, Hp. reflexivity.
Qed.

(** A first call whose attempt is rejected leaves the rejected promise in
    the cache. *)
Lemma failed_attempt_stays_cached (uri reason : string) (p : Process) :
  conn (cached p) = None ->
  promise (cached p) = None ->
  connect uri (connectCalls p) = Rejected reason ->
  exists p',
    connectToDatabase connect uri p = (p', Raise reason)
    /\ conn (cached p') = None
    /\ promise (cached p') = Some (Rejected reason)
    /\ connectCalls p' = S (connectCalls p).
Proof.
  intros Hc Hp Hr. unfold connectToDatabase, bind, getCached.
  rewrite Hc, Hp. cbn. rewrite Hr. cbn.
  eexists. split; [reflexivity|]. cbn.
  change (conn (cached p) = None /\ Some (Rejected reason) = Some (Rejected reason)
          /\ S (connectCalls p) = S (connectCalls p)).
  auto.
Qed.

(** A fulfilled attempt is cached and returned by every later call. *)
Lemma connection_cached (uri : string) (c : Connection) (p : Process) :
  conn (cached p) = Some c ->
  connectToDatabase connect uri p = (p, Ret c).
Proof.
  intros Hc. unfold connectToDatabase, bind, getCached.
  rewrite Hc. reflexivity.
Qed.

End AnyEnvironment.

(** C1.  The first connection attempt is refused.  The second call of
    [connectToDatabase] throws the same error again and makes no attempt of
    its own ([connectCalls] stays 1), although a fresh attempt would have
    been fulfilled: the rejected promise stays in [cached.promise]. *)
Theorem connect_failure_is_replayed :
  exists uri p p1 p2,
    loadModule (Some "mongodb://localhost:27017/dev") freshProcess
      = LoadDone uri p
    /\ connectToDatabase refusedOnce uri p
         = (p1, Raise "connect ECONNREFUSED")
    /\ promise (cached p1) = Some (Rejected "connect ECONNREFUSED")
    /\ refusedOnce uri (connectCalls p1) = Fulfilled 1
    /\ connectToDatabase refusedOnce uri p1
         = (p2, Raise "connect ECONNREFUSED")
    /\ connectCalls p2 = 1.
Proof.
  do 4 eexists. repeat split; reflexivity.
Qed.

(** The claim of C2 as the specification has it: with the variable unset the
    module loads, and the error comes out of the first call of
    [connectToDatabase]. *)
Definition raisedAtFirstConnection (env : option string) : Prop :=
  exists uri p,
    loadModule env freshProcess = LoadDone uri p
    /\ forall connect, exists p' e,
         connectToDatabase connect uri p = (p', Raise e).

Lemma missing_uri_not_raised_at_first_connection :
  ~ raisedAtFirstConnection None.
Proof.
  intros (uri & p & H & _). discriminate H.
Qed.

(** C2, amended.  The module body throws "Please define the MONGODB_URI
    environment variable" exactly when the variable is undefined or empty,
    whatever the process state; then nothing of the module, [connectToDatabase]
    included, exists to be called.  When the variable is set the module loads
    with that URI. *)
Theorem missing_uri_raised_at_load (env : option string) (p : Process) :
  (loadModule env p
     = LoadThrew "Please define the MONGODB_URI environment variable"
   <-> env = None \/ env = Some "")
  /\ ((exists uri p', loadModule env p = LoadDone uri p')
      <-> exists uri, env = Some uri /\ uri <> "")
  /\ (forall uri p', loadModule env p = LoadDone uri p' -> env = Some uri).
Proof.
  destruct env as [[|c u]|]; cbn; repeat split.
  - auto.
  - intros (uri & p' & H). discriminate.
  - intros (uri & H & Hne). congruence.
  - intros uri p' H. discriminate.
  - discriminate.
  - intros [H|H]; discriminate.
  - intros _. exists (String c u). split; [reflexivity | discriminate].
  - intros _. eauto.
  - intros uri p' H. injection H as <- _. reflexivity.
  - auto.
  - intros (uri & p' & H). discriminate.
  - intros (uri & H & _). discriminate.
  - intros uri p' H. discriminate.
Qed.

End MongodbFacts.

(** ** Slugs *)

Module SlugFacts.
Import Js EventModel.

(** [[a-z0-9-]] *)
Definition slugChar (c : ascii) : bool :=
  is_lower c || is_digit c || is_hyphen c.

(** [[a-z0-9_-]] *)
Definition slugCharOrUnderscore (c : ascii) : bool :=
  slugChar c || (code c =? 95)%nat.

Definition startsWithHyphen (s : string) : bool :=
  match s with
  | String c _ => is_hyphen c
  | EmptyString => false
  end.

Fixpoint endsWithHyphen (s : string) : bool :=
  match s with
  | EmptyString => false
  | String c EmptyString => is_hyphen c
  | String _ s' => endsWithHyphen s'
  end.

(** No two hyphens in a row; [prev] tells that the character before was
    one. *)
Fixpoint noHyphenPair (prev : bool) (s : string) : bool :=
  match s with
  | EmptyString => true
  | String c s' => negb (prev && is_hyphen c) && noHyphenPair (is_hyphen c) s'
  end.

(** What the specification asks of a slug. *)
Definition wellFormedSlug (s : string) : bool :=
  all slugChar s && negb (startsWithHyphen s) && negb (endsWithHyphen s)
  && noHyphenPair false s.

(** A fact about one character, settled on each of the 256. *)
Ltac by_char c :=
  destruct c as [[] [] [] [] [] [] [] []]; vm_compute;
  intros; solve [reflexivity | congruence].

Lemma all_impl (p q : ascii -> bool) (s : string) :
  (forall c, p c = true -> q c = true) -> all p s = true -> all q s = true.
Proof.
  intros Hpq. induction s as [|c s IH]; cbn; [reflexivity|].
  rewrite !andb_true_iff. intros [Hc Hs]. auto.
Qed.

Lemma all_dropWhile (p q : ascii -> bool) (s : string) :
  all q s = true -> all q (dropWhile p s) = true.
Proof.
  induction s as [|c s IH]; cbn; [reflexivity|].
  rewrite andb_true_iff. intros [Hc Hs].
  destruct (p c); cbn; [auto | now rewrite Hc, Hs].
Qed.

Lemma all_dropWhileEnd (p q : ascii -> bool) (s : string) :
  all q s = true -> all q (dropWhileEnd p s) = true.
Proof.
  induction s as [|c s IH]; cbn; [reflexivity|].
  rewrite andb_true_iff. intros [Hc Hs].
  destruct (p c && all p s); cbn; [reflexivity | now rewrite Hc, IH].
Qed.

Lemma all_trim (q : ascii -> bool) (s : string) :
  all q s = true -> all q (trim s) = true.
Proof.
  intros H. unfold trim. now apply all_dropWhileEnd, all_dropWhile.
Qed.

Lemma all_keep (p q : ascii -> bool) (s : string) :
  all q s = true -> all (fun c => p c && q c) (keep p s) = true.
Proof.
  induction s as [|c s IH]; cbn; [reflexivity|].
  rewrite andb_true_iff. intros [Hc Hs].
  destruct (p c) eqn:Hp; cbn; [rewrite Hp, Hc; cbn|]; auto.
Qed.

(** After the replacement every character is the replacement character or a
    character outside the class that was already there. *)
Lemma all_replaceRuns (p q : ascii -> bool) (r : ascii) (b : bool)
      (s : string) :
  all q s = true ->
  all (fun c => (c =? r)%char || (negb (p c) && q c)) (replaceRuns p r b s)
  = true.
Proof.
  revert b. induction s as [|c s IH]; intros b; cbn; [reflexivity|].
  rewrite andb_true_iff. intros [Hc Hs].
  destruct (p c) eqn:Hp.
  - destruct b; cbn; [|rewrite Ascii.eqb_refl; cbn]; auto.
  - cbn. rewrite Hp, Hc, orb_true_r. cbn. auto.
Qed.

Lemma lower_char_not_upper (c : ascii) : is_upper (lower_char c) = false.
Proof.
  by_char c.
Qed.

Lemma toLowerCase_no_upper (s : string) :
  all (fun c => negb (is_upper c)) (toLowerCase s) = true.
Proof.
  induction s as [|c s IH]; cbn; [reflexivity|].
  now rewrite lower_char_not_upper, IH.
Qed.

Lemma toLowerCase_fixed (s : string) :
  all slugCharOrUnderscore s = true -> toLowerCase s = s.
Proof.
  induction s as [|c s IH]; cbn; [reflexivity|].
  rewrite andb_true_iff. intros [Hc Hs]. rewrite IH by assumption.
  f_equal. revert Hc.
  by_char c.
Qed.

(** The characters left by the second replacement, seen one at a time. *)
Lemma surviving_char (c : ascii) :
  (c =? "-")%char
  || (negb (is_space c)
      && ((is_word c || is_space c || is_hyphen c) && negb (is_upper c)))
  = true ->
  slugCharOrUnderscore c = true.
Proof.
  by_char c.
Qed.

Lemma hyphen_or_surviving (c : ascii) :
  (c =? "-")%char || (negb (is_hyphen c) && slugCharOrUnderscore c) = true ->
  slugCharOrUnderscore c = true.
Proof.
  by_char c.
Qed.

Lemma generateSlug_charset (title : string) :
  all slugCharOrUnderscore (generateSlug title) = true.
Proof.
  unfold generateSlug.
  eapply all_impl; [exact hyphen_or_surviving|].
  apply all_replaceRuns.
  eapply all_impl; [exact surviving_char|].
  apply all_replaceRuns.
  apply all_keep, all_trim, toLowerCase_no_upper.
Qed.

Lemma replaceRuns_noHyphenPair (b : bool) (s : string) :
  noHyphenPair b (replaceRuns is_hyphen "-" b s) = true.
Proof.
  revert b. induction s as [|c s IH]; intros b; cbn; [reflexivity|].
  destruct (is_hyphen c) eqn:Hc.
  - destruct b.
    + apply IH.
    + cbn. apply IH.
  - cbn. rewrite Hc, andb_false_r. cbn. apply IH.
Qed.

(** C3 as stated fails three ways: an underscore of the title stays in the
    slug, a hyphen at the start of the title stays a leading hyphen, and a
    blank followed by a stripped character ends as a trailing hyphen. *)
Lemma generateSlug_not_wellFormed :
  generateSlug "dev_ops" = "dev_ops"
  /\ wellFormedSlug (generateSlug "dev_ops") = false
  /\ generateSlug "- intro" = "-intro"
  /\ wellFormedSlug (generateSlug "- intro") = false
  /\ generateSlug "Q & A !" = "q-a-"
  /\ wellFormedSlug (generateSlug "Q & A !") = false.
Proof.
  repeat split; reflexivity.
Qed.

(** C3, amended.  For every title the slug is in lower case (lower-casing it
    again changes nothing), consists of characters of [[a-z0-9_-]] only, and
    has no two hyphens in a row. *)
Theorem generateSlug_shape (title : string) :
  toLowerCase (generateSlug title) = generateSlug title
  /\ all slugCharOrUnderscore (generateSlug title) = true
  /\ noHyphenPair false (generateSlug title) = true.
Proof.
  split; [|split].
  - apply toLowerCase_fixed, generateSlug_charset.
  - apply generateSlug_charset.
  - apply replaceRuns_noHyphenPair.
Qed.

End SlugFacts.

(** ** Times *)

Module TimeFacts.
Import Js EventModel.

Definition pad2 (n : nat) : string := padStart 2 "0" (showNat n).

Lemma normalizeTime_examples :
  normalizeTime "2:30 PM" = Ok "14:30"
  /\ normalizeTime "2:30pm" = Ok "14:30"
  /\ normalizeTime "14:30" = Ok "14:30"
  /\ normalizeTime "12:00 AM" = Ok "00:00"
  /\ normalizeTime "12:00 PM" = Ok "12:00".
Proof.
  repeat split; reflexivity.
Qed.

(** The only error is the one that quotes the input as it was given. *)
Lemma normalizeTime_error (timeStr e : string) :
  normalizeTime timeStr = Throw e -> e = "Invalid time format: " ++ timeStr.
Proof.
  unfold normalizeTime.
  destruct (time12Match _) as [[[h12 m12] period]|];
    destruct (time24Match _) as [[h24 m24]|];
    try destruct (_ && _); intros H; congruence.
Qed.

(** An input that neither pattern matches is refused. *)
Lemma normalizeTime_other_shape (timeStr : string) :
  time24Match (toUpperCase (trim timeStr)) = None ->
  time12Match (toUpperCase (trim timeStr)) = None ->
  normalizeTime timeStr = Throw ("Invalid time format: " ++ timeStr).
Proof.
  intros H24 H12. unfold normalizeTime. now rewrite H24, H12.
Qed.

Definition returns (timeStr expected : string) : bool :=
  match normalizeTime timeStr with
  | Ok r => r =? expected
  | Throw _ => false
  end.

Lemma returns_spec (timeStr expected : string) :
  returns timeStr expected = true -> normalizeTime timeStr = Ok expected.
Proof.
  unfold returns. destruct (normalizeTime timeStr) as [r|e]; [|discriminate].
  intros H. apply String.eqb_eq in H. now subst.
Qed.

Definition hour24Accepted (h m : nat) : bool :=
  returns (showNat h ++ ":" ++ pad2 m) (pad2 h ++ ":" ++ pad2 m)
  && returns (pad2 h ++ ":" ++ pad2 m) (pad2 h ++ ":" ++ pad2 m).

Lemma hour24Accepted_all :
  forallb (fun h => forallb (hour24Accepted h) (seq 0 100)) (seq 0 24) = true.
Proof. vm_compute. reflexivity. Qed.

(** The hour of the 24-hour clock that [h] o'clock AM or PM is. *)
Definition to24 (pm : bool) (h : nat) : nat :=
  if pm then (if (h =? 12)%nat then 12 else h + 12)
  else (if (h =? 12)%nat then 0 else h).

Definition markers (pm : bool) : list string :=
  if pm then ["PM"; "pm"; "  Pm"] else ["AM"; "am"; "  aM"].

Definition hour12Accepted (pm : bool) (h m : nat) : bool :=
  forallb (fun mk =>
             returns (showNat h ++ ":" ++ pad2 m ++ mk)
                     (pad2 (to24 pm h) ++ ":" ++ pad2 m)
             && returns (pad2 h ++ ":" ++ pad2 m ++ mk)
                        (pad2 (to24 pm h) ++ ":" ++ pad2 m))
          (markers pm).

Lemma hour12Accepted_all :
  forallb (fun pm =>
             forallb (fun h => forallb (hour12Accepted pm h) (seq 0 100))
                     (seq 1 12))
          [true; false] = true.
Proof. vm_compute. reflexivity. Qed.

(** With an hour from 1 to 12 the 12-hour form is converted as the clock
    has it, whatever the two minute digits. *)
Lemma normalizeTime_12_hour (pm : bool) (h m : nat) (mk : string) :
  1 <= h <= 12 -> m < 100 -> In mk (markers pm) ->
  normalizeTime (showNat h ++ ":" ++ pad2 m ++ mk)
    = Ok (pad2 (to24 pm h) ++ ":" ++ pad2 m)
  /\ normalizeTime (pad2 h ++ ":" ++ pad2 m ++ mk)
    = Ok (pad2 (to24 pm h) ++ ":" ++ pad2 m).
Proof.
  intros Hh Hm Hmk.
  pose proof hour12Accepted_all as A.
  rewrite forallb_forall in A.
  assert (Hpm : In pm [true; false]) by (destruct pm; cbn; auto).
  specialize (A pm Hpm). cbv beta in A.
  rewrite forallb_forall in A.
  specialize (A h (proj2 (in_seq 12 1 h) ltac:(lia))).
  rewrite forallb_forall in A.
  specialize (A m (proj2 (in_seq 100 0 m) ltac:(lia))).
  unfold hour12Accepted in A. rewrite forallb_forall in A.
  specialize (A mk Hmk). apply andb_true_iff in A as [A1 A2].
  split; now apply returns_spec.
Qed.

(** C4.  The 12-hour branch takes any one or two digits as the hour: what it
    returns for 13 PM and for 99 pm is no time of the 24-hour clock, and the
    second is not of the form HH:MM.  The 24-hour branch, which checks the
    hour, refuses 25:00. *)
Theorem normalizeTime_12_hour_unchecked :
  normalizeTime "13:00 PM" = Ok "25:00"
  /\ normalizeTime "99:59pm" = Ok "111:59"
  /\ normalizeTime "0:15 PM" = Ok "12:15"
  /\ normalizeTime "25:00" = Throw "Invalid time format: 25:00".
Proof.
  repeat split; reflexivity.
Qed.

(** C9.  With an hour from 0 to 23, written with or without a leading zero,
    any two digits are taken as minutes, 60 to 99 included, and the time
    comes back with the hour padded to two digits. *)
Theorem normalizeTime_minutes_unchecked (h m : nat) :
  h < 24 -> m < 100 ->
  normalizeTime (showNat h ++ ":" ++ pad2 m) = Ok (pad2 h ++ ":" ++ pad2 m)
  /\ normalizeTime (pad2 h ++ ":" ++ pad2 m) = Ok (pad2 h ++ ":" ++ pad2 m).
Proof.
  intros Hh Hm.
  pose proof hour24Accepted_all as A.
  rewrite forallb_forall in A.
  specialize (A h (proj2 (in_seq 24 0 h) ltac:(lia))). cbv beta in A.
  rewrite forallb_forall in A.
  specialize (A m (proj2 (in_seq 100 0 m) ltac:(lia))).
  apply andb_true_iff in A as [A1 A2].
  split; now apply returns_spec.
Qed.

Lemma normalizeTime_minutes_unchecked_witness :
  normalizeTime "14:75" = Ok "14:75".
Proof.
  exact (proj1 (normalizeTime_minutes_unchecked 14 75 ltac:(lia) ltac:(lia))).
Defined.

End TimeFacts.

(** ** Dates *)

Module DateFacts.
Import Js JsDate EventModel.
Local Open Scope Z_scope.

Ltac zlia := Z.to_euclidean_division_equations; lia.

Ltac by_char c :=
  destruct c as [[] [] [] [] [] [] [] []]; vm_compute;
  intros; solve [reflexivity | congruence].

(** [YearFromDay] is the year ECMAScript defines: the one whose first day is
    at or before [d] while the next year starts after [d]. *)
Lemma YearFromDay_spec (d : Z) :
  DayFromYear (YearFromDay d) <= d < DayFromYear (YearFromDay d + 1).
Proof.
  unfold YearFromDay.
  destruct (Z.ltb_spec d (DayFromYear (1970 + d * 400 / 146097))) as [H|H].
  - replace (1970 + d * 400 / 146097 - 1 + 1)
      with (1970 + d * 400 / 146097) by lia.
    split; [|assumption]. revert H. unfold DayFromYear. zlia.
  - destruct (Z.leb_spec (DayFromYear (1970 + d * 400 / 146097 + 1)) d)
      as [H'|H'].
    + split; [assumption|]. revert H H'. unfold DayFromYear. zlia.
    + lia.
Qed.

Lemma DayFromYear_mono (y y' : Z) : y <= y' -> DayFromYear y <= DayFromYear y'.
Proof. unfold DayFromYear. zlia. Qed.

Lemma YearFromDay_unique (d y : Z) :
  DayFromYear y <= d < DayFromYear (y + 1) -> YearFromDay d = y.
Proof.
  intros [Hlo Hhi]. pose proof (YearFromDay_spec d) as [Slo Shi].
  destruct (Z.lt_trichotomy (YearFromDay d) y) as [L|[E|G]]; [|exact E|].
  - pose proof (DayFromYear_mono (YearFromDay d + 1) y ltac:(lia)). lia.
  - pose proof (DayFromYear_mono (y + 1) (YearFromDay d) ltac:(lia)). lia.
Qed.

Lemma DaysBeforeMonth_bounds (leap : bool) (m : Z) :
  0 <= DaysBeforeMonth leap m <= 366.
Proof.
  unfold DaysBeforeMonth.
  repeat match goal with
         | |- context [if ?b then _ else _] => destruct b
         end; lia.
Qed.

Lemma digit_not_hyphen (c : ascii) :
  is_digit c = true -> (c =? "-")%char = false.
Proof. by_char c. Qed.

Lemma hyphen_is_literal (c : ascii) : is_hyphen c = true -> c = "-"%char.
Proof. by_char c. Qed.

Lemma digitVal_bound (c : ascii) :
  is_digit c = true -> (digitVal c <=? 9)%nat = true.
Proof. by_char c. Qed.

(** A string of the strict shape, taken apart. *)
Lemma isoDateOnly_inv (s : string) :
  isoDateOnly s = true ->
  exists y1 y2 y3 y4 m1 m2 d1 d2,
    s = String y1 (String y2 (String y3 (String y4 (String "-"
          (String m1 (String m2 (String "-" (String d1 (String d2
             EmptyString)))))))))
    /\ is_digit y1 = true /\ is_digit y2 = true /\ is_digit y3 = true
    /\ is_digit y4 = true /\ is_digit m1 = true /\ is_digit m2 = true
    /\ is_digit d1 = true /\ is_digit d2 = true.
Proof.
  destruct s as [|y1 [|y2 [|y3 [|y4 [|h1 [|m1 [|m2 [|h2 [|d1 [|d2 [|x s]]]]]]]]]]];
    cbn; try discriminate.
  rewrite !andb_true_iff.
  intros [[[[[[[[[Hy1 Hy2] Hy3] Hy4] Hh1] Hm1] Hm2] Hh2] Hd1] Hd2].
  apply hyphen_is_literal in Hh1, Hh2. subst h1 h2.
  exists y1, y2, y3, y4, m1, m2, d1, d2. repeat split; assumption.
Qed.

Lemma split_strict (y1 y2 y3 y4 m1 m2 d1 d2 : ascii) :
  is_digit y1 = true -> is_digit y2 = true -> is_digit y3 = true ->
  is_digit y4 = true -> is_digit m1 = true -> is_digit m2 = true ->
  is_digit d1 = true -> is_digit d2 = true ->
  split "-" (String y1 (String y2 (String y3 (String y4 (String "-"
          (String m1 (String m2 (String "-" (String d1 (String d2
             EmptyString))))))))))
  = [String y1 (String y2 (String y3 (String y4 EmptyString)));
     String m1 (String m2 EmptyString); String d1 (String d2 EmptyString)].
Proof.
  intros Hy1 Hy2 Hy3 Hy4 Hm1 Hm2 Hd1 Hd2.
  apply digit_not_hyphen in Hy1, Hy2, Hy3, Hy4, Hm1, Hm2, Hd1, Hd2.
  cbn. now rewrite Hy1, Hy2, Hy3, Hy4, Hm1, Hm2, Hd1, Hd2.
Qed.

(** The time value [Date.UTC] gives for components in the range that four
    and two digits can denote is never NaN. *)
Lemma UTC_finite (y m d : Z) :
  0 <= y <= 9999 -> 0 <= m <= 99 -> 0 <= d <= 99 ->
  UTC y (m - 1) d
  = Some (MakeDate (MakeDay (MakeFullYear y) (m - 1) d) 0).
Proof.
  intros Hy Hm Hd. unfold UTC, TimeClip.
  destruct (Z.ltb_spec 8640000000000000
              (Z.abs (MakeDate (MakeDay (MakeFullYear y) (m - 1) d) 0)))
    as [H|H]; [exfalso|reflexivity].
  revert H. unfold MakeDate, MakeDay, msPerDay.
  pose proof (DaysBeforeMonth_bounds
                (InLeapYear (MakeFullYear y + (m - 1) / 12))
                ((m - 1) mod 12)) as B.
  assert (Y : 0 <= MakeFullYear y <= 9999).
  { unfold MakeFullYear. destruct (_ && _) eqn:E; [|lia].
    apply andb_true_iff in E as [E1 E2]. lia. }
  revert B Y. generalize (MakeFullYear y). intros fy.
  generalize (DaysBeforeMonth (InLeapYear (fy + (m - 1) / 12))
                              ((m - 1) mod 12)).
  intros b B Y. unfold DayFromYear. zlia.
Qed.

Lemma normalizeDateToISO_strict (parseDate : string -> option Z)
      (s : string) :
  isoDateOnly s = true ->
  exists y m d,
    0 <= y <= 9999 /\ 0 <= m <= 99 /\ 0 <= d <= 99
    /\ map (fun p => Z.of_nat (digitsVal p)) (split "-" s) = [y; m; d]
    /\ normalizeDateToISO parseDate s
       = Ok (hd EmptyString
               (split "T"
                  (toISOString
                     (MakeDate (MakeDay (MakeFullYear y) (m - 1) d) 0)))).
Proof.
  intros H. pose proof H as Hs.
  apply isoDateOnly_inv in H
    as (y1 & y2 & y3 & y4 & m1 & m2 & d1 & d2 & -> & Hy1 & Hy2 & Hy3 & Hy4
        & Hm1 & Hm2 & Hd1 & Hd2).
  unfold normalizeDateToISO. rewrite Hs.
  rewrite split_strict by assumption.
  apply digitVal_bound, Nat.leb_le in Hy1, Hy2, Hy3, Hy4, Hm1, Hm2, Hd1, Hd2.
  eexists _, _, _. split; [|split; [|split; [|split; [reflexivity|]]]].
  4: { cbn [map]. rewrite UTC_finite; [reflexivity| | |]; cbn; lia. }
  all: cbn; lia.
Qed.

Lemma DayFromYear_succ (y : Z) :
  DayFromYear (y + 1) = DayFromYear y + DaysInYear y.
Proof.
  unfold DaysInYear, InLeapYear, DayFromYear.
  destruct (Z.eqb_spec (y mod 4) 0), (Z.eqb_spec (y mod 100) 0),
    (Z.eqb_spec (y mod 400) 0); cbn [andb orb negb]; zlia.
Qed.

(** Length of month [m] (1 is January). *)
Definition daysInMonth (leap : bool) (m : Z) : Z :=
  if m =? 2 then (if leap then 29 else 28)
  else if (m =? 4) || (m =? 6) || (m =? 9) || (m =? 11) then 30
  else 31.

Lemma month_cases (m : Z) :
  1 <= m <= 12 ->
  m = 1 \/ m = 2 \/ m = 3 \/ m = 4 \/ m = 5 \/ m = 6 \/ m = 7 \/ m = 8
  \/ m = 9 \/ m = 10 \/ m = 11 \/ m = 12.
Proof. lia. Qed.

Lemma DaysBeforeMonth_next (leap : bool) (m : Z) :
  1 <= m <= 12 ->
  DaysBeforeMonth leap m = DaysBeforeMonth leap (m - 1) + daysInMonth leap m.
Proof.
  intros H. apply month_cases in H.
  repeat (destruct H as [->|H]); [..|subst m]; destruct leap; reflexivity.
Qed.

(** The time value of a calendar date has that date's fields, and midnight
    as its time of day. *)
Lemma civil_fields (y m d : Z) :
  1 <= m <= 12 -> 1 <= d <= daysInMonth (InLeapYear y) m ->
  let t := MakeDate (MakeDay y (m - 1) d) 0 in
  YearFromTime t = y /\ MonthFromTime t = m - 1 /\ DateFromTime t = d
  /\ HourFromTime t = 0 /\ MinFromTime t = 0 /\ SecFromTime t = 0
  /\ msFromTime t = 0.
Proof.
  intros Hm Hd t.
  assert (Q : (m - 1) / 12 = 0) by zlia.
  assert (R : (m - 1) mod 12 = m - 1) by zlia.
  set (n := DayFromYear y + DaysBeforeMonth (InLeapYear y) (m - 1) + d - 1).
  assert (T : t = n * msPerDay).
  { unfold t, MakeDate, MakeDay. rewrite Q, R, !Z.add_0_r.
    reflexivity. }
  assert (D : Day t = n).
  { rewrite T. unfold Day, msPerDay. zlia. }
  pose proof (DaysBeforeMonth_next (InLeapYear y) m Hm) as Nx.
  assert (B12 : DaysBeforeMonth (InLeapYear y) m <= DaysInYear y).
  { unfold DaysInYear. clear. destruct (InLeapYear y); unfold DaysBeforeMonth;
    repeat match goal with
           | |- context [if ?b then _ else _] => destruct b
           end; lia. }
  assert (B0 : 0 <= DaysBeforeMonth (InLeapYear y) (m - 1))
    by apply DaysBeforeMonth_bounds.
  assert (Y : YearFromTime t = y).
  { unfold YearFromTime. rewrite D. apply YearFromDay_unique.
    rewrite DayFromYear_succ. unfold n. lia. }
  assert (W : DayWithinYear t
              = DaysBeforeMonth (InLeapYear y) (m - 1) + d - 1).
  { unfold DayWithinYear. rewrite Y, D. unfold n. lia. }
  assert (M : MonthFromTime t = m - 1).
  { unfold MonthFromTime. rewrite Y, W. cbv zeta.
    clear -Hm Hd. apply month_cases in Hm.
    repeat (destruct Hm as [->|Hm]); [..|subst m];
      destruct (InLeapYear y);
      repeat match goal with
             | |- context [DaysBeforeMonth ?l ?k] =>
                 let v := eval vm_compute in (DaysBeforeMonth l k) in
                 change (DaysBeforeMonth l k) with v
             | H : context [daysInMonth ?l ?k] |- _ =>
                 let v := eval vm_compute in (daysInMonth l k) in
                 change (daysInMonth l k) with v in H
             end;
      repeat match goal with
             | |- context [?a <? ?b] => destruct (Z.ltb_spec a b); try lia
             end. }
  split; [exact Y|]. split; [exact M|]. split.
  { unfold DateFromTime. rewrite Y, M, W. lia. }
  rewrite T. unfold HourFromTime, MinFromTime, SecFromTime, msFromTime,
    msPerDay. repeat split; zlia.
Qed.

(** [pad 4 n] is four digits that read [n]; checked for each [n] up to
    9999, and likewise for two digits. *)
Definition fourDigits (n : nat) : bool :=
  match padStart 4 "0" (showNat n) with
  | String a (String b (String c (String d EmptyString))) =>
      is_digit a && is_digit b && is_digit c && is_digit d
      && (digitsVal (String a (String b (String c (String d EmptyString))))
          =? n)%nat
  | _ => false
  end.

Definition twoDigits (n : nat) : bool :=
  match padStart 2 "0" (showNat n) with
  | String a (String b EmptyString) =>
      is_digit a && is_digit b
      && (digitsVal (String a (String b EmptyString)) =? n)%nat
  | _ => false
  end.

Lemma fourDigits_all : forallb fourDigits (seq 0 (100 * 100)) = true.
Proof. vm_compute. reflexivity. Qed.

Lemma twoDigits_all : forallb twoDigits (seq 0 100) = true.
Proof. vm_compute. reflexivity. Qed.

Lemma pad4_shape (z : Z) :
  0 <= z <= 9999 ->
  exists a b c d,
    pad 4 z = String a (String b (String c (String d EmptyString)))
    /\ is_digit a = true /\ is_digit b = true /\ is_digit c = true
    /\ is_digit d = true
    /\ Z.of_nat (digitsVal (pad 4 z)) = z.
Proof.
  intros H. pose proof fourDigits_all as A. rewrite forallb_forall in A.
  specialize (A (Z.to_nat z) (proj2 (in_seq (100 * 100) 0 (Z.to_nat z)) ltac:(lia))).
  unfold fourDigits in A. unfold pad.
  destruct (padStart 4 "0" (showNat (Z.to_nat z)))
    as [|a [|b [|c [|d [|e s]]]]]; try discriminate.
  rewrite !andb_true_iff in A. destruct A as [[[[Ha Hb] Hc] Hd] Hv].
  apply Nat.eqb_eq in Hv. exists a, b, c, d.
  repeat split; try assumption. rewrite Hv. lia.
Qed.

Lemma pad2_shape (z : Z) :
  0 <= z <= 99 ->
  exists a b,
    pad 2 z = String a (String b EmptyString)
    /\ is_digit a = true /\ is_digit b = true
    /\ Z.of_nat (digitsVal (pad 2 z)) = z.
Proof.
  intros H. pose proof twoDigits_all as A. rewrite forallb_forall in A.
  specialize (A (Z.to_nat z) (proj2 (in_seq 100 0 (Z.to_nat z)) ltac:(lia))).
  unfold twoDigits in A. unfold pad.
  destruct (padStart 2 "0" (showNat (Z.to_nat z)))
    as [|a [|b [|e s]]]; try discriminate.
  rewrite !andb_true_iff in A. destruct A as [[Ha Hb] Hv].
  apply Nat.eqb_eq in Hv. exists a, b.
  repeat split; try assumption. rewrite Hv. lia.
Qed.

Lemma digit_not_T (c : ascii) : is_digit c = true -> (c =? "T")%char = false.
Proof. by_char c. Qed.

(** The text of a calendar date. *)
Definition isoDate (y m d : Z) : string :=
  pad 4 y ++ "-" ++ pad 2 m ++ "-" ++ pad 2 d.

Lemma daysInMonth_le (leap : bool) (m : Z) : daysInMonth leap m <= 31.
Proof.
  unfold daysInMonth.
  repeat match goal with
         | |- context [if ?b then _ else _] => destruct b
         end; lia.
Qed.

(** A calendar date from year 0100 on, written in the strict form, comes
    back as it is. *)
Lemma normalizeDateToISO_calendar_date (parseDate : string -> option Z)
      (y m d : Z) :
  100 <= y <= 9999 -> 1 <= m <= 12 ->
  1 <= d <= daysInMonth (InLeapYear y) m ->
  isoDateOnly (isoDate y m d) = true
  /\ normalizeDateToISO parseDate (isoDate y m d) = Ok (isoDate y m d).
Proof.
  intros Hy Hm Hd.
  pose proof (daysInMonth_le (InLeapYear y) m) as Hd31.
  destruct (pad4_shape y ltac:(lia))
    as (y1 & y2 & y3 & y4 & Ey & Hy1 & Hy2 & Hy3 & Hy4 & Vy).
  destruct (pad2_shape m ltac:(lia)) as (m1 & m2 & Em & Hm1 & Hm2 & Vm).
  destruct (pad2_shape d ltac:(lia)) as (d1 & d2 & Ed & Hd1 & Hd2 & Vd).
  assert (S : isoDateOnly (isoDate y m d) = true).
  { unfold isoDate. rewrite Ey, Em, Ed. cbn.
    now rewrite Hy1, Hy2, Hy3, Hy4, Hm1, Hm2, Hd1, Hd2. }
  split; [exact S|].
  unfold normalizeDateToISO. rewrite S.
  assert (P : map (fun p => Z.of_nat (digitsVal p))
                  (split "-" (isoDate y m d)) = [y; m; d]).
  { unfold isoDate. rewrite Ey, Em, Ed.
    change (split "-" _)
      with (split "-" (String y1 (String y2 (String y3 (String y4 (String "-"
              (String m1 (String m2 (String "-" (String d1 (String d2
                 EmptyString))))))))))).
    rewrite split_strict by assumption. cbn [map].
    rewrite <- Ey, <- Em, <- Ed, Vy, Vm, Vd. reflexivity. }
  rewrite P. rewrite UTC_finite by lia.
  assert (F : MakeFullYear y = y).
  { unfold MakeFullYear. destruct (Z.leb_spec y 99); [lia|].
    now rewrite andb_false_r. }
  rewrite F.
  destruct (civil_fields y m d Hm Hd) as (Y & M & D & H & Mi & Se & Ms).
  unfold toISOString. rewrite Y, M, D, H, Mi, Se, Ms.
  destruct (Z.leb_spec 0 y); [|lia]. destruct (Z.leb_spec y 9999); [|lia].
  cbn [andb]. replace (m - 1 + 1) with m by lia.
  unfold isoDate. rewrite Ey, Em, Ed.
  apply digit_not_T in Hy1, Hy2, Hy3, Hy4, Hm1, Hm2, Hd1, Hd2.
  cbn. rewrite Hy1, Hy2, Hy3, Hy4, Hm1, Hm2, Hd1, Hd2. reflexivity.
Qed.

(** C5.  A year from 0000 to 0099 comes back moved into the twentieth
    century: [Date.UTC] reads a year below 100 as 1900 + year.  The dates
    given are calendar dates of the strict shape; the last line is the
    specification's own example. *)
Theorem normalizeDateToISO_two_digit_year (parseDate : string -> option Z) :
  normalizeDateToISO parseDate "0099-12-31" = Ok "1999-12-31"
  /\ normalizeDateToISO parseDate "0001-01-01" = Ok "1901-01-01"
  /\ normalizeDateToISO parseDate "0004-02-29" = Ok "1904-02-29"
  /\ normalizeDateToISO parseDate "0100-01-01" = Ok "0100-01-01"
  /\ normalizeDateToISO parseDate "2024-05-20" = Ok "2024-05-20".
Proof.
  repeat split; reflexivity.
Qed.

(** An input that is not of the strict shape and that the host cannot parse
    is refused with an error that quotes it. *)
Lemma normalizeDateToISO_unparseable (parseDate : string -> option Z)
      (s : string) :
  isoDateOnly s = false -> parseDate s = None ->
  normalizeDateToISO parseDate s = Throw ("Invalid date format: " ++ s).
Proof.
  intros H1 H2. unfold normalizeDateToISO, newDateOfString.
  now rewrite H1, H2.
Qed.

Lemma normalizeDateToISO_error (parseDate : string -> option Z)
      (s e : string) :
  normalizeDateToISO parseDate s = Throw e -> e = "Invalid date format: " ++ s.
Proof.
  unfold normalizeDateToISO.
  destruct (if isoDateOnly s then _ else _); intros H; congruence.
Qed.

End DateFacts.

(** ** The event hook *)

Module EventHookFacts.
Import Js EventModel Mongoose EventHook.

(** The candidates of the loop: the base slug, then base-1, base-2, ... *)
Definition candidate (baseSlug : string) (k : nat) : string :=
  match k with
  | O => baseSlug
  | S _ => baseSlug ++ "-" ++ showNat k
  end.

(** The queries the loop has sent when it stops at candidate [n]. *)
Definition probes (baseSlug : string) (id : ObjectId) (k n : nat)
  : list StorageOp :=
  map (fun j => EventExistsSlug (candidate baseSlug j) id) (seq k (S n - k)).

Lemma append_length (a b : string) :
  String.length (a ++ b) = String.length a + String.length b.
Proof. induction a as [|c a IH]; cbn; [reflexivity | now rewrite IH]. Qed.

Lemma append_inj_l (a b c : string) : a ++ b = a ++ c -> b = c.
Proof.
  induction a as [|x a IH]; cbn; [auto|]. intros H. injection H as H. auto.
Qed.

Lemma showNat_inj (m n : nat) : showNat m = showNat n -> m = n.
Proof.
  unfold showNat. intros H.
  apply (f_equal NilEmpty.uint_of_string) in H. rewrite !NilEmpty.usu in H.
  injection H as H. apply (f_equal Nat.of_uint) in H.
  now rewrite !Unsigned.of_to in H.
Qed.

Lemma candidate_inj (baseSlug : string) (j k : nat) :
  candidate baseSlug j = candidate baseSlug k -> j = k.
Proof.
  destruct j as [|j], k as [|k]; cbn [candidate]; intros H.
  - reflexivity.
  - apply (f_equal String.length) in H. rewrite append_length in H.
    cbn in H. lia.
  - apply (f_equal String.length) in H. rewrite append_length in H.
    cbn in H. lia.
  - apply append_inj_l in H. injection H as H. now apply showNat_inj.
Qed.

Lemma slugTaken_record (op : StorageOp) (db : Database) (s : string)
      (id : ObjectId) :
  slugTaken (record op db) s id = slugTaken db s id.
Proof. reflexivity. Qed.

Lemma slugTaken_In (db : Database) (s : string) (id : ObjectId) :
  slugTaken db s id = true -> In s (map slug (events db)).
Proof.
  unfold slugTaken. rewrite existsb_exists. intros (e & He & H).
  apply andb_true_iff in H as [H _]. apply String.eqb_eq in H.
  subst s. now apply in_map.
Qed.

(** The store is finite and the candidates differ from one another, so one of
    the first [List.length (events db) + 1] candidates is free. *)
Lemma some_candidate_free (db : Database) (baseSlug : string)
      (id : ObjectId) :
  exists n, n <= List.length (events db)
            /\ slugTaken db (candidate baseSlug n) id = false.
Proof.
  set (L := List.length (events db)).
  destruct (forallb (fun j => slugTaken db (candidate baseSlug j) id)
                    (seq 0 (S L))) eqn:E.
  - exfalso. rewrite forallb_forall in E.
    assert (I : incl (map (candidate baseSlug) (seq 0 (S L)))
                     (map slug (events db))).
    { intros s Hs. apply in_map_iff in Hs as (j & <- & Hj).
      eapply slugTaken_In, E, Hj. }
    assert (N : NoDup (map (candidate baseSlug) (seq 0 (S L)))).
    { apply NoDup_map_NoDup_ForallPairs; [|apply seq_NoDup].
      intros j k _ _. apply candidate_inj. }
    pose proof (NoDup_incl_length N I) as Hlen.
    rewrite !length_map, length_seq in Hlen. unfold L in Hlen. lia.
  - assert (E' : exists j, In j (seq 0 (S L))
                   /\ slugTaken db (candidate baseSlug j) id = false).
    { clear -E. induction (seq 0 (S L)) as [|j l IH]; [discriminate|].
      cbn in E. apply andb_false_iff in E as [E|E].
      - exists j. cbn. auto.
      - destruct (IH E) as (k & Hk & Hf). exists k. cbn. auto. }
    destruct E' as (j & Hj & Hf). apply in_seq in Hj.
    exists j. split; [lia | assumption].
Qed.

(** Below a value where a test fails there is a least one. *)
Lemma least_false (P : nat -> bool) (m : nat) :
  P m = false ->
  exists n, n <= m /\ P n = false /\ forall j, j < n -> P j = true.
Proof.
  induction m as [m IH] using lt_wf_ind. intros Hm.
  destruct (forallb P (seq 0 m)) eqn:E.
  - exists m. split; [lia|]. split; [assumption|].
    intros j Hj. rewrite forallb_forall in E. apply E, in_seq. lia.
  - assert (E' : exists j, j < m /\ P j = false).
    { clear -E. induction m as [|m IH]; [discriminate|].
      rewrite seq_S, forallb_app in E. cbn in E.
      apply andb_false_iff in E as [E|E].
      - destruct (IH E) as (j & Hj & Hf). exists j. split; [lia|assumption].
      - exists m. split; [lia|]. now destruct (P m). }
    destruct E' as (j & Hj & Hf).
    destruct (IH j Hj Hf) as (n & Hn & Hnf & Hlt).
    exists n. split; [lia|]. auto.
Qed.

Lemma first_free_candidate (db : Database) (baseSlug : string)
      (id : ObjectId) :
  exists n, n <= List.length (events db)
            /\ slugTaken db (candidate baseSlug n) id = false
            /\ forall j, j < n ->
                         slugTaken db (candidate baseSlug j) id = true.
Proof.
  destruct (some_candidate_free db baseSlug id) as (m & Hm & Hf).
  destruct (least_false (fun j => slugTaken db (candidate baseSlug j) id)
                        m Hf) as (n & Hn & Hnf & Hlt).
  exists n. split; [lia|]. auto.
Qed.

Definition withJournal (db : Database) (ops : list StorageOp) : Database :=
  {| events := events db; bookings := bookings db;
     journal := journal db ++ ops |}.

Lemma record_withJournal (db : Database) (op : StorageOp)
      (ops : list StorageOp) :
  withJournal (record op db) ops = withJournal db (op :: ops).
Proof.
  unfold withJournal, record. cbn. now rewrite <- app_assoc.
Qed.

(** The loop entered at candidate [k], all candidates from [k] up to [n]
    exclusive being taken and [n] free, asks for [k], ..., [n] in this order
    and stops with candidate [n]. *)
Lemma probe_finds (baseSlug : string) (n : nat) :
  forall (fuel k : nat) (db : Database) (self : IEvent),
    k <= n -> n - k < fuel ->
    (forall j, k <= j < n ->
               slugTaken db (candidate baseSlug j) (EventModel._id self)
               = true) ->
    slugTaken db (candidate baseSlug n) (EventModel._id self) = false ->
    probe fuel baseSlug (candidate baseSlug k) (S k) (db, self)
    = ((withJournal db (probes baseSlug (EventModel._id self) k n), self),
       Ret (candidate baseSlug n)).
Proof.
  induction fuel as [|fuel IH]; intros k db self Hk Hfuel Htaken Hfree;
    [lia|].
  cbn [probe]. unfold bind, existsSlug. cbn [fst snd].
  destruct (Nat.eq_dec k n) as [->|Hne].
  - rewrite Hfree. unfold ret, probes.
    replace (S n - n) with 1 by lia. cbn [seq map].
    reflexivity.
  - rewrite Htaken by lia.
    change (baseSlug ++ "-" ++ showNat (S k)) with (candidate baseSlug (S k)).
    rewrite IH; try lia.
    + rewrite record_withJournal. unfold probes.
      replace (S n - k) with (S (S n - S k)) by lia. reflexivity.
    + intros j Hj. rewrite slugTaken_record. apply Htaken. lia.
    + rewrite slugTaken_record. exact Hfree.
Qed.

(** With more fuel than the store has events the loop ends, on the first
    free candidate. *)
Lemma probe_total (fuel : nat) (baseSlug : string) (db : Database)
      (self : IEvent) :
  List.length (events db) < fuel ->
  exists n,
    n <= List.length (events db)
    /\ slugTaken db (candidate baseSlug n) (EventModel._id self) = false
    /\ (forall j, j < n ->
                  slugTaken db (candidate baseSlug j) (EventModel._id self)
                  = true)
    /\ probe fuel baseSlug baseSlug 1 (db, self)
       = ((withJournal db (probes baseSlug (EventModel._id self) 0 n), self),
          Ret (candidate baseSlug n)).
Proof.
  intros Hfuel.
  destruct (first_free_candidate db baseSlug (EventModel._id self))
    as (n & Hn & Hfree & Htaken).
  exists n. repeat split; try assumption.
  apply (probe_finds baseSlug n fuel 0 db self); try lia; try assumption.
  intros j Hj. apply Htaken. lia.
Qed.

Section Hook.

Variable parseDate : string -> option Z.
Local Open Scope hook_scope.

(** The two halves of the hook: the slug step, and what follows it. *)
Definition slugStep (fuel : nat) : M HookState unit :=
  self <- this ;;
  if isNew self || isModified "title" self then
    let baseSlug := generateSlug (title self) in
    slug_ <- probe fuel baseSlug baseSlug 1 ;;
    assign (set_slug slug_)
  else ret tt.

Definition afterSlug : M HookState unit :=
  self <- this ;;
  (if isNew self || isModified "date" self then
     d <- liftResult (normalizeDateToISO parseDate (date self)) ;;
     assign (set_date d)
   else ret tt) ;;
  self <- this ;;
  (if isNew self || isModified "time" self then
     t <- liftResult (normalizeTime (time self)) ;;
     assign (set_time t)
   else ret tt) ;;
  checkRequired requiredFields.

Lemma preSave_split (fuel : nat) (s : HookState) :
  preSave parseDate fuel s = (slugStep fuel ;; afterSlug) s.
Proof.
  unfold preSave, slugStep, afterSlug, bind, this. cbn.
  destruct (isNew (snd s) || isModified "title" (snd s)); [|reflexivity].
  destruct (probe fuel _ _ 1 s) as [s' [slug_| |]]; reflexivity.
Qed.

(** The loop over the required fields changes nothing and ends. *)
Lemma checkRequired_state (fields : list string) (s : HookState) :
  fst (checkRequired fields s) = s
  /\ snd (checkRequired fields s) <> OutOfFuel.
Proof.
  induction fields as [|f fields IH]; cbn.
  - split; [reflexivity | discriminate].
  - unfold bind, this. cbn.
    destruct (getField f (snd s)) as [value|]; [|exact IH].
    destruct (trim value =? ""); [|exact IH].
    split; [reflexivity | discriminate].
Qed.

(** What follows the slug step sends nothing to the store, keeps [slug]
    and [_id], and ends. *)
Lemma afterSlug_frame (s : HookState) :
  fst (fst (afterSlug s)) = fst s
  /\ slug (snd (fst (afterSlug s))) = slug (snd s)
  /\ EventModel._id (snd (fst (afterSlug s))) = EventModel._id (snd s)
  /\ snd (afterSlug s) <> OutOfFuel.
Proof.
  destruct s as [db doc]. unfold afterSlug, bind, this. cbn [fst snd].
  destruct (isNew doc || isModified "date" doc);
    [destruct (normalizeDateToISO parseDate (date doc)) as [d|e]|];
    cbn [liftResult ret throw assign fst snd];
    try (repeat split; [discriminate]).
  all: match goal with
       | |- context [isModified "time" ?x] =>
           destruct (isNew x || isModified "time" x);
           [destruct (normalizeTime (time x)) as [t|e']|]
       end;
    cbn [liftResult ret throw assign fst snd];
    try (repeat split; [discriminate]).
  all: match goal with
       | |- context [checkRequired ?f ?x] =>
           destruct (checkRequired_state f x) as [E N];
           destruct (checkRequired f x) as [x' o]; cbn [fst snd] in *;
           subst x'; repeat split; exact N
       end.
Qed.

(** The hook on a document whose slug is regenerated: the loop stops at
    the first free candidate, after having asked for every candidate up to
    it, and the rest of the hook leaves store and slug alone. *)
Lemma preSave_regenerates (fuel : nat) (db : Database) (doc : IEvent) :
  List.length (events db) < fuel ->
  isNew doc || isModified "title" doc = true ->
  let baseSlug := generateSlug (title doc) in
  let id := EventModel._id doc in
  exists n doc' out,
    n <= List.length (events db)
    /\ slugTaken db (candidate baseSlug n) id = false
    /\ (forall j, j < n -> slugTaken db (candidate baseSlug j) id = true)
    /\ preSave parseDate fuel (db, doc)
       = ((withJournal db (probes baseSlug id 0 n), doc'), out)
    /\ slug doc' = candidate baseSlug n
    /\ EventModel._id doc' = id
    /\ out <> OutOfFuel.
Proof.
  intros Hfuel Hre baseSlug id.
  destruct (probe_total fuel baseSlug db doc Hfuel)
    as (n & Hn & Hfree & Htaken & Hprobe).
  rewrite preSave_split. unfold bind at 1. unfold slugStep.
  unfold bind at 1. unfold this at 1. cbn [fst snd]. rewrite Hre.
  fold baseSlug. unfold bind at 1. rewrite Hprobe.
  unfold assign at 1. cbn [fst snd].
  match goal with
  | |- context [afterSlug ?x] =>
      destruct (afterSlug_frame x) as (Fdb & Fslug & Fid & Fout);
      destruct (afterSlug x) as [[db' doc'] out]
  end.
  cbn [fst snd] in *. subst db'.
  exists n, doc', out. repeat split; assumption.
Qed.

(** The hook on an update that touches none of title, date and time. *)
Lemma preSave_untouched (fuel : nat) (db : Database) (doc : IEvent) :
  isNew doc = false ->
  isModified "title" doc = false ->
  isModified "date" doc = false ->
  isModified "time" doc = false ->
  fst (preSave parseDate fuel (db, doc)) = (db, doc)
  /\ snd (preSave parseDate fuel (db, doc)) <> OutOfFuel.
Proof.
  intros Hnew Ht Hd Htm.
  unfold preSave, bind, this. cbn [fst snd].
  rewrite Hnew, Ht. cbn [orb ret fst snd].
  rewrite Hnew, Hd. cbn [orb ret fst snd].
  rewrite Hnew, Htm. cbn [orb ret fst snd].
  apply checkRequired_state.
Qed.

Lemma slugTaken_iff (db : Database) (c : string) (id : ObjectId) :
  slugTaken db c id = true
  <-> exists e, In e (events db) /\ slug e = c /\ EventModel._id e <> id.
Proof.
  unfold slugTaken. rewrite existsb_exists. split.
  - intros (e & He & H). apply andb_true_iff in H as [H1 H2].
    apply String.eqb_eq in H1. apply negb_true_iff, String.eqb_neq in H2.
    eauto.
  - intros (e & He & H1 & H2). exists e. split; [assumption|].
    apply andb_true_iff. split; [now apply String.eqb_eq|].
    now apply negb_true_iff, String.eqb_neq.
Qed.

(** A successful save of a document whose slug is regenerated. *)
Lemma save_regenerates (fuel : nat) (db db' : Database)
      (doc saved : IEvent) :
  List.length (events db) < fuel ->
  isNew doc || isModified "title" doc = true ->
  save parseDate fuel db doc = (db', Ret saved) ->
  let baseSlug := generateSlug (title doc) in
  let id := EventModel._id doc in
  exists n,
    slugTaken db (candidate baseSlug n) id = false
    /\ (forall j, j < n -> slugTaken db (candidate baseSlug j) id = true)
    /\ slug saved = candidate baseSlug n
    /\ EventModel._id saved = id
    /\ (forall e, In e (events db')
                  <-> (In e (events db) /\ EventModel._id e <> id)
                      \/ e = saved)
    /\ List.length (events db') <= S (List.length (events db)).
Proof.
  intros Hfuel Hre Hsave baseSlug id.
  destruct (preSave_regenerates fuel db doc Hfuel Hre)
    as (n & doc' & out & Hn & Hfree & Htaken & Hpre & Hslug & Hid & Hout).
  unfold save in Hsave. rewrite Hpre in Hsave.
  destruct out as [[]|e|]; try discriminate.
  injection Hsave as <- <-.
  exists n. split; [assumption|]. split; [assumption|].
  split; [assumption|]. split; [assumption|]. split.
  - intros e. unfold commit, withJournal. cbn [events].
    rewrite in_app_iff, filter_In, negb_true_iff, String.eqb_neq, Hid.
    cbn [In]. unfold id. intuition (auto; congruence).
  - cbn [commit events]. rewrite length_app. cbn [List.length].
    pose proof (filter_length_le
                  (fun x => negb (EventModel._id x =? EventModel._id doc'))
                  (events (withJournal db (probes baseSlug id 0 n)))) as L.
    cbn [withJournal events] in L. cbn [withJournal events]. lia.
Qed.

(** Three new documents with one title, saved one after the other into a
    store where the base slug and its first two suffixed forms are unused,
    get the base slug, base-1 and base-2. *)
Lemma same_title_suffixes (fuel : nat) (db db1 db2 db3 : Database)
      (d1 d2 d3 s1 s2 s3 : IEvent) :
  let baseSlug := generateSlug (title d1) in
  List.length (events db) + 2 < fuel ->
  isNew d1 = true -> isNew d2 = true -> isNew d3 = true ->
  title d2 = title d1 -> title d3 = title d1 ->
  EventModel._id d1 <> EventModel._id d2 ->
  EventModel._id d1 <> EventModel._id d3 ->
  EventModel._id d2 <> EventModel._id d3 ->
  (forall e k, In e (events db) -> k <= 2 ->
               slug e <> candidate baseSlug k) ->
  save parseDate fuel db d1 = (db1, Ret s1) ->
  save parseDate fuel db1 d2 = (db2, Ret s2) ->
  save parseDate fuel db2 d3 = (db3, Ret s3) ->
  slug s1 = baseSlug
  /\ slug s2 = baseSlug ++ "-1"
  /\ slug s3 = baseSlug ++ "-2".
Proof.
  intros baseSlug Hfuel N1 N2 N3 T2 T3 I12 I13 I23 Hunused S1 S2 S3.
  apply save_regenerates in S1; [|lia|now rewrite N1].
  destruct S1 as (n1 & F1 & K1 & G1 & J1 & E1 & L1). fold baseSlug in F1, K1, G1.
  assert (n1 = 0) as ->.
  { destruct n1 as [|n1]; [reflexivity|]. exfalso.
    specialize (K1 0 ltac:(lia)).
    apply slugTaken_iff in K1 as (e & He & Hs & _).
    exact (Hunused e 0 He ltac:(lia) Hs). }
  cbn [candidate] in G1.
  apply save_regenerates in S2; [|lia|now rewrite N2].
  rewrite T2 in S2.
  destruct S2 as (n2 & F2 & K2 & G2 & J2 & E2 & L2). fold baseSlug in F2, K2, G2.
  assert (In1 : In s1 (events db1)) by (apply E1; now right).
  assert (n2 = 1) as ->.
  { destruct n2 as [|[|n2]]; [exfalso|reflexivity|exfalso].
    - assert (X : slugTaken db1 (candidate baseSlug 0) (EventModel._id d2)
                  = true).
      { apply slugTaken_iff. exists s1. cbn [candidate].
        repeat split; try assumption. now rewrite J1. }
      congruence.
    - specialize (K2 1 ltac:(lia)).
      apply slugTaken_iff in K2 as (e & He & Hs & _).
      apply E1 in He as [[He _]| ->].
      + exact (Hunused e 1 He ltac:(lia) Hs).
      + rewrite G1 in Hs.
        change baseSlug with (candidate baseSlug 0) in Hs at 1.
        apply candidate_inj in Hs. discriminate. }
  apply save_regenerates in S3; [|lia|now rewrite N3].
  rewrite T3 in S3.
  destruct S3 as (n3 & F3 & K3 & G3 & J3 & E3 & L3). fold baseSlug in F3, K3, G3.
  assert (In2 : In s2 (events db2)) by (apply E2; now right).
  assert (In1' : In s1 (events db2)).
  { apply E2. left. split; [assumption|]. now rewrite J1. }
  assert (n3 = 2) as ->.
  { destruct n3 as [|[|[|n3]]]; [exfalso|exfalso|reflexivity|exfalso].
    - assert (X : slugTaken db2 (candidate baseSlug 0) (EventModel._id d3)
                  = true).
      { apply slugTaken_iff. exists s1. cbn [candidate].
        repeat split; try assumption. now rewrite J1. }
      congruence.
    - assert (X : slugTaken db2 (candidate baseSlug 1) (EventModel._id d3)
                  = true).
      { apply slugTaken_iff. exists s2.
        repeat split; try assumption. now rewrite J2. }
      congruence.
    - specialize (K3 2 ltac:(lia)).
      apply slugTaken_iff in K3 as (e & He & Hs & _).
      apply E2 in He as [[He _]| ->].
      + apply E1 in He as [[He _]| ->].
        * exact (Hunused e 2 He ltac:(lia) Hs).
        * rewrite G1 in Hs.
          change baseSlug with (candidate baseSlug 0) in Hs at 1.
          apply candidate_inj in Hs. discriminate.
      + rewrite G2 in Hs. apply candidate_inj in Hs. discriminate. }
  repeat split; assumption.
Qed.

End Hook.

(** Sample documents. *)
Definition sampleEvent (id title_ slug_ : string) (new : bool)
           (modified : list string) : IEvent :=
  {| _id := id; isNew := new; modifiedPaths := modified;
     title := title_; slug := slug_;
     description := "An evening of proofs"; overview := "Talks and demos";
     image := "/images/meetup.png"; venue := "Main hall";
     location := "Paris"; date := "2024-05-20"; time := "14:30";
     mode := "offline"; audience := "Developers";
     agenda := ["Doors open"]; organizer := "The proof club";
     tags := ["rocq"] |}.

Definition noParser (s : string) : option Z := None.

Definition emptyStore : Database :=
  {| events := []; bookings := []; journal := [] |}.

Definition storeWithTwo : Database :=
  {| events := [sampleEvent "65f000000000000000000001" "Rocq Meetup"
                            "rocq-meetup" false [];
                sampleEvent "65f000000000000000000002" "Rocq Meetup"
                            "rocq-meetup-1" false []];
     bookings := []; journal := [] |}.

Definition meetup (id : ObjectId) : IEvent :=
  sampleEvent id "Rocq Meetup" "" true [].

(** C6.  First part: when the slug is regenerated and the base slug is
    another record's, the hook asks the store for base, base-1, ..., base-n
    in this order, one query for each, where base-n is the first of them
    that no other record has, and assigns base-n; it always gets there.
    Second part: three new documents with one title, saved one after the
    other into a store where base, base-1 and base-2 are unused, are stored
    with base, base-1 and base-2. *)
Theorem slug_collision_probed_in_order (parseDate : string -> option Z) :
  (forall (fuel : nat) (db : Database) (doc : IEvent),
      let baseSlug := generateSlug (title doc) in
      let id := EventModel._id doc in
      let after := preSave parseDate fuel (db, doc) in
      List.length (events db) < fuel ->
      isNew doc || isModified "title" doc = true ->
      slugTaken db baseSlug id = true ->
      exists n,
        1 <= n
        /\ slug (snd (fst after)) = baseSlug ++ "-" ++ showNat n
        /\ slugTaken db (baseSlug ++ "-" ++ showNat n) id = false
        /\ (forall j, 1 <= j < n ->
                      slugTaken db (baseSlug ++ "-" ++ showNat j) id = true)
        /\ journal (fst (fst after))
           = (journal db
                ++ EventExistsSlug baseSlug id
                :: map (fun j =>
                          EventExistsSlug (baseSlug ++ "-" ++ showNat j) id)
                       (seq 1 n))%list
        /\ snd after <> OutOfFuel)
  /\ (forall (fuel : nat) (db db1 db2 db3 : Database)
             (d1 d2 d3 s1 s2 s3 : IEvent),
         let baseSlug := generateSlug (title d1) in
         List.length (events db) + 2 < fuel ->
         isNew d1 = true -> isNew d2 = true -> isNew d3 = true ->
         title d2 = title d1 -> title d3 = title d1 ->
         EventModel._id d1 <> EventModel._id d2 ->
         EventModel._id d1 <> EventModel._id d3 ->
         EventModel._id d2 <> EventModel._id d3 ->
         (forall e k, In e (events db) -> k <= 2 ->
                      slug e <> candidate baseSlug k) ->
         save parseDate fuel db d1 = (db1, Ret s1) ->
         save parseDate fuel db1 d2 = (db2, Ret s2) ->
         save parseDate fuel db2 d3 = (db3, Ret s3) ->
         slug s1 = baseSlug
         /\ slug s2 = baseSlug ++ "-1"
         /\ slug s3 = baseSlug ++ "-2").
Proof.
  split.
  - intros fuel db doc baseSlug id after Hfuel Hre Hcoll.
    destruct (preSave_regenerates parseDate fuel db doc Hfuel Hre)
      as (n & doc' & out & Hn & Hfree & Htaken & Hpre & Hslug & Hid & Hout).
    fold baseSlug id in Hfree, Htaken, Hpre, Hslug.
    destruct n as [|n]; [cbn [candidate] in Hfree; congruence|].
    exists (S n). unfold after. rewrite Hpre. cbn [fst snd].
    split; [lia|]. split; [exact Hslug|]. split; [exact Hfree|].
    split; [|split; [|exact Hout]].
    + intros j Hj. specialize (Htaken j ltac:(lia)).
      destruct j as [|j]; [lia | exact Htaken].
    + unfold withJournal, probes. cbn [journal].
      replace (S (S n) - 0) with (S (S n)) by lia.
      change (seq 0 (S (S n))) with (0 :: seq 1 (S n)).
      cbn [map candidate]. f_equal. f_equal.
      apply map_ext_in. intros j Hj. apply in_seq in Hj.
      destruct j as [|j]; [lia | reflexivity].
  - intros fuel db db1 db2 db3 d1 d2 d3 s1 s2 s3.
    apply same_title_suffixes.
Qed.

Lemma slug_collision_probed_in_order_witness :
  (exists n,
      1 <= n
      /\ slug (snd (fst (preSave noParser 3
                           (storeWithTwo,
                            meetup "65f000000000000000000003"))))
         = "rocq-meetup" ++ "-" ++ showNat n)
  /\ exists db1 db2 db3 s1 s2 s3,
      save noParser 3 emptyStore (meetup "65f00000000000000000000a")
      = (db1, Ret s1)
      /\ save noParser 3 db1 (meetup "65f00000000000000000000b")
         = (db2, Ret s2)
      /\ save noParser 3 db2 (meetup "65f00000000000000000000c")
         = (db3, Ret s3)
      /\ slug s1 = "rocq-meetup"
      /\ slug s2 = "rocq-meetup-1"
      /\ slug s3 = "rocq-meetup-2".
Proof.
  split.
  - destruct (proj1 (slug_collision_probed_in_order noParser) 3 storeWithTwo
                (meetup "65f000000000000000000003")
                ltac:(cbn; lia) eq_refl eq_refl) as (n & H1 & H2 & _).
    exists n. split; [exact H1 | exact H2].
  - let r1 := eval vm_compute in
        (save noParser 3 emptyStore (meetup "65f00000000000000000000a")) in
    match r1 with
    | (?db1, Ret ?s1) =>
        let r2 := eval vm_compute in
            (save noParser 3 db1 (meetup "65f00000000000000000000b")) in
        match r2 with
        | (?db2, Ret ?s2) =>
            let r3 := eval vm_compute in
                (save noParser 3 db2 (meetup "65f00000000000000000000c")) in
            match r3 with
            | (?db3, Ret ?s3) => exists db1, db2, db3, s1, s2, s3
            end
        end
    end.
    match goal with
    | |- ?A /\ ?B /\ ?C /\ _ =>
        assert (H1 : A) by (vm_compute; reflexivity);
        assert (H2 : B) by (vm_compute; reflexivity);
        assert (H3 : C) by (vm_compute; reflexivity)
    end.
    split; [exact H1|]. split; [exact H2|]. split; [exact H3|].
    exact (proj2 (slug_collision_probed_in_order noParser) 3 emptyStore
             _ _ _ (meetup "65f00000000000000000000a")
             (meetup "65f00000000000000000000b")
             (meetup "65f00000000000000000000c") _ _ _ ltac:(cbn; lia)
             eq_refl eq_refl eq_refl eq_refl eq_refl ltac:(discriminate)
             ltac:(discriminate) ltac:(discriminate) ltac:(intros e k [])
             H1 H2 H3).
Defined.

(** C8.  On an update ([isNew] false) that modifies none of title, date and
    time, the hook ends and leaves the document as it was, slug, date and
    time included, and sends nothing to the store; if the save goes through,
    the stored document has the slug, date and time it came with. *)
Theorem update_keeps_slug_date_time (parseDate : string -> option Z)
        (fuel : nat) (db : Database) (doc : IEvent) :
  isNew doc = false ->
  isModified "title" doc = false ->
  isModified "date" doc = false ->
  isModified "time" doc = false ->
  let after := preSave parseDate fuel (db, doc) in
  slug (snd (fst after)) = slug doc
  /\ date (snd (fst after)) = date doc
  /\ time (snd (fst after)) = time doc
  /\ fst (fst after) = db
  /\ snd after <> OutOfFuel
  /\ forall db' saved,
       save parseDate fuel db doc = (db', Ret saved) ->
       slug saved = slug doc /\ date saved = date doc
       /\ time saved = time doc.
Proof.
  intros Hnew Ht Hd Htm after.
  destruct (preSave_untouched parseDate fuel db doc Hnew Ht Hd Htm)
    as [E N].
  fold after in E, N. unfold save. fold after.
  destruct after as [[db1 doc1] out]. cbn [fst snd] in *.
  injection E as -> ->.
  split; [reflexivity|]. split; [reflexivity|]. split; [reflexivity|].
  split; [reflexivity|]. split; [exact N|].
  intros db' saved H.
  destruct out as [[]|e|]; try discriminate.
  injection H as <- <-. repeat split; reflexivity.
Qed.

Lemma update_keeps_slug_date_time_witness :
  let doc := sampleEvent "65f000000000000000000001" "Rocq Meetup"
                         "rocq-meetup" false ["description"] in
  let after := preSave noParser 0 (storeWithTwo, doc) in
  slug (snd (fst after)) = "rocq-meetup"
  /\ date (snd (fst after)) = "2024-05-20"
  /\ time (snd (fst after)) = "14:30".
Proof.
  intros doc after.
  destruct (update_keeps_slug_date_time noParser 0 storeWithTwo doc
              eq_refl eq_refl eq_refl eq_refl) as (H1 & H2 & H3 & _).
  repeat split; assumption.
Defined.

End EventHookFacts.


(** ** The booking hook *)

Module BookingHookFacts.
Import Js BookingModel Mongoose BookingHook.

(** What [/^[^\s@]+@[^\s@]+\.[^\s@]+$/] says of a string: a local part, an
    [@], and a domain cut by a dot into two parts, the three parts non-empty
    and free of white space and [@]. *)
Definition emailShape (s : string) : Prop :=
  exists l d t,
    s = l ++ "@" ++ d ++ "." ++ t
    /\ l <> "" /\ d <> "" /\ t <> ""
    /\ all notSpaceAt l = true /\ all notSpaceAt d = true
    /\ all notSpaceAt t = true.

Lemma takeWhile_dropWhile (p : ascii -> bool) (s : string) :
  takeWhile p s ++ dropWhile p s = s.
Proof.
  induction s as [|c s IH]; cbn; [reflexivity|].
  destruct (p c); cbn; [now rewrite IH | reflexivity].
Qed.

Lemma all_takeWhile (p : ascii -> bool) (s : string) :
  all p (takeWhile p s) = true.
Proof.
  induction s as [|c s IH]; cbn; [reflexivity|].
  destruct (p c) eqn:E; cbn; [now rewrite E | reflexivity].
Qed.

Lemma all_app (p : ascii -> bool) (a b : string) :
  all p (a ++ b) = all p a && all p b.
Proof.
  induction a as [|c a IH]; cbn; [reflexivity|].
  now rewrite IH, andb_assoc.
Qed.

Lemma takeWhile_stop (p : ascii -> bool) (a : string) (c : ascii)
      (b : string) :
  all p a = true -> p c = false ->
  takeWhile p (a ++ String c b) = a
  /\ dropWhile p (a ++ String c b) = String c b.
Proof.
  intros Ha Hc. induction a as [|x a IH]; cbn in *.
  - now rewrite Hc.
  - apply andb_true_iff in Ha as [Hx Ha]. rewrite Hx.
    destruct (IH Ha) as [-> ->]. auto.
Qed.

(** [dotBeforeLast s]: [s] is [d ++ "." ++ t] with [t] non-empty. *)
Lemma dotBeforeLast_split (s : string) :
  dotBeforeLast s = true <-> exists d t, s = d ++ "." ++ t /\ t <> "".
Proof.
  induction s as [|c s IH]; cbn.
  - split; [discriminate|]. intros (d & t & E & _).
    destruct d; discriminate.
  - destruct s as [|c' s'].
    + split; [discriminate|]. intros (d & t & E & Ht).
      destruct d as [|x d]; cbn in E.
      * injection E as _ E. congruence.
      * injection E as _ E. destruct d; discriminate.
    + rewrite orb_true_iff, IH. split.
      * intros [H|(d & t & E & Ht)].
        -- apply Ascii.eqb_eq in H. subst c.
           exists "", (String c' s'). split; [reflexivity | discriminate].
        -- exists (String c d), t. cbn. rewrite E. auto.
      * intros (d & t & E & Ht). destruct d as [|x d]; cbn in E.
        -- injection E as -> _. left. reflexivity.
        -- injection E as -> E. right. exists d, t. auto.
Qed.

Lemma notSpaceAt_at : notSpaceAt "@" = false.
Proof. reflexivity. Qed.

Lemma notSpaceAt_dot : notSpaceAt "." = true.
Proof. reflexivity. Qed.

(** The test is the pattern. *)
Lemma EMAIL_REGEX_test_spec (s : string) :
  EMAIL_REGEX_test s = true <-> emailShape s.
Proof.
  unfold EMAIL_REGEX_test, emailShape. split.
  - pose proof (takeWhile_dropWhile notSpaceAt s) as E.
    pose proof (all_takeWhile notSpaceAt s) as A.
    destruct (takeWhile notSpaceAt s) as [|l0 l] eqn:El; [discriminate|].
    destruct (dropWhile notSpaceAt s) as [|a dom]; [discriminate|].
    rewrite !andb_true_iff. intros [[Ha Hall] Hdot].
    apply Ascii.eqb_eq in Ha. subst a.
    destruct dom as [|x rest]; [discriminate|].
    apply dotBeforeLast_split in Hdot as (d & t & Er & Ht). subst rest.
    exists (String l0 l), (String x d), t.
    change (String x (d ++ "." ++ t)) with (String x d ++ "." ++ t) in Hall.
    rewrite all_app in Hall. apply andb_true_iff in Hall as [Hd Ht'].
    cbn [append all] in Ht'. rewrite notSpaceAt_dot in Ht'.
    repeat split; try assumption; try discriminate.
    rewrite <- E. reflexivity.
  - intros (l & d & t & -> & Hl & Hd & Ht & Al & Ad & At).
    change (l ++ "@" ++ d ++ "." ++ t)
      with (l ++ String "@" (d ++ "." ++ t)).
    destruct (takeWhile_stop notSpaceAt l "@" (d ++ "." ++ t) Al
                notSpaceAt_at) as [-> ->].
    destruct l as [|l0 l]; [congruence|].
    rewrite Ascii.eqb_refl, all_app, Ad. cbn [append all andb].
    rewrite notSpaceAt_dot, At. cbn [andb].
    destruct d as [|x d]; [congruence|]. cbn [append].
    apply dotBeforeLast_split. exists d, t. auto.
Qed.

(** A booking whose email fails the pattern: the hook throws before it
    sends anything to the store. *)
Lemma preSave_bad_email (db : Database) (b : IBooking) :
  EMAIL_REGEX_test (email b) = false ->
  preSave (db, b) = ((db, b), Raise ("Invalid email format: " ++ email b)).
Proof.
  intros H. unfold preSave, bind, this. cbn [fst snd]. now rewrite H.
Qed.

(** A booking with a good email for an event that is not there: one lookup,
    then the error. *)
Lemma preSave_missing_event (db : Database) (b : IBooking) :
  EMAIL_REGEX_test (email b) = true ->
  idPresent db (eventId b) = false ->
  preSave (db, b)
  = ((record (EventExistsId (eventId b)) db, b),
     Raise ("Event with ID " ++ eventId b ++ " does not exist")).
Proof.
  intros He Hid. unfold preSave, bind, this, existsEvent. cbn [fst snd].
  rewrite He. cbn [negb ret fst snd]. now rewrite Hid.
Qed.

(** A booking with a good email for an event that is there goes through. *)
Lemma preSave_accepts (db : Database) (b : IBooking) :
  EMAIL_REGEX_test (email b) = true ->
  idPresent db (eventId b) = true ->
  preSave (db, b) = ((record (EventExistsId (eventId b)) db, b), Ret tt).
Proof.
  intros He Hid. unfold preSave, bind, this, existsEvent. cbn [fst snd].
  rewrite He. cbn [negb ret fst snd]. now rewrite Hid.
Qed.

Definition sampleBooking (event_ email_ : string) : IBooking :=
  {| _id := "65f0000000000000000000b1"; eventId := event_;
     email := email_ |}.

End BookingHookFacts.

(** ** Validation *)

Module ValidationFacts.
Import Validation.

Lemma existsb_In (p : string) (paths : list string) :
  existsb (String.eqb p) paths = true <-> In p paths.
Proof.
  rewrite existsb_exists. split.
  - intros (x & Hx & E). apply String.eqb_eq in E. now subst.
  - intros H. exists p. split; [exact H | apply String.eqb_refl].
Qed.

(** The errors of a validation: one for each validated path of the schema
    that has a validator refusing its value. *)
Lemma In_validate {Doc : Type} (schema_ : list (SchemaPath Doc))
      (paths : list string) (doc : Doc) (e : ValidatorError) :
  In e (validate schema_ paths doc)
  <-> exists entry m,
        In entry schema_
        /\ existsb (String.eqb (fst (fst entry))) paths = true
        /\ firstFailure (snd entry) (snd (fst entry) doc) = Some m
        /\ e = {| path := fst (fst entry); message := m;
                  value := snd (fst entry) doc |}.
Proof.
  unfold validate. rewrite in_flat_map. split.
  - intros ([[p get] vs] & Hin & He). unfold validatePath in He.
    destruct (existsb (String.eqb p) paths) eqn:Hp; [|destruct He].
    destruct (firstFailure vs (get doc)) as [m|] eqn:F; [|destruct He].
    destruct He as [<-|[]]. exists (p, get, vs), m. auto.
  - intros ([[p get] vs] & m & Hin & Hp & F & ->). cbn [fst snd] in *.
    exists (p, get, vs). split; [exact Hin|]. unfold validatePath.
    rewrite Hp, F. now left.
Qed.

End ValidationFacts.

(** ** Saving a booking *)

Module BookingSchemaFacts.
Import Js BookingModel Mongoose Validation BookingSchema BookingHookFacts.
Import ValidationFacts.

(** What the validation of [email] reports for a value the pattern
    refuses. *)
Definition emailError (v : string) : ValidatorError :=
  {| path := "email";
     message := if v =? "" then "Email is required"
                else "Invalid email format";
     value := StringValue v |}.

Lemma validate_email (paths : list string) (b : IBooking) :
  validate schema paths b
  = if existsb (String.eqb "email") paths
    then if EMAIL_REGEX_test (email b) then [] else [emailError (email b)]
    else [].
Proof.
  unfold validate, schema, validatePath. cbn [flat_map].
  assert (E : (if existsb (String.eqb "eventId") paths
               then match firstFailure [required "Event ID is required"]
                                       (IdValue (eventId b)) with
                    | Some m => [{| path := "eventId"; message := m;
                                    value := IdValue (eventId b) |}]
                    | None => []
                    end
               else []) = []).
  { destruct (existsb _ paths); reflexivity. }
  rewrite E, app_nil_r. cbn [app].
  destruct (existsb (String.eqb "email") paths); [|reflexivity].
  cbn [firstFailure]. unfold required, validator, emailMatches, emailError.
  destruct (email b =? "") eqn:Z.
  - apply String.eqb_eq in Z. rewrite Z. reflexivity.
  - destruct (EMAIL_REGEX_test (email b)); reflexivity.
Qed.

(** A booking whose email the pattern refuses: the save is rejected and the
    store is as it was. *)
Lemma save_bad_email (paths : list string) (db : Database) (b : IBooking) :
  EMAIL_REGEX_test (email b) = false ->
  save paths db b
  = (db, Rejected (if existsb (String.eqb "email") paths
                   then ValidationError [emailError (email b)]
                   else HookError ("Invalid email format: " ++ email b))).
Proof.
  intros H. unfold save, validated. rewrite validate_email, H.
  destruct (existsb (String.eqb "email") paths); [reflexivity|].
  unfold BookingHook.save. now rewrite preSave_bad_email.
Qed.

(** A booking whose email the pattern accepts passes the validation. *)
Lemma save_good_email (paths : list string) (db : Database) (b : IBooking) :
  EMAIL_REGEX_test (email b) = true ->
  save paths db b
  = match BookingHook.save db b with
    | (db', Ret saved) => (db', Saved saved)
    | (db', Raise e) => (db', Rejected (HookError e))
    | (db', OutOfFuel) => (db', Unfinished)
    end.
Proof.
  intros H. unfold save, validated. rewrite validate_email, H.
  destruct (existsb (String.eqb "email") paths); reflexivity.
Qed.

(** C7.  A booking whose email fails the pattern is rejected and the store
    comes back as it was: no lookup, no write, no booking.  The error is
    the schema's validation error on the path [email], which carries the
    email, when the path is validated (as it is for a new booking and for
    one whose email was modified); otherwise it is the hook's error, which
    quotes the email.  A booking with a good email whose [eventId] is no
    event's is rejected by the hook with the error that names the
    identifier, after the one lookup; events and bookings are as before and
    nothing was written.  "not-an-email" fails the pattern. *)
Theorem booking_save_rejected (paths : list string) (db : Database)
        (b : IBooking) :
  (EMAIL_REGEX_test (email b) = false ->
   exists e,
     save paths db b = (db, Rejected e)
     /\ (In "email" paths ->
         e = ValidationError
               [{| path := "email";
                   message := if email b =? "" then "Email is required"
                              else "Invalid email format";
                   value := StringValue (email b) |}])
     /\ (~ In "email" paths ->
         e = HookError ("Invalid email format: " ++ email b)))
  /\ (EMAIL_REGEX_test (email b) = true ->
      idPresent db (eventId b) = false ->
      exists db',
        save paths db b
        = (db', Rejected (HookError ("Event with ID " ++ eventId b
                                     ++ " does not exist")))
        /\ bookings db' = bookings db
        /\ events db' = events db
        /\ journal db' = (journal db ++ [EventExistsId (eventId b)])%list)
  /\ EMAIL_REGEX_test "not-an-email" = false.
Proof.
  split; [|split].
  - intros H. rewrite save_bad_email by assumption.
    eexists. split; [reflexivity|]. split.
    + intros I. apply existsb_In in I. now rewrite I.
    + intros N. destruct (existsb (String.eqb "email") paths) eqn:E;
        [|reflexivity].
      apply existsb_In in E. contradiction.
  - intros He Hid. rewrite save_good_email by assumption.
    unfold BookingHook.save. rewrite preSave_missing_event by assumption.
    eexists. split; [reflexivity|]. repeat split.
  - reflexivity.
Qed.

Lemma booking_save_rejected_witness :
  (exists e,
      create EventHookFacts.storeWithTwo "65f0000000000000000000b1"
             "65f000000000000000000001" "not-an-email"
      = (EventHookFacts.storeWithTwo, Rejected e)
      /\ e = ValidationError
               [{| path := "email"; message := "Invalid email format";
                   value := StringValue "not-an-email" |}]
      /\ errorMessage "Booking" e
         = "Booking validation failed: email: Invalid email format")
  /\ save [] EventHookFacts.storeWithTwo
          (sampleBooking "65f000000000000000000001" "not-an-email")
     = (EventHookFacts.storeWithTwo,
        Rejected (HookError "Invalid email format: not-an-email"))
  /\ exists db',
      create EventHookFacts.storeWithTwo "65f0000000000000000000b1"
             "65f000000000000000000009" "ada@example.org"
      = (db', Rejected (HookError
                          "Event with ID 65f000000000000000000009 does not exist"))
      /\ bookings db' = [].
Proof.
  split; [|split].
  - destruct (proj1 (booking_save_rejected allPaths
                       EventHookFacts.storeWithTwo
                       (newBooking "65f0000000000000000000b1"
                                   "65f000000000000000000001"
                                   "not-an-email")) eq_refl)
      as (e & H & V & _).
    exists e. split; [exact H|].
    rewrite (V ltac:(cbn; auto)). split; reflexivity.
  - destruct (proj1 (booking_save_rejected []
                       EventHookFacts.storeWithTwo
                       (sampleBooking "65f000000000000000000001"
                                      "not-an-email")) eq_refl)
      as (e & H & _ & K).
    rewrite (K ltac:(cbn; tauto)) in H. exact H.
  - destruct (proj1 (proj2 (booking_save_rejected allPaths
                              EventHookFacts.storeWithTwo
                              (newBooking "65f0000000000000000000b1"
                                          "65f000000000000000000009"
                                          "ada@example.org")))
                eq_refl eq_refl) as (db' & H1 & H2 & _).
    exists db'. split; [exact H1 | exact H2].
Defined.

End BookingSchemaFacts.

(** ** More on slugs *)

Module SlugMore.
Import Js EventModel SlugFacts.

Ltac by_char c :=
  destruct c as [[] [] [] [] [] [] [] []]; vm_compute;
  intros; solve [reflexivity | congruence].

Definition all_app := BookingHookFacts.all_app.

Lemma toLowerCase_app (a b : string) :
  toLowerCase (a ++ b) = toLowerCase a ++ toLowerCase b.
Proof. induction a as [|c a IH]; cbn; [reflexivity | now rewrite IH]. Qed.

Lemma lower_char_space (c : ascii) : is_space c = true -> lower_char c = c.
Proof. by_char c. Qed.

Lemma toLowerCase_space (s : string) :
  all is_space s = true -> toLowerCase s = s.
Proof.
  induction s as [|c s IH]; cbn; [reflexivity|].
  rewrite andb_true_iff. intros [Hc Hs].
  now rewrite lower_char_space, IH.
Qed.

Lemma dropWhile_all (p : ascii -> bool) (a b : string) :
  all p a = true -> dropWhile p (a ++ b) = dropWhile p b.
Proof.
  induction a as [|c a IH]; cbn; [reflexivity|].
  rewrite andb_true_iff. intros [Hc Ha]. rewrite Hc. auto.
Qed.

Lemma dropWhile_only (p : ascii -> bool) (a : string) :
  all p a = true -> dropWhile p a = "".
Proof.
  induction a as [|c a IH]; cbn; [reflexivity|].
  rewrite andb_true_iff. intros [Hc Ha]. rewrite Hc. auto.
Qed.

Lemma dropWhileEnd_all (p : ascii -> bool) (a b : string) :
  all p b = true -> dropWhileEnd p (a ++ b) = dropWhileEnd p a.
Proof.
  intros Hb. induction a as [|c a IH]; cbn.
  - destruct b as [|x b]; cbn in *; [reflexivity | now rewrite Hb].
  - now rewrite all_app, Hb, andb_true_r, IH.
Qed.

(** White space around a string is lost in [trim]. *)
Lemma trim_outer (a s b : string) :
  all is_space a = true -> all is_space b = true ->
  trim (a ++ s ++ b) = trim s.
Proof.
  intros Ha Hb. unfold trim. rewrite dropWhile_all by assumption.
  induction s as [|c s IH]; cbn.
  - now rewrite dropWhile_only.
  - destruct (is_space c) eqn:Hc; [exact IH|].
    change (String c (s ++ b)) with (String c s ++ b).
    now apply dropWhileEnd_all.
Qed.

Lemma dropWhile_none (p : ascii -> bool) (s : string) :
  all (fun c => negb (p c)) s = true -> dropWhile p s = s.
Proof.
  destruct s as [|c s]; cbn; [reflexivity|].
  rewrite andb_true_iff. intros [Hc _].
  apply negb_true_iff in Hc. now rewrite Hc.
Qed.

Lemma dropWhileEnd_none (p : ascii -> bool) (s : string) :
  all (fun c => negb (p c)) s = true -> dropWhileEnd p s = s.
Proof.
  induction s as [|c s IH]; cbn; [reflexivity|].
  rewrite andb_true_iff. intros [Hc Hs].
  apply negb_true_iff in Hc. rewrite Hc. cbn. now rewrite IH.
Qed.

Lemma keep_all (p : ascii -> bool) (s : string) :
  all p s = true -> keep p s = s.
Proof.
  induction s as [|c s IH]; cbn; [reflexivity|].
  rewrite andb_true_iff. intros [Hc Hs]. now rewrite Hc, IH.
Qed.

Lemma replaceRuns_none (p : ascii -> bool) (r : ascii) (b : bool)
      (s : string) :
  all (fun c => negb (p c)) s = true -> replaceRuns p r b s = s.
Proof.
  revert b. induction s as [|c s IH]; intros b; cbn; [reflexivity|].
  rewrite andb_true_iff. intros [Hc Hs].
  apply negb_true_iff in Hc. now rewrite Hc, IH.
Qed.

Lemma hyphen_literal (c : ascii) : is_hyphen c = true -> c = "-"%char.
Proof. by_char c. Qed.

Lemma replaceRuns_hyphen_fixed (b : bool) (s : string) :
  noHyphenPair b s = true -> replaceRuns is_hyphen "-" b s = s.
Proof.
  revert b. induction s as [|c s IH]; intros b; cbn; [reflexivity|].
  rewrite andb_true_iff. intros [Hb Hs].
  destruct (is_hyphen c) eqn:Hc.
  - destruct b; [discriminate|].
    rewrite (hyphen_literal c Hc) at 1. now rewrite IH.
  - now rewrite IH.
Qed.

Lemma slugChar_classes (c : ascii) :
  slugCharOrUnderscore c = true ->
  negb (is_space c) = true
  /\ (is_word c || is_space c || is_hyphen c) = true.
Proof. split; revert H; by_char c. Qed.

(** A string that has the form of a slug is its own slug. *)
Lemma generateSlug_fixed (s : string) :
  all slugCharOrUnderscore s = true -> noHyphenPair false s = true ->
  generateSlug s = s.
Proof.
  intros Hc Hh. unfold generateSlug.
  assert (Hns : all (fun c => negb (is_space c)) s = true).
  { eapply all_impl; [|exact Hc]. intros c H. now apply slugChar_classes. }
  assert (Hk : all (fun c => is_word c || is_space c || is_hyphen c) s
               = true).
  { eapply all_impl; [|exact Hc]. intros c H. now apply slugChar_classes. }
  rewrite toLowerCase_fixed by assumption.
  unfold trim.
  rewrite (dropWhile_none is_space s Hns), (dropWhileEnd_none is_space s Hns).
  rewrite (keep_all _ s Hk).
  rewrite (replaceRuns_none is_space "-" false s Hns).
  now apply replaceRuns_hyphen_fixed.
Qed.

(** X1.  [generateSlug] is idempotent: the slug of a slug is that slug. *)
Theorem generateSlug_idempotent (title : string) :
  generateSlug (generateSlug title) = generateSlug title.
Proof.
  apply generateSlug_fixed.
  - apply generateSlug_charset.
  - apply replaceRuns_noHyphenPair.
Qed.

(** X2.  White space before and after the title does not change its
    slug. *)
Theorem generateSlug_outer_space (a title b : string) :
  all is_space a = true -> all is_space b = true ->
  generateSlug (a ++ title ++ b) = generateSlug title.
Proof.
  intros Ha Hb. unfold generateSlug.
  rewrite !toLowerCase_app, (toLowerCase_space a Ha),
    (toLowerCase_space b Hb).
  now rewrite trim_outer.
Qed.

Lemma generateSlug_outer_space_witness :
  generateSlug ("  " ++ "Rocq Meetup" ++ " ") = generateSlug "Rocq Meetup".
Proof.
  exact (generateSlug_outer_space "  " "Rocq Meetup" " " eq_refl eq_refl).
Defined.

(** A word of the slug alphabet without the hyphen: [[a-z0-9_]+]. *)
Definition slugWordChar (c : ascii) : bool :=
  is_lower c || is_digit c || (code c =? 95)%nat.

Definition slugWord (w : string) : Prop :=
  w <> "" /\ all slugWordChar w = true.

Definition startsWithWordChar (s : string) : Prop :=
  exists c s', s = String c s' /\ slugWordChar c = true.

Lemma slugWordChar_classes (c : ascii) :
  slugWordChar c = true ->
  is_space c = false /\ is_hyphen c = false
  /\ (is_word c || is_space c || is_hyphen c) = true
  /\ lower_char c = c.
Proof. repeat split; revert H; by_char c. Qed.

Lemma lower_word_char (c : ascii) :
  is_word c = true -> slugWordChar (lower_char c) = true.
Proof. by_char c. Qed.

Lemma keep_app (p : ascii -> bool) (a b : string) :
  keep p (a ++ b) = keep p a ++ keep p b.
Proof.
  induction a as [|c a IH]; cbn; [reflexivity|].
  destruct (p c); cbn; now rewrite IH.
Qed.

Lemma replaceRuns_skip (p : ascii -> bool) (r : ascii) (w y : string) :
  all (fun c => negb (p c)) w = true ->
  replaceRuns p r false (w ++ y) = w ++ replaceRuns p r false y.
Proof.
  induction w as [|c w IH]; cbn; [reflexivity|].
  rewrite andb_true_iff. intros [Hc Hw].
  apply negb_true_iff in Hc. now rewrite Hc, IH.
Qed.

Lemma replaceRuns_after_run (p : ascii -> bool) (r c : ascii) (y : string) :
  p c = false ->
  replaceRuns p r true (String c y) = replaceRuns p r false (String c y).
Proof. intros H. cbn. now rewrite H. Qed.

Definition slugPasses (s : string) : string :=
  replaceRuns is_hyphen "-" false
    (replaceRuns is_space "-" false
       (keep (fun c => is_word c || is_space c || is_hyphen c) s)).

Lemma all_slugWord_nonspace (w : string) :
  all slugWordChar w = true ->
  all (fun c => negb (is_space c)) w = true
  /\ all (fun c => negb (is_hyphen c)) w = true
  /\ all (fun c => is_word c || is_space c || is_hyphen c) w = true.
Proof.
  intros H. split; [|split]; (eapply all_impl; [|exact H]); intros c Hc;
    destruct (slugWordChar_classes c Hc) as (H1 & H2 & H3 & _).
  - now rewrite H1.
  - now rewrite H2.
  - exact H3.
Qed.

Lemma slugPasses_word (w : string) :
  all slugWordChar w = true -> slugPasses w = w.
Proof.
  intros H. destruct (all_slugWord_nonspace w H) as (H1 & H2 & H3).
  unfold slugPasses. rewrite (keep_all _ w H3).
  rewrite (replaceRuns_none is_space "-" false w H1).
  apply (replaceRuns_none is_hyphen "-" false w H2).
Qed.

Lemma slugPasses_starts (x : string) :
  startsWithWordChar x -> startsWithWordChar (slugPasses x).
Proof.
  intros (c & x' & -> & Hc).
  destruct (slugWordChar_classes c Hc) as (H1 & H2 & H3 & _).
  unfold slugPasses. cbn. rewrite H3. cbn. rewrite H1. cbn. rewrite H2.
  eexists _, _. split; [reflexivity | exact Hc].
Qed.

Lemma replaceRuns_hit (p : ascii -> bool) (r c : ascii) (y : string) :
  p c = true ->
  replaceRuns p r false (String c y) = String r (replaceRuns p r true y).
Proof. intros H. cbn. now rewrite H. Qed.

(** One word, a blank, and the rest of the title. *)
Lemma slugPasses_step (w x : string) :
  all slugWordChar w = true -> startsWithWordChar x ->
  slugPasses (w ++ String " " x) = w ++ String "-" (slugPasses x).
Proof.
  intros Hw Hx. destruct (all_slugWord_nonspace w Hw) as (H1 & H2 & H3).
  destruct Hx as (c & x' & -> & Hc).
  destruct (slugWordChar_classes c Hc) as (C1 & C2 & C3 & _).
  unfold slugPasses.
  set (K := fun c => is_word c || is_space c || is_hyphen c) in *.
  assert (EK : keep K (String c x') = String c (keep K x')).
  { cbn [keep]. replace (K c) with true by (symmetry; exact C3).
    reflexivity. }
  assert (ES : replaceRuns is_space "-" false (String c (keep K x'))
               = String c (replaceRuns is_space "-" false (keep K x'))).
  { cbn. now rewrite C1. }
  rewrite keep_app, (keep_all K w H3).
  change (keep K (String " " (String c x')))
    with (String " "%char (keep K (String c x'))).
  rewrite EK.
  rewrite (replaceRuns_skip is_space "-" w _ H1).
  rewrite (replaceRuns_hit is_space "-" " " _ eq_refl).
  rewrite (replaceRuns_after_run is_space "-" c _ C1), ES.
  rewrite (replaceRuns_skip is_hyphen "-" w _ H2).
  rewrite (replaceRuns_hit is_hyphen "-" "-" _ eq_refl).
  rewrite (replaceRuns_after_run is_hyphen "-" c _ C2).
  reflexivity.
Qed.

Lemma concat_cons2 (sep w w' : string) (ws : list string) :
  String.concat sep (w :: w' :: ws)
  = w ++ sep ++ String.concat sep (w' :: ws).
Proof. reflexivity. Qed.

Lemma concat_starts (w : string) (ws : list string) :
  slugWord w -> startsWithWordChar (String.concat " " (w :: ws)).
Proof.
  intros [Hne Hall]. destruct w as [|c w]; [congruence|].
  cbn in Hall. apply andb_true_iff in Hall as [Hc _].
  destruct ws as [|w' ws]; cbn; eexists _, _; split; try reflexivity;
    assumption.
Qed.

Lemma slugPasses_words (ws : list string) :
  ws <> [] -> Forall slugWord ws ->
  slugPasses (String.concat " " ws) = String.concat "-" ws.
Proof.
  induction ws as [|w ws IH]; [congruence|]. intros _ H.
  inversion H as [|? ? [Hne Hw] Hws]; subst.
  destruct ws as [|w' ws'].
  - cbn. now apply slugPasses_word.
  - rewrite !concat_cons2. cbn [append].
    rewrite slugPasses_step; [|assumption|].
    + rewrite IH; [reflexivity | discriminate | assumption].
    + inversion Hws; subst. now apply concat_starts.
Qed.

Lemma dropWhileEnd_keep (p : ascii -> bool) (a b : string) :
  all p b = false -> dropWhileEnd p (a ++ b) = a ++ dropWhileEnd p b.
Proof.
  intros Hb. induction a as [|c a IH]; cbn; [reflexivity|].
  now rewrite all_app, Hb, !andb_false_r, IH.
Qed.

Lemma starts_not_all_space (x : string) :
  startsWithWordChar x -> all is_space x = false /\ dropWhile is_space x = x.
Proof.
  intros (c & x' & -> & Hc).
  destruct (slugWordChar_classes c Hc) as (H1 & _). cbn. now rewrite H1.
Qed.

Lemma trim_words (ws : list string) :
  ws <> [] -> Forall slugWord ws ->
  trim (String.concat " " ws) = String.concat " " ws.
Proof.
  intros Hne H. unfold trim.
  assert (S : startsWithWordChar (String.concat " " ws)).
  { destruct ws as [|w ws]; [congruence|]. inversion H; subst.
    now apply concat_starts. }
  rewrite (proj2 (starts_not_all_space _ S)). clear S.
  induction ws as [|w ws IH]; [congruence|].
  inversion H as [|? ? [Hn Hw] Hws]; subst.
  destruct ws as [|w' ws'].
  - cbn. apply dropWhileEnd_none.
    now destruct (all_slugWord_nonspace w Hw) as (H1 & _).
  - rewrite concat_cons2.
    assert (S : startsWithWordChar (String.concat " " (w' :: ws'))).
    { inversion Hws; subst. now apply concat_starts. }
    change (w ++ " " ++ String.concat " " (w' :: ws'))
      with (w ++ String " " (String.concat " " (w' :: ws'))).
    replace (w ++ String " " (String.concat " " (w' :: ws')))
      with ((w ++ " ") ++ String.concat " " (w' :: ws')).
    2:{ clear. induction w as [|c w IHw]; [reflexivity|].
        cbn [append]. f_equal. exact IHw. }
    rewrite dropWhileEnd_keep by apply (starts_not_all_space _ S).
    rewrite IH; [reflexivity | discriminate | assumption].
Qed.

Lemma toLowerCase_concat (ws : list string) :
  toLowerCase (String.concat " " ws)
  = String.concat " " (map toLowerCase ws).
Proof.
  induction ws as [|w [|w' ws] IH]; try reflexivity.
  rewrite concat_cons2, !toLowerCase_app, IH. reflexivity.
Qed.

Lemma toLowerCase_word (w : string) :
  w <> "" /\ all is_word w = true -> slugWord (toLowerCase w).
Proof.
  intros [Hne Hw]. split.
  - destruct w; [congruence | discriminate].
  - clear Hne. induction w as [|c w IH]; cbn in *; [reflexivity|].
    apply andb_true_iff in Hw as [Hc Hw].
    now rewrite lower_word_char, IH.
Qed.

(** X3.  A title of words of letters, digits and underscores, separated by
    single spaces, becomes the words in lower case joined by hyphens. *)
Theorem generateSlug_words (ws : list string) :
  ws <> [] ->
  Forall (fun w => w <> "" /\ all is_word w = true) ws ->
  generateSlug (String.concat " " ws)
  = String.concat "-" (map toLowerCase ws).
Proof.
  intros Hne H.
  assert (H' : Forall slugWord (map toLowerCase ws)).
  { apply Forall_map. eapply Forall_impl; [|exact H].
    intros w. apply toLowerCase_word. }
  assert (Hne' : map toLowerCase ws <> []) by (destruct ws; [congruence|discriminate]).
  change (generateSlug (String.concat " " ws))
    with (slugPasses (trim (toLowerCase (String.concat " " ws)))).
  rewrite toLowerCase_concat, trim_words by assumption.
  now apply slugPasses_words.
Qed.

Lemma generateSlug_words_witness :
  generateSlug "React Summit 2024" = "react-summit-2024".
Proof.
  exact (generateSlug_words ["React"; "Summit"; "2024"]
           ltac:(discriminate)
           ltac:(repeat constructor; discriminate)).
Defined.

(** A character that the first replacement deletes. *)
Definition special (c : ascii) : bool :=
  negb (is_word c || is_space c || is_hyphen c).

Lemma keep_none (p : ascii -> bool) (s : string) :
  all (fun c => negb (p c)) s = true -> keep p s = "".
Proof.
  induction s as [|c s IH]; cbn; [reflexivity|].
  rewrite andb_true_iff. intros [Hc Hs].
  apply negb_true_iff in Hc. now rewrite Hc, IH.
Qed.

(** X15.  A title whose lower-cased form has only characters outside
    [[\w\s-]], or that is made only of white space, has the empty slug. *)
Theorem generateSlug_empty (title : string) :
  all special (toLowerCase title) = true \/ all is_space title = true ->
  generateSlug title = "".
Proof.
  intros [H|H]; unfold generateSlug.
  - apply (all_trim special) in H.
    rewrite (keep_none _ _ H). reflexivity.
  - rewrite (toLowerCase_space title H). unfold trim.
    rewrite (dropWhile_only is_space title H). reflexivity.
Qed.

Lemma generateSlug_empty_witness : generateSlug "***" = "".
Proof.
  exact (generateSlug_empty "***" (or_introl eq_refl)).
Defined.
End SlugMore.

(** ** More on times *)

Module TimeMore.
Import Js EventModel TimeFacts.

Ltac by_char c :=
  destruct c as [[] [] [] [] [] [] [] []]; vm_compute;
  intros; solve [reflexivity | congruence].

Definition digitChars : list ascii :=
  ["0"; "1"; "2"; "3"; "4"; "5"; "6"; "7"; "8"; "9"]%char.

Lemma digit_in_digitChars (c : ascii) :
  is_digit c = true -> In c digitChars.
Proof.
  intros H.
  assert (E : existsb (Ascii.eqb c) digitChars = true)
    by (revert H; by_char c).
  apply existsb_exists in E as (x & Hx & E).
  apply Ascii.eqb_eq in E. now subst.
Qed.

Lemma digitVal_le (c : ascii) :
  is_digit c = true -> (digitVal c <=? 9)%nat = true.
Proof. by_char c. Qed.

(** What the common prefix of the two patterns captures: one or two digits
    for the hour, two digits for the minutes. *)
Lemma matchHourMinute_inv (s h m rest : string) :
  matchHourMinute s = Some (h, m, rest) ->
  digitsVal h <= 99
  /\ exists m1 m2, m = String m1 (String m2 "")
                   /\ is_digit m1 = true /\ is_digit m2 = true.
Proof.
  unfold matchHourMinute.
  destruct s as [|h1 [|x [|y [|z rest0]]]]; try discriminate.
  destruct (is_digit h1 && (x =? ":")%char && is_digit y && is_digit z)
    eqn:E1.
  - intros H. injection H as <- <- <-.
    rewrite !andb_true_iff in E1. destruct E1 as [[[Hh _] Hy] Hz].
    apply digitVal_le, Nat.leb_le in Hh. split; [cbn; lia|].
    exists y, z. auto.
  - destruct rest0 as [|w rest']; [discriminate|].
    destruct (is_digit h1 && is_digit x && (y =? ":")%char && is_digit z
              && is_digit w) eqn:E2; [|discriminate].
    intros H. injection H as <- <- <-.
    rewrite !andb_true_iff in E2. destruct E2 as [[[[Hh Hx] _] Hz] Hw].
    apply digitVal_le, Nat.leb_le in Hh, Hx. split; [cbn; lia|].
    exists z, w. auto.
Qed.

Definition renormalised (h : nat) (m1 m2 : ascii) : bool :=
  let r := pad2 h ++ ":" ++ String m1 (String m2 "") in
  match normalizeTime r with
  | Ok r' => (h <=? 23)%nat && (r' =? r)
  | Throw e => negb (h <=? 23)%nat && (e =? "Invalid time format: " ++ r)
  end.

Lemma renormalised_all :
  forallb (fun h =>
             forallb (fun m1 => forallb (renormalised h m1) digitChars)
                     digitChars)
          (seq 0 112) = true.
Proof. vm_compute. reflexivity. Qed.

Lemma renormalised_spec (h : nat) (m1 m2 : ascii) :
  h <= 111 -> is_digit m1 = true -> is_digit m2 = true ->
  let r := pad2 h ++ ":" ++ String m1 (String m2 "") in
  normalizeTime r
  = if (h <=? 23)%nat then Ok r else Throw ("Invalid time format: " ++ r).
Proof.
  intros Hh H1 H2 r.
  pose proof renormalised_all as A. rewrite forallb_forall in A.
  specialize (A h (proj2 (in_seq 112 0 h) ltac:(lia))). cbv beta in A.
  rewrite forallb_forall in A.
  specialize (A m1 (digit_in_digitChars m1 H1)). cbv beta in A.
  rewrite forallb_forall in A.
  specialize (A m2 (digit_in_digitChars m2 H2)).
  unfold renormalised in A. fold r in A.
  destruct (normalizeTime r) as [r'|e];
    apply andb_true_iff in A as [A1 A2]; apply String.eqb_eq in A2.
  - rewrite A1. now subst.
  - apply negb_true_iff in A1. rewrite A1. now subst.
Qed.

(** X4.  Every accepted time comes back as a zero-padded hour, a colon and
    the two minute digits of the input.  Normalising that result again gives
    it back unchanged when the hour is at most 23, and is refused when the
    hour is larger (which only the 12-hour form can produce). *)
Theorem normalizeTime_result (timeStr r : string) :
  normalizeTime timeStr = Ok r ->
  exists h m1 m2,
    r = pad2 h ++ ":" ++ String m1 (String m2 "")
    /\ h <= 111 /\ is_digit m1 = true /\ is_digit m2 = true
    /\ normalizeTime r
       = if (h <=? 23)%nat then Ok r else Throw ("Invalid time format: " ++ r).
Proof.
  unfold normalizeTime.
  set (trimmed := toUpperCase (trim timeStr)).
  assert (F : match time12Match trimmed with
              | Some (h, minutes, period) =>
                  Ok (padStart 2 "0"
                        (showNat
                           (let hours := digitsVal h in
                            if (period =? "PM") && negb (hours =? 12)%nat
                            then hours + 12
                            else if (period =? "AM") && (hours =? 12)%nat
                                 then 0 else hours))
                      ++ ":" ++ minutes)
              | None => Throw ("Invalid time format: " ++ timeStr)
              end = Ok r ->
              exists h m1 m2,
                r = pad2 h ++ ":" ++ String m1 (String m2 "")
                /\ h <= 111 /\ is_digit m1 = true /\ is_digit m2 = true
                /\ normalizeTime r
                   = if (h <=? 23)%nat then Ok r
                     else Throw ("Invalid time format: " ++ r)).
  { unfold time12Match.
    destruct (matchHourMinute trimmed) as [[[h m] rest]|] eqn:E;
      [|discriminate].
    destruct ((dropWhile is_space rest =? "AM")
              || (dropWhile is_space rest =? "PM")); [|discriminate].
    destruct (matchHourMinute_inv _ _ _ _ E) as (Hh & m1 & m2 & -> & H1 & H2).
    intros H. injection H as <-.
    eexists _, m1, m2. split; [reflexivity|].
    assert (B : (let hours := digitsVal h in
                 if (dropWhile is_space rest =? "PM") && negb (hours =? 12)%nat
                 then hours + 12
                 else if (dropWhile is_space rest =? "AM") && (hours =? 12)%nat
                      then 0 else hours) <= 111).
    { cbv zeta. repeat match goal with
                       | |- context [if ?b then _ else _] => destruct b
                       end; lia. }
    split; [exact B|]. split; [exact H1|]. split; [exact H2|].
    now apply renormalised_spec. }
  unfold time24Match.
  destruct (matchHourMinute trimmed) as [[[h m] rest]|] eqn:E; [|exact F].
  destruct rest as [|c rest]; [|exact F].
  destruct ((0 <=? digitsVal h)%nat && (digitsVal h <=? 23)%nat) eqn:R; [|exact F].
  destruct (matchHourMinute_inv _ _ _ _ E) as (Hh & m1 & m2 & -> & H1 & H2).
  apply andb_true_iff in R as [_ R]. apply Nat.leb_le in R.
  intros H. injection H as <-.
  exists (digitsVal h), m1, m2. split; [reflexivity|].
  split; [lia|]. split; [exact H1|]. split; [exact H2|].
  apply renormalised_spec; [lia | assumption | assumption].
Qed.

Lemma normalizeTime_result_witness :
  exists h m1 m2,
    "14:30" = pad2 h ++ ":" ++ String m1 (String m2 "")
    /\ h <= 111 /\ is_digit m1 = true /\ is_digit m2 = true
    /\ normalizeTime "14:30"
       = if (h <=? 23)%nat then Ok "14:30"
         else Throw ("Invalid time format: " ++ "14:30").
Proof.
  exact (normalizeTime_result "2:30 pm" "14:30" eq_refl).
Defined.

(** X5.  White space around the input does not change what a time
    normalises to, nor whether it is refused (the error quotes the input as
    given). *)
Theorem normalizeTime_outer_space (a timeStr b : string) :
  all is_space a = true -> all is_space b = true ->
  (forall r, normalizeTime (a ++ timeStr ++ b) = Ok r
             <-> normalizeTime timeStr = Ok r)
  /\ ((exists e, normalizeTime (a ++ timeStr ++ b) = Throw e)
      <-> exists e, normalizeTime timeStr = Throw e).
Proof.
  intros Ha Hb. unfold normalizeTime.
  rewrite (SlugMore.trim_outer a timeStr b Ha Hb).
  destruct (time12Match _) as [[[h12 m12] p12]|];
    destruct (time24Match _) as [[h24 m24]|];
    try destruct (_ && (digitsVal h24 <=? 23)%nat).
  all: split; [intros r; split; intros H; first [exact H | discriminate H]|].
  all: split; intros [e H]; first [discriminate H | eexists; reflexivity].
Qed.

Lemma normalizeTime_outer_space_witness :
  normalizeTime (" " ++ "2:30 PM" ++ "  ") = Ok "14:30".
Proof.
  exact (proj2 (proj1 (normalizeTime_outer_space " " "2:30 PM" "  "
                         eq_refl eq_refl) "14:30") eq_refl).
Defined.

(** The spellings of the two markers. *)
Definition spellings (pm : bool) : list string :=
  if pm then ["PM"; "pm"; "Pm"; "pM"] else ["AM"; "am"; "Am"; "aM"].

Lemma append_assoc (a b c : string) : (a ++ b) ++ c = a ++ b ++ c.
Proof. induction a as [|x a IH]; cbn; [reflexivity | now rewrite IH]. Qed.

Lemma toUpperCase_app (a b : string) :
  toUpperCase (a ++ b) = toUpperCase a ++ toUpperCase b.
Proof.
  induction a as [|x a IH]; cbn; [reflexivity|].
  now rewrite IH, append_assoc.
Qed.

Lemma upper_char_plain (c : ascii) :
  is_digit c || is_space c || (c =? ":")%char = true ->
  upper_char c = String c "".
Proof. by_char c. Qed.

Lemma toUpperCase_plain (s : string) :
  all (fun c => is_digit c || is_space c || (c =? ":")%char) s = true ->
  toUpperCase s = s.
Proof.
  induction s as [|c s IH]; cbn; [reflexivity|].
  rewrite andb_true_iff. intros [Hc Hs].
  now rewrite upper_char_plain, IH.
Qed.

Lemma digit_not_colon (c : ascii) :
  is_digit c = true -> (c =? ":")%char = false /\ is_space c = false.
Proof. split; revert H; by_char c. Qed.

(** The hour written with one or two digits. *)
Definition hourDigits (hs : string) : Prop :=
  (exists a, hs = String a "" /\ is_digit a = true)
  \/ (exists a b, hs = String a (String b "")
                  /\ is_digit a = true /\ is_digit b = true).

Lemma matchHourMinute_text (hs : string) (m1 m2 : ascii) (rest : string) :
  hourDigits hs -> is_digit m1 = true -> is_digit m2 = true ->
  matchHourMinute (hs ++ ":" ++ String m1 (String m2 rest))
  = Some (hs, String m1 (String m2 ""), rest).
Proof.
  intros [(a & -> & Ha)|(a & b & -> & Ha & Hb)] H1 H2; cbn.
  - now rewrite Ha, H1, H2.
  - destruct (digit_not_colon b Hb) as [Hc _].
    now rewrite Ha, Hb, Hc, H1, H2.
Qed.

Definition hourText (h : nat) : bool :=
  let one (hs : string) :=
    match hs with
    | String a "" => is_digit a && (digitsVal hs =? h)%nat
    | String a (String b "") =>
        is_digit a && is_digit b && (digitsVal hs =? h)%nat
    | _ => false
    end in
  one (showNat h) && one (pad2 h).

Lemma hourText_all : forallb hourText (seq 0 100) = true.
Proof. vm_compute. reflexivity. Qed.

Lemma hourText_spec (h : nat) (hs : string) :
  h < 100 -> hs = showNat h \/ hs = pad2 h ->
  hourDigits hs /\ digitsVal hs = h.
Proof.
  intros Hh Hs. pose proof hourText_all as A. rewrite forallb_forall in A.
  specialize (A h (proj2 (in_seq 100 0 h) ltac:(lia))).
  unfold hourText in A. apply andb_true_iff in A as [A1 A2].
  assert (G : forall x,
             match x with
             | String a "" => is_digit a && (digitsVal x =? h)%nat
             | String a (String b "") =>
                 is_digit a && is_digit b && (digitsVal x =? h)%nat
             | _ => false
             end = true -> hourDigits x /\ digitsVal x = h).
  { intros [|a [|b [|c x]]] G; try discriminate.
    - apply andb_true_iff in G as [Ga Gv]. apply Nat.eqb_eq in Gv.
      split; [left; eauto | exact Gv].
    - rewrite !andb_true_iff in G. destruct G as [[Ga Gb] Gv].
      apply Nat.eqb_eq in Gv. split; [right; eauto | exact Gv]. }
  destruct Hs as [-> | ->]; now apply G.
Qed.

Lemma minuteText (m : nat) :
  m < 100 ->
  exists m1 m2, pad2 m = String m1 (String m2 "")
                /\ is_digit m1 = true /\ is_digit m2 = true.
Proof.
  intros Hm. pose proof DateFacts.twoDigits_all as A.
  rewrite forallb_forall in A.
  specialize (A m (proj2 (in_seq 100 0 m) ltac:(lia))).
  unfold DateFacts.twoDigits in A. unfold pad2.
  destruct (padStart 2 "0" (showNat m)) as [|a [|b [|c x]]];
    try discriminate.
  rewrite !andb_true_iff in A. destruct A as [[Ha Hb] _]. eauto.
Qed.

Lemma spelling_facts (pm : bool) (mk : string) :
  In mk (spellings pm) ->
  toUpperCase mk = (if pm then "PM" else "AM")
  /\ all is_space mk = false
  /\ dropWhileEnd is_space mk = mk.
Proof.
  destruct pm; cbn; intros H;
    repeat (destruct H as [<-|H]; [repeat split; reflexivity|]);
    destruct H.
Qed.

(** X25.  The 12-hour form with an hour from 1 to 12, written with or
    without a leading zero, any two minute digits, any white space before
    the marker and the marker in any letter case, is converted as the clock
    has it: 12 AM is hour 00, 12 PM is hour 12, the other PM hours gain
    12. *)
Theorem normalizeTime_12_hour_clock (pm : bool) (h m : nat)
        (hs ws mk : string) :
  1 <= h <= 12 -> m < 100 ->
  hs = showNat h \/ hs = pad2 h ->
  all is_space ws = true ->
  In mk (spellings pm) ->
  normalizeTime (hs ++ ":" ++ pad2 m ++ ws ++ mk)
  = Ok (pad2 (to24 pm h) ++ ":" ++ pad2 m).
Proof.
  intros Hh Hm Hhs Hws Hmk.
  destruct (hourText_spec h hs ltac:(lia) Hhs) as [Hd Hv].
  destruct (minuteText m Hm) as (m1 & m2 & Em & H1 & H2).
  destruct (spelling_facts pm mk Hmk) as (Umk & Smk & Emk).
  rewrite Em.
  change (hs ++ ":" ++ String m1 (String m2 "") ++ ws ++ mk)
    with (hs ++ ":" ++ String m1 (String m2 (ws ++ mk))).
  set (MK := if pm then "PM" else "AM") in *.
  assert (Hplain : all (fun c => is_digit c || is_space c
                                 || (c =? ":")%char)
                       (hs ++ ":" ++ String m1 (String m2 ws)) = true).
  { rewrite BookingHookFacts.all_app. apply andb_true_iff. split.
    - destruct Hd as [(a & -> & Ha)|(a & b & -> & Ha & Hb)]; cbn;
        now rewrite ?Ha, ?Hb.
    - cbn. rewrite H1, H2. cbn.
      eapply SlugFacts.all_impl; [|exact Hws].
      intros c Hc. now rewrite Hc, orb_true_r. }
  assert (T : toUpperCase
                (trim (hs ++ ":" ++ String m1 (String m2 (ws ++ mk))))
              = hs ++ ":" ++ String m1 (String m2 (ws ++ MK))).
  { assert (E : hs ++ ":" ++ String m1 (String m2 (ws ++ mk))
                = (hs ++ ":" ++ String m1 (String m2 ws)) ++ mk).
    { rewrite !append_assoc. reflexivity. }
    rewrite E. unfold trim.
    assert (D : dropWhile is_space
                  ((hs ++ ":" ++ String m1 (String m2 ws)) ++ mk)
                = (hs ++ ":" ++ String m1 (String m2 ws)) ++ mk).
    { destruct Hd as [(a & -> & Ha)|(a & b & -> & Ha & Hb)]; cbn;
        now rewrite (proj2 (digit_not_colon a Ha)). }
    rewrite D, (SlugMore.dropWhileEnd_keep is_space _ mk Smk), Emk.
    rewrite toUpperCase_app, (toUpperCase_plain _ Hplain), Umk.
    rewrite !append_assoc. reflexivity. }
  unfold normalizeTime. rewrite T.
  unfold time24Match, time12Match.
  rewrite (matchHourMinute_text hs m1 m2 (ws ++ MK) Hd H1 H2).
  assert (R : dropWhile is_space (ws ++ MK) = MK).
  { rewrite (SlugMore.dropWhile_all is_space ws MK Hws).
    unfold MK. now destruct pm. }
  rewrite R.
  assert (N : ws ++ MK <> "").
  { unfold MK. destruct ws; destruct pm; discriminate. }
  destruct (ws ++ MK) as [|x y] eqn:EW; [congruence|].
  clear T R N EW Umk. subst MK. unfold to24, pad2.
  destruct pm.
  - change (("PM" =? "AM") || ("PM" =? "PM")) with true.
    cbv beta iota zeta.
    change ("PM" =? "PM") with true. change ("PM" =? "AM") with false.
    rewrite Hv. cbn [andb].
    destruct (Nat.eqb_spec h 12) as [->|Hne]; reflexivity.
  - change (("AM" =? "AM") || ("AM" =? "PM")) with true.
    cbv beta iota zeta.
    change ("AM" =? "PM") with false. change ("AM" =? "AM") with true.
    rewrite Hv. cbn [andb].
    destruct (Nat.eqb_spec h 12) as [->|Hne]; reflexivity.
Qed.

Lemma normalizeTime_12_hour_clock_witness :
  normalizeTime "9:05   pm" = Ok "21:05".
Proof.
  exact (normalizeTime_12_hour_clock true 9 5 "9" "   " "pm"
           ltac:(lia) ltac:(lia) (or_introl eq_refl) eq_refl
           ltac:(cbn; tauto)).
Defined.

End TimeMore.

(** ** More on dates *)

Module DateMore.
Import Js JsDate EventModel DateFacts.
Local Open Scope Z_scope.

(** [parsed.toISOString().split('T')[0]] *)
Definition datePart (t : Z) : string :=
  hd EmptyString (split "T" (toISOString t)).

Lemma split_not_nil (c : ascii) (s : string) : split c s <> [].
Proof.
  induction s as [|x s IH]; cbn; [discriminate|].
  destruct (split c s) as [|p ps]; [congruence|].
  destruct (x =? c)%char; discriminate.
Qed.

Lemma hd_split_cons (c x : ascii) (s : string) :
  (x =? c)%char = false ->
  hd EmptyString (split c (String x s))
  = String x (hd EmptyString (split c s)).
Proof.
  intros H. cbn. pose proof (split_not_nil c s) as N.
  destruct (split c s) as [|p ps]; [congruence|]. now rewrite H.
Qed.

Lemma hd_split_hit (c : ascii) (s : string) :
  hd EmptyString (split c (String c s)) = EmptyString.
Proof.
  cbn. pose proof (split_not_nil c s) as N.
  destruct (split c s) as [|p ps]; [congruence|].
  now rewrite Ascii.eqb_refl.
Qed.

(** The text of a date whose numbers fit their digits is of the strict
    shape and splits into these numbers. *)
Lemma isoDate_strict (y m d : Z) :
  0 <= y <= 9999 -> 0 <= m <= 99 -> 0 <= d <= 99 ->
  isoDateOnly (isoDate y m d) = true
  /\ map (fun p => Z.of_nat (digitsVal p)) (split "-" (isoDate y m d))
     = [y; m; d].
Proof.
  intros Hy Hm Hd.
  destruct (pad4_shape y Hy)
    as (y1 & y2 & y3 & y4 & Ey & Hy1 & Hy2 & Hy3 & Hy4 & Vy).
  destruct (pad2_shape m Hm) as (m1 & m2 & Em & Hm1 & Hm2 & Vm).
  destruct (pad2_shape d Hd) as (d1 & d2 & Ed & Hd1 & Hd2 & Vd).
  split.
  - unfold isoDate. rewrite Ey, Em, Ed. cbn.
    now rewrite Hy1, Hy2, Hy3, Hy4, Hm1, Hm2, Hd1, Hd2.
  - unfold isoDate. rewrite Ey, Em, Ed.
    change (split "-" _)
      with (split "-" (String y1 (String y2 (String y3 (String y4 (String "-"
              (String m1 (String m2 (String "-" (String d1 (String d2
                 EmptyString))))))))))).
    rewrite split_strict by assumption. cbn [map].
    rewrite <- Ey, <- Em, <- Ed, Vy, Vm, Vd. reflexivity.
Qed.

(** What the strict branch returns, as a time value. *)
Lemma normalizeDateToISO_text (parseDate : string -> option Z) (y m d : Z) :
  0 <= y <= 9999 -> 0 <= m <= 99 -> 0 <= d <= 99 ->
  normalizeDateToISO parseDate (isoDate y m d)
  = Ok (datePart (MakeDate (MakeDay (MakeFullYear y) (m - 1) d) 0)).
Proof.
  intros Hy Hm Hd. destruct (isoDate_strict y m d Hy Hm Hd) as [S P].
  unfold normalizeDateToISO. rewrite S, P, UTC_finite by assumption.
  cbv beta iota zeta. unfold datePart. reflexivity.
Qed.

Lemma datePart_text (y m d : Z) (tail : string) :
  0 <= y <= 9999 -> 0 <= m <= 99 -> 0 <= d <= 99 ->
  hd EmptyString
     (split "T" (pad 4 y ++ "-" ++ pad 2 m ++ "-" ++ pad 2 d ++ "T" ++ tail))
  = isoDate y m d.
Proof.
  intros Hy Hm Hd.
  destruct (pad4_shape y Hy)
    as (y1 & y2 & y3 & y4 & Ey & Hy1 & Hy2 & Hy3 & Hy4 & _).
  destruct (pad2_shape m Hm) as (m1 & m2 & Em & Hm1 & Hm2 & _).
  destruct (pad2_shape d Hd) as (d1 & d2 & Ed & Hd1 & Hd2 & _).
  unfold isoDate. rewrite Ey, Em, Ed.
  apply digit_not_T in Hy1, Hy2, Hy3, Hy4, Hm1, Hm2, Hd1, Hd2.
  cbn [append].
  rewrite !hd_split_cons by (assumption || reflexivity).
  now rewrite hd_split_hit.
Qed.

(** The fields of any time value form a date of the calendar. *)
Lemma fields_valid (t : Z) :
  0 <= MonthFromTime t <= 11
  /\ 1 <= DateFromTime t
     <= daysInMonth (InLeapYear (YearFromTime t)) (MonthFromTime t + 1).
Proof.
  pose proof (YearFromDay_spec (Day t)) as [Lo Hi].
  rewrite DayFromYear_succ in Hi.
  unfold DateFromTime, MonthFromTime, DayWithinYear, YearFromTime in *.
  set (y := YearFromDay (Day t)) in *.
  set (w := Day t - DayFromYear y).
  assert (W : 0 <= w < DaysInYear y) by (unfold w; lia).
  clearbody w. clear Lo Hi. unfold DaysInYear in W. cbv zeta.
  destruct (InLeapYear y);
    repeat match goal with
           | |- context [DaysBeforeMonth ?l ?k] =>
               lazymatch k with
               | context [Z.ltb] => fail
               | _ => let v := eval vm_compute in (DaysBeforeMonth l k) in
                      change (DaysBeforeMonth l k) with v
               end
           end;
    repeat match goal with
           | |- context [?a <? ?b] =>
               destruct (Z.ltb_spec a b); cbv beta iota
           end;
    repeat match goal with
           | |- context [DaysBeforeMonth ?l ?k] =>
               let v := eval vm_compute in (DaysBeforeMonth l k) in
               change (DaysBeforeMonth l k) with v
           | |- context [daysInMonth ?l ?k] =>
               let v := eval vm_compute in (daysInMonth l k) in
               change (daysInMonth l k) with v
           end;
    lia.
Qed.

(** The date part of midnight of a calendar date is the text of the date. *)
Lemma datePart_civil (y m d : Z) :
  0 <= y <= 9999 -> 1 <= m <= 12 ->
  1 <= d <= daysInMonth (InLeapYear y) m ->
  datePart (MakeDate (MakeDay y (m - 1) d) 0) = isoDate y m d.
Proof.
  intros Hy Hm Hd.
  pose proof (daysInMonth_le (InLeapYear y) m) as Hd31.
  destruct (civil_fields y m d Hm Hd) as (Y & M & D & _).
  unfold datePart, toISOString. rewrite Y, M, D.
  destruct (Z.leb_spec 0 y); [|lia]. destruct (Z.leb_spec y 9999); [|lia].
  cbn [andb]. replace (m - 1 + 1) with m by lia.
  apply datePart_text; lia.
Qed.

(** X6.  Every date of the calendar from 0100-01-01 to 9999-12-31, written
    in the strict form, is of the strict shape and normalises to itself. *)
Theorem normalizeDateToISO_calendar_fixed (parseDate : string -> option Z)
        (y m d : Z) :
  100 <= y <= 9999 -> 1 <= m <= 12 ->
  1 <= d <= daysInMonth (InLeapYear y) m ->
  isoDateOnly (isoDate y m d) = true
  /\ normalizeDateToISO parseDate (isoDate y m d) = Ok (isoDate y m d).
Proof.
  intros Hy Hm Hd.
  pose proof (daysInMonth_le (InLeapYear y) m) as Hd31.
  split; [apply isoDate_strict; lia|].
  rewrite normalizeDateToISO_text by lia.
  assert (F : MakeFullYear y = y).
  { unfold MakeFullYear. destruct (Z.leb_spec y 99); [lia|].
    now rewrite andb_false_r. }
  rewrite F, datePart_civil by lia. reflexivity.
Qed.

Lemma normalizeDateToISO_calendar_fixed_witness :
  normalizeDateToISO (fun _ => None) "2024-02-29" = Ok "2024-02-29".
Proof.
  exact (proj2 (normalizeDateToISO_calendar_fixed (fun _ => None) 2024 2 29
                  ltac:(lia) ltac:(lia) ltac:(vm_compute; split; discriminate))).
Defined.

(** X7.  A strict date whose year is 0000 to 0099 comes back as the same
    month and day of the year 1900 + year, whenever that is a date of the
    calendar. *)
Theorem normalizeDateToISO_century_shift (parseDate : string -> option Z)
        (y m d : Z) :
  0 <= y <= 99 -> 1 <= m <= 12 ->
  1 <= d <= daysInMonth (InLeapYear (1900 + y)) m ->
  normalizeDateToISO parseDate (isoDate y m d) = Ok (isoDate (1900 + y) m d).
Proof.
  intros Hy Hm Hd.
  pose proof (daysInMonth_le (InLeapYear (1900 + y)) m) as Hd31.
  rewrite normalizeDateToISO_text by lia.
  assert (F : MakeFullYear y = 1900 + y).
  { unfold MakeFullYear. destruct (Z.leb_spec 0 y); [|lia].
    destruct (Z.leb_spec y 99); [reflexivity | lia]. }
  rewrite F, datePart_civil by lia. reflexivity.
Qed.

Lemma normalizeDateToISO_century_shift_witness :
  normalizeDateToISO (fun _ => None) "0024-05-20" = Ok "1924-05-20".
Proof.
  exact (normalizeDateToISO_century_shift (fun _ => None) 24 5 20
           ltac:(lia) ltac:(lia) ltac:(vm_compute; split; discriminate)).
Defined.

(** X8.  An input is refused exactly when it is not of the strict shape and
    the host's parser gives no time value or one beyond 8.64e15 ms either
    side of the epoch; the error then quotes the input. *)
Theorem normalizeDateToISO_refused (parseDate : string -> option Z)
        (dateStr : string) :
  ((exists e, normalizeDateToISO parseDate dateStr = Throw e)
   <-> isoDateOnly dateStr = false
       /\ (parseDate dateStr = None
           \/ exists t, parseDate dateStr = Some t
                        /\ 8640000000000000 < Z.abs t))
  /\ (forall e, normalizeDateToISO parseDate dateStr = Throw e ->
                e = "Invalid date format: " ++ dateStr).
Proof.
  split; [|intros e; apply normalizeDateToISO_error].
  destruct (isoDateOnly dateStr) eqn:S.
  - destruct (normalizeDateToISO_strict parseDate dateStr S)
      as (y & m & d & _ & _ & _ & _ & E).
    rewrite E. split; [intros [e H]; discriminate | intros [H _]; discriminate].
  - unfold normalizeDateToISO, newDateOfString, TimeClip. rewrite S.
    destruct (parseDate dateStr) as [t|].
    + destruct (Z.ltb_spec 8640000000000000 (Z.abs t)).
      * split; [|eauto]. intros _. split; [reflexivity|]. right. eauto.
      * split; [intros [e H']; discriminate|].
        intros [_ [H'|(t' & H' & L)]]; [discriminate|].
        injection H' as <-. lia.
    + split; [|eauto]. intros _. auto.
Qed.

Lemma normalizeDateToISO_has_datePart (parseDate : string -> option Z)
      (s r : string) :
  normalizeDateToISO parseDate s = Ok r -> exists t, r = datePart t.
Proof.
  unfold normalizeDateToISO.
  destruct (if isoDateOnly s then _ else _) as [t|]; [|discriminate].
  intros H. injection H as <-. exists t. reflexivity.
Qed.

(** X9.  Whatever the input and the host's parser, an accepted date comes
    back either as the text YYYY-MM-DD of a date of the calendar with year
    0000 to 9999, or with a sign in front (a year outside that range).  In
    the first case, from year 0100 on, normalising the result again gives
    it back unchanged. *)
Theorem normalizeDateToISO_result (parseDate : string -> option Z)
        (dateStr r : string) :
  normalizeDateToISO parseDate dateStr = Ok r ->
  (exists y m d,
      0 <= y <= 9999 /\ 1 <= m <= 12
      /\ 1 <= d <= daysInMonth (InLeapYear y) m
      /\ r = isoDate y m d
      /\ (100 <= y -> normalizeDateToISO parseDate r = Ok r))
  \/ (exists rest, r = String "+" rest \/ r = String "-" rest).
Proof.
  intros H. apply normalizeDateToISO_has_datePart in H as [t ->].
  destruct (fields_valid t) as [HM HD].
  pose proof (daysInMonth_le (InLeapYear (YearFromTime t))
                             (MonthFromTime t + 1)) as Hd31.
  unfold datePart, toISOString.
  destruct (Z.leb_spec 0 (YearFromTime t));
    [destruct (Z.leb_spec (YearFromTime t) 9999)|]; cbn [andb].
  - left. exists (YearFromTime t), (MonthFromTime t + 1), (DateFromTime t).
    rewrite datePart_text by lia.
    split; [lia|]. split; [lia|]. split; [exact HD|].
    split; [reflexivity|]. intros Hy.
    apply normalizeDateToISO_calendar_fixed; [lia | lia | exact HD].
  - right. destruct (Z.ltb_spec (YearFromTime t) 0); [lia|].
    cbn [append]. rewrite hd_split_cons by reflexivity. eauto.
  - right. destruct (Z.ltb_spec (YearFromTime t) 0); [|lia].
    cbn [append]. rewrite hd_split_cons by reflexivity. eauto.
Qed.

Lemma normalizeDateToISO_result_witness :
  (exists y m d,
      0 <= y <= 9999 /\ 1 <= m <= 12
      /\ 1 <= d <= daysInMonth (InLeapYear y) m
      /\ "2024-03-01" = isoDate y m d
      /\ (100 <= y ->
          normalizeDateToISO (fun _ => None) "2024-03-01" = Ok "2024-03-01"))
  \/ (exists rest,
         "2024-03-01" = String "+" rest \/ "2024-03-01" = String "-" rest).
Proof.
  exact (normalizeDateToISO_result (fun _ => None) "2024-02-30" "2024-03-01"
           eq_refl).
Defined.
End DateMore.

(** ** Rolling a date over *)

Module DateRollOver.
Import Js JsDate EventModel DateFacts DateMore.
Local Open Scope Z_scope.
































End DateRollOver.

(** ** More on the event hook *)

Module EventHookMore.
Import Js EventModel Mongoose EventHook EventHookFacts.

Definition isSlugQuery (id : ObjectId) (op : StorageOp) : Prop :=
  exists s, op = EventExistsSlug s id.

(** The loop, whatever its fuel and however it ends: it only reads.  When it
    returns a slug, the store has no other record with that slug. *)
Lemma probe_frame (baseSlug : string) :
  forall (fuel : nat) (slug_ : string) (counter : nat) (db : Database)
         (self : IEvent),
    let r := probe fuel baseSlug slug_ counter (db, self) in
    events (fst (fst r)) = events db
    /\ bookings (fst (fst r)) = bookings db
    /\ snd (fst r) = self
    /\ (exists qs, journal (fst (fst r)) = (journal db ++ qs)%list
                   /\ Forall (isSlugQuery (EventModel._id self)) qs)
    /\ (forall c, snd r = Ret c ->
                  slugTaken db c (EventModel._id self) = false)
    /\ (forall e, snd r <> Raise e).
Proof.
  induction fuel as [|fuel IH]; intros slug_ counter db self; cbn zeta.
  - cbn. repeat split; try discriminate.
    exists []. split; [now rewrite app_nil_r | constructor].
  - cbn [probe]. unfold bind, existsSlug. cbn [fst snd].
    destruct (slugTaken db slug_ (EventModel._id self)) eqn:E.
    + specialize (IH (baseSlug ++ "-" ++ showNat counter) (S counter)
                     (record (EventExistsSlug slug_ (EventModel._id self)) db)
                     self).
      cbn zeta in IH.
      destruct IH as (I1 & I2 & I3 & (qs & I4 & I5) & I6 & I7).
      split; [exact I1|]. split; [exact I2|]. split; [exact I3|].
      split; [|split; [|exact I7]].
      * exists (EventExistsSlug slug_ (EventModel._id self) :: qs).
        split.
        -- rewrite I4. cbn [record journal]. now rewrite <- app_assoc.
        -- constructor; [now exists slug_ | exact I5].
      * intros c Hc. apply I6 in Hc. exact Hc.
    + cbn. split; [reflexivity|]. split; [reflexivity|].
      split; [reflexivity|]. split; [|split; [|discriminate]].
      * exists [EventExistsSlug slug_ (EventModel._id self)].
        split; [reflexivity|]. constructor; [now exists slug_|constructor].
      * intros c Hc. injection Hc as <-. exact E.
Qed.

Section Hook.

Variable parseDate : string -> option Z.

(** The slug step of the hook, however it ends. *)
Lemma slugStep_frame (fuel : nat) (db : Database) (doc : IEvent) :
  let r := slugStep fuel (db, doc) in
  events (fst (fst r)) = events db
  /\ bookings (fst (fst r)) = bookings db
  /\ (exists qs, journal (fst (fst r)) = (journal db ++ qs)%list
                 /\ Forall (isSlugQuery (EventModel._id doc)) qs)
  /\ (forall e, snd r <> Raise e)
  /\ (snd r = Ret tt ->
      exists s, snd (fst r) = set_slug s doc
                /\ if isNew doc || isModified "title" doc
                   then slugTaken db s (EventModel._id doc) = false
                   else s = slug doc)
  /\ (snd r <> Ret tt -> snd (fst r) = doc).
Proof.
  cbn zeta. unfold slugStep, bind, this. cbn [fst snd].
  destruct (isNew doc || isModified "title" doc).
  - pose proof (probe_frame (generateSlug (title doc)) fuel
                  (generateSlug (title doc)) 1 db doc) as P.
    cbn zeta in P. destruct P as (P1 & P2 & P3 & P4 & P5 & P6).
    destruct (probe fuel _ _ 1 (db, doc)) as [[db1 doc1] [c| e |]];
      cbn [fst snd assign] in *; subst doc1.
    + split; [exact P1|]. split; [exact P2|]. split; [exact P4|].
      split; [discriminate|]. split; [|congruence].
      intros _. exists c. split; [reflexivity | now apply P5].
    + exfalso. now apply (P6 e).
    + split; [exact P1|]. split; [exact P2|]. split; [exact P4|].
      split; [discriminate|]. split; [discriminate|]. reflexivity.
  - cbn. split; [reflexivity|]. split; [reflexivity|]. split.
    + exists []. split; [now rewrite app_nil_r | constructor].
    + split; [discriminate|]. split; [|congruence].
      intros _. exists (slug doc). split; [now destruct doc | reflexivity].
Qed.

(** A required field that is empty once trimmed. *)
Definition blank (doc : IEvent) (field : string) : bool :=
  match getField field doc with
  | Some value => trim value =? ""
  | None => false
  end.

(** The loop over the required fields stops at the first blank one. *)
Lemma checkRequired_find (fields : list string) (s : HookState) :
  snd (checkRequired fields s)
  = match find (blank (snd s)) fields with
    | Some f => Raise (f ++ " cannot be empty")
    | None => Ret tt
    end.
Proof.
  induction fields as [|f fields IH]; cbn; [reflexivity|].
  unfold bind, this, blank in *. cbn [fst snd].
  destruct (getField f (snd s)) as [value|]; [|exact IH].
  destruct (trim value =? ""); [reflexivity | exact IH].
Qed.

(** What follows the slug step, case by case. *)
Lemma afterSlug_cases (db : Database) (doc : IEvent) :
  let r := afterSlug parseDate (db, doc) in
  let newDate := isNew doc || isModified "date" doc in
  let newTime := isNew doc || isModified "time" doc in
  fst (fst r) = db
  /\ ((exists d t,
          (if newDate then normalizeDateToISO parseDate (date doc) = Ok d
           else d = date doc)
          /\ (if newTime then normalizeTime (time doc) = Ok t
              else t = time doc)
          /\ snd (fst r) = set_time t (set_date d doc)
          /\ snd r = match find (blank (set_time t (set_date d doc)))
                                requiredFields with
                     | Some f => Raise (f ++ " cannot be empty")
                     | None => Ret tt
                     end)
      \/ (newDate = true
          /\ snd r = Raise ("Invalid date format: " ++ date doc)
          /\ snd (fst r) = doc
          /\ exists e, normalizeDateToISO parseDate (date doc) = Throw e)
      \/ (newTime = true
          /\ snd r = Raise ("Invalid time format: " ++ time doc)
          /\ (exists d, snd (fst r) = set_date d doc)
          /\ exists e, normalizeTime (time doc) = Throw e)).
Proof.
  cbn zeta. unfold afterSlug, bind, this. cbn [fst snd].
  destruct (isNew doc || isModified "date" doc) eqn:ND.
  - destruct (normalizeDateToISO parseDate (date doc)) as [d|e] eqn:ED;
      cbn [liftResult ret throw assign fst snd].
    2:{ split; [reflexivity|]. right. left.
        pose proof (DateFacts.normalizeDateToISO_error _ _ _ ED). subst e.
        eauto 6. }
    change (isNew (set_date d doc)) with (isNew doc).
    change (isModified "time" (set_date d doc)) with (isModified "time" doc).
    change (time (set_date d doc)) with (time doc).
    destruct (isNew doc || isModified "time" doc) eqn:NT.
    + destruct (normalizeTime (time doc)) as [t|e] eqn:ET;
        cbn [liftResult ret throw assign fst snd].
      2:{ split; [reflexivity|]. right. right.
          pose proof (TimeFacts.normalizeTime_error _ _ ET). subst e.
          eauto 8. }
      pose proof (checkRequired_state requiredFields
                    (db, set_time t (set_date d doc))) as [E _].
      pose proof (checkRequired_find requiredFields
                    (db, set_time t (set_date d doc))) as F.
      destruct (checkRequired requiredFields _) as [s' o].
      cbn [fst snd] in *. subst s'. split; [reflexivity|]. left.
      exists d, t. auto.
    + cbn [ret fst snd].
      pose proof (checkRequired_state requiredFields (db, set_date d doc))
        as [E _].
      pose proof (checkRequired_find requiredFields (db, set_date d doc))
        as F.
      destruct (checkRequired requiredFields _) as [s' o].
      cbn [fst snd] in *. subst s'. split; [reflexivity|]. left.
      exists d, (time doc).
      replace (set_time (time doc) (set_date d doc)) with (set_date d doc)
        by (now destruct doc).
      auto.
  - cbn [ret fst snd].
    destruct (isNew doc || isModified "time" doc) eqn:NT.
    + destruct (normalizeTime (time doc)) as [t|e] eqn:ET;
        cbn [liftResult ret throw assign fst snd].
      2:{ split; [reflexivity|]. right. right.
          pose proof (TimeFacts.normalizeTime_error _ _ ET). subst e.
          split; [reflexivity|]. split; [reflexivity|].
          split; [|eauto]. exists (date doc). now destruct doc. }
      pose proof (checkRequired_state requiredFields (db, set_time t doc))
        as [E _].
      pose proof (checkRequired_find requiredFields (db, set_time t doc))
        as F.
      destruct (checkRequired requiredFields _) as [s' o].
      cbn [fst snd] in *. subst s'. split; [reflexivity|]. left.
      exists (date doc), t.
      replace (set_date (date doc) doc) with doc by (now destruct doc).
      auto.
    + cbn [ret fst snd].
      pose proof (checkRequired_state requiredFields (db, doc)) as [E _].
      pose proof (checkRequired_find requiredFields (db, doc)) as F.
      destruct (checkRequired requiredFields _) as [s' o].
      cbn [fst snd] in *. subst s'. split; [reflexivity|]. left.
      exists (date doc), (time doc).
      replace (set_time (time doc) (set_date (date doc) doc)) with doc
        by (now destruct doc).
      auto.
Qed.

(** A save that goes through. *)
Lemma save_Ret (fuel : nat) (db db' : Database) (doc saved : IEvent) :
  save parseDate fuel db doc = (db', Ret saved) ->
  exists s d t qs,
    (if isNew doc || isModified "title" doc
     then slugTaken db s (EventModel._id doc) = false
     else s = slug doc)
    /\ (if isNew doc || isModified "date" doc
        then normalizeDateToISO parseDate (date doc) = Ok d
        else d = date doc)
    /\ (if isNew doc || isModified "time" doc
        then normalizeTime (time doc) = Ok t
        else t = time doc)
    /\ saved = persisted (set_time t (set_date d (set_slug s doc)))
    /\ find (blank (set_time t (set_date d (set_slug s doc)))) requiredFields
       = None
    /\ events db'
       = (filter (fun x => negb (EventModel._id x =? EventModel._id doc))
                 (events db) ++ [saved])%list
    /\ bookings db' = bookings db
    /\ journal db'
       = (journal db ++ qs ++ [WriteEvent (EventModel._id doc)])%list
    /\ Forall (isSlugQuery (EventModel._id doc)) qs.
Proof.
  unfold save. rewrite preSave_split. unfold bind.
  pose proof (slugStep_frame fuel db doc) as S. cbn zeta in S.
  destruct S as (S1 & S2 & (qs & S3 & S4) & S5 & S6 & S7).
  destruct (slugStep fuel (db, doc)) as [[db1 doc1] [[]|e|]];
    cbn [fst snd] in *; try discriminate.
  destruct (S6 eq_refl) as (s & -> & Hs).
  pose proof (afterSlug_cases db1 (set_slug s doc)) as A. cbn zeta in A.
  destruct A as (A1 & A).
  destruct (afterSlug parseDate (db1, set_slug s doc)) as [[db2 doc2] o].
  cbn [fst snd] in *. subst db2.
  destruct A as [(d & t & Hd & Ht & -> & Ho)|[(_ & Ho & _)|(_ & Ho & _)]];
    subst o; try discriminate.
  destruct (find _ requiredFields) eqn:F; [discriminate|].
  intros H. injection H as <- <-.
  exists s, d, t, qs. repeat split; try assumption.
  - cbn [commit events]. now rewrite S1.
  - cbn [commit journal]. now rewrite S3, <- app_assoc.
Qed.

(** A save that the hook refuses. *)
Lemma save_Raise (fuel : nat) (db db' : Database) (doc : IEvent)
      (e : string) :
  save parseDate fuel db doc = (db', Raise e) ->
  events db' = events db
  /\ bookings db' = bookings db
  /\ (exists qs, journal db' = (journal db ++ qs)%list
                 /\ Forall (isSlugQuery (EventModel._id doc)) qs)
  /\ (e = "Invalid date format: " ++ date doc
      \/ e = "Invalid time format: " ++ time doc
      \/ exists f, In f requiredFields /\ e = f ++ " cannot be empty").
Proof.
  unfold save. rewrite preSave_split. unfold bind.
  pose proof (slugStep_frame fuel db doc) as S. cbn zeta in S.
  destruct S as (S1 & S2 & S3 & S5 & S6 & S7).
  destruct (slugStep fuel (db, doc)) as [[db1 doc1] [[]|e1|]];
    cbn [fst snd] in *; try discriminate.
  2:{ exfalso. now apply (S5 e1). }
  destruct (S6 eq_refl) as (s & -> & Hs).
  pose proof (afterSlug_cases db1 (set_slug s doc)) as A. cbn zeta in A.
  destruct A as (A1 & A).
  destruct (afterSlug parseDate (db1, set_slug s doc)) as [[db2 doc2] o].
  cbn [fst snd] in *. subst db2.
  destruct o as [[]|e2|]; try discriminate.
  intros H. injection H as <- <-.
  split; [exact S1|]. split; [exact S2|]. split; [exact S3|].
  destruct A as [(d & t & _ & _ & _ & Ho)|[(_ & Ho & _)|(_ & Ho & _)]].
  - destruct (find _ requiredFields) as [f|] eqn:F; [|discriminate].
    injection Ho as ->. right. right. exists f.
    split; [|reflexivity]. now apply find_some in F.
  - injection Ho as ->. now left.
  - injection Ho as ->. right. now left.
Qed.

Lemma NoDup_snoc {A : Type} (l : list A) (x : A) :
  NoDup l -> ~ In x l -> NoDup (l ++ [x]).
Proof.
  induction l as [|a l IH]; cbn; intros N H.
  - constructor; [intros [] | constructor].
  - inversion N as [|? ? Na Nl]; subst. constructor.
    + rewrite in_app_iff. cbn. intros [H'|[H'|[]]]; [auto | subst; auto].
    + apply IH; [assumption | auto].
Qed.

(** Dropping events keeps the remaining slugs distinct. *)
Lemma distinct_slugs_filter (keep_ : IEvent -> bool) (evs : list IEvent) :
  NoDup (map slug evs) -> NoDup (map slug (filter keep_ evs)).
Proof.
  induction evs as [|e evs IH]; cbn; intros N; [constructor|].
  inversion N as [|? ? Ne Nevs]; subst.
  destruct (keep_ e); cbn; [|auto]. constructor; [|auto].
  intros H. apply Ne. apply in_map_iff in H as (x & E & Hx).
  apply filter_In in Hx as [Hx _]. apply in_map_iff. eauto.
Qed.

(** X10.  Saving a document whose slug is regenerated keeps the slugs of
    the stored events distinct from one another. *)
Theorem save_keeps_slugs_distinct (fuel : nat) (db db' : Database)
        (doc saved : IEvent) :
  NoDup (map slug (events db)) ->
  isNew doc || isModified "title" doc = true ->
  save parseDate fuel db doc = (db', Ret saved) ->
  NoDup (map slug (events db')).
Proof.
  intros N R H.
  destruct (save_Ret fuel db db' doc saved H)
    as (s & d & t & qs & Hs & _ & _ & E & _ & Ev & _).
  rewrite R in Hs. rewrite Ev, map_app. cbn [map].
  apply NoDup_snoc; [now apply distinct_slugs_filter|].
  intros I. apply in_map_iff in I as (x & Ex & Hx).
  apply filter_In in Hx as [Hx Hid].
  assert (T : slugTaken db s (EventModel._id doc) = true).
  { apply slugTaken_iff. exists x. split; [exact Hx|]. split.
    - rewrite Ex, E. reflexivity.
    - now apply negb_true_iff, String.eqb_neq in Hid. }
  congruence.
Qed.

(** The hook, when it calls [next()] without an error. *)
Lemma preSave_Ret (fuel : nat) (db db' : Database) (doc doc' : IEvent) :
  preSave parseDate fuel (db, doc) = ((db', doc'), Ret tt) ->
  exists s d t,
    (if isNew doc || isModified "title" doc
     then slugTaken db s (EventModel._id doc) = false
     else s = slug doc)
    /\ (if isNew doc || isModified "date" doc
        then normalizeDateToISO parseDate (date doc) = Ok d
        else d = date doc)
    /\ (if isNew doc || isModified "time" doc
        then normalizeTime (time doc) = Ok t
        else t = time doc)
    /\ doc' = set_time t (set_date d (set_slug s doc))
    /\ find (blank doc') requiredFields = None
    /\ events db' = events db
    /\ bookings db' = bookings db.
Proof.
  rewrite preSave_split. unfold bind.
  pose proof (slugStep_frame fuel db doc) as S. cbn zeta in S.
  destruct S as (S1 & S2 & _ & S5 & S6 & S7).
  destruct (slugStep fuel (db, doc)) as [[db1 doc1] [[]|e|]];
    cbn [fst snd] in *; try discriminate.
  destruct (S6 eq_refl) as (s & -> & Hs).
  pose proof (afterSlug_cases db1 (set_slug s doc)) as A. cbn zeta in A.
  destruct A as (A1 & A).
  destruct (afterSlug parseDate (db1, set_slug s doc)) as [[db2 doc2] o].
  cbn [fst snd] in *. subst db2.
  destruct A as [(d & t & Hd & Ht & -> & Ho)|[(_ & Ho & _)|(_ & Ho & _)]];
    subst o; try discriminate.
  destruct (find _ requiredFields) eqn:F; [discriminate|].
  intros H. injection H as <- <-.
  exists s, d, t. repeat split; assumption.
Qed.

(** The hook, however it ends, assigns to nothing but [slug], [date] and
    [time], and writes nothing to the store. *)
Lemma preSave_frame (fuel : nat) (db : Database) (doc : IEvent) :
  let r := preSave parseDate fuel (db, doc) in
  (exists s d t, snd (fst r) = set_time t (set_date d (set_slug s doc)))
  /\ events (fst (fst r)) = events db
  /\ bookings (fst (fst r)) = bookings db.
Proof.
  cbn zeta. rewrite preSave_split. unfold bind.
  pose proof (slugStep_frame fuel db doc) as S. cbn zeta in S.
  destruct S as (S1 & S2 & _ & S5 & S6 & S7).
  assert (Same : forall x : IEvent,
             x = set_time (time x) (set_date (date x) (set_slug (slug x) x)))
    by (now intros []).
  destruct (slugStep fuel (db, doc)) as [[db1 doc1] [[]|e|]];
    cbn [fst snd] in *.
  - destruct (S6 eq_refl) as (s & -> & _).
    pose proof (afterSlug_cases db1 (set_slug s doc)) as A. cbn zeta in A.
    destruct A as (A1 & A).
    destruct (afterSlug parseDate (db1, set_slug s doc)) as [[db2 doc2] o].
    cbn [fst snd] in *. subst db2.
    split; [|split; assumption].
    destruct A as [(d & t & _ & _ & -> & _)
                  |[(_ & _ & -> & _)|(_ & _ & (d & ->) & _)]].
    + now exists s, d, t.
    + exists s, (date doc), (time doc). now destruct doc.
    + exists s, d, (time doc). now destruct doc.
  - exfalso. now apply (S5 e).
  - rewrite S7 by discriminate. split; [|split; assumption].
    exists (slug doc), (date doc), (time doc). apply Same.
Qed.

(** X11.  However the hook ends, it has assigned to nothing of the document
    but [slug], [date] and [time], and events and bookings are as they
    were.  When it calls [next()] without an error, every required string
    of the document is non-blank, the date and time of a new document are
    the normalised forms of the ones it came with, and a regenerated slug
    is one that no other stored event has. *)
Theorem hook_leaves_document (fuel : nat) (db : Database) (doc : IEvent) :
  let r := preSave parseDate fuel (db, doc) in
  let doc' := snd (fst r) in
  (EventModel._id doc' = EventModel._id doc
   /\ isNew doc' = isNew doc /\ modifiedPaths doc' = modifiedPaths doc
   /\ title doc' = title doc /\ description doc' = description doc
   /\ overview doc' = overview doc /\ image doc' = image doc
   /\ venue doc' = venue doc /\ location doc' = location doc
   /\ mode doc' = mode doc /\ audience doc' = audience doc
   /\ agenda doc' = agenda doc /\ organizer doc' = organizer doc
   /\ tags doc' = tags doc
   /\ events (fst (fst r)) = events db
   /\ bookings (fst (fst r)) = bookings db)
  /\ (snd r = Ret tt ->
      (forall f, In f requiredFields ->
                 exists v, getField f doc' = Some v /\ trim v <> "")
      /\ (isNew doc = true ->
          normalizeDateToISO parseDate (date doc) = Ok (date doc')
          /\ normalizeTime (time doc) = Ok (time doc'))
      /\ (isNew doc || isModified "title" doc = true ->
          slugTaken db (slug doc') (EventModel._id doc) = false)).
Proof.
  cbn zeta. split.
  - pose proof (preSave_frame fuel db doc) as F. cbn zeta in F.
    destruct F as ((s & d & t & ->) & E & B). repeat split; assumption.
  - intros R.
    destruct (preSave parseDate fuel (db, doc)) as [[db' doc'] o] eqn:P.
    cbn [fst snd] in *. subst o.
    destruct (preSave_Ret fuel db db' doc doc' P)
      as (s & d & t & Hs & Hd & Ht & E & F & _).
    split; [|split].
    + intros f Hf. pose proof (find_none _ _ F f Hf) as B.
      unfold blank in B.
      destruct (getField f doc') as [v|] eqn:G.
      * exists v. split; [reflexivity|]. now apply String.eqb_neq.
      * exfalso. revert G. clear -Hf. cbn in Hf.
        repeat (destruct Hf as [<-|Hf]; [discriminate|]). destruct Hf.
    + intros Hn. rewrite Hn in Hd, Ht. cbn [orb] in Hd, Ht.
      subst doc'. split; assumption.
    + intros Hr. rewrite Hr in Hs. subst doc'. exact Hs.
Qed.

(** X12.  A save that the hook refuses writes nothing: events and bookings
    are as before, the store has only been asked about slugs, and the error
    is the date error or the time error, each quoting the value submitted,
    or names a required field. *)
Theorem refused_save (fuel : nat) (db db' : Database) (doc : IEvent)
        (e : string) :
  save parseDate fuel db doc = (db', Raise e) ->
  events db' = events db
  /\ bookings db' = bookings db
  /\ (exists qs, journal db' = (journal db ++ qs)%list
                 /\ Forall (isSlugQuery (EventModel._id doc)) qs)
  /\ (e = "Invalid date format: " ++ date doc
      \/ e = "Invalid time format: " ++ time doc
      \/ exists f, In f requiredFields /\ e = f ++ " cannot be empty").
Proof. apply save_Raise. Qed.

(** X13.  With fuel above the number of stored events the hook ends, after
    at most one existence query per stored event plus one, and after none
    at all when the slug is not regenerated. *)
Theorem existence_queries_bounded (fuel : nat) (db : Database)
        (doc : IEvent) :
  List.length (events db) < fuel ->
  let r := preSave parseDate fuel (db, doc) in
  snd r <> OutOfFuel
  /\ exists qs,
      journal (fst (fst r)) = (journal db ++ qs)%list
      /\ Forall (isSlugQuery (EventModel._id doc)) qs
      /\ List.length qs <= S (List.length (events db))
      /\ (isNew doc || isModified "title" doc = false -> qs = []).
Proof.
  intros Hfuel r. unfold r.
  destruct (isNew doc || isModified "title" doc) eqn:R.
  - destruct (preSave_regenerates parseDate fuel db doc Hfuel R)
      as (n & doc' & out & Hn & _ & _ & Hpre & _ & _ & Hout).
    rewrite Hpre. cbn [fst snd]. split; [exact Hout|].
    exists (probes (generateSlug (title doc)) (EventModel._id doc) 0 n).
    split; [reflexivity|]. split; [|split; [|discriminate]].
    + unfold probes. apply Forall_forall. intros op Hop.
      apply in_map_iff in Hop as (j & <- & _). now eexists.
    + unfold probes. rewrite length_map, length_seq. lia.
  - assert (S : slugStep fuel (db, doc) = ((db, doc), Ret tt)).
    { unfold slugStep, bind, this. cbn [fst snd]. now rewrite R. }
    rewrite preSave_split. unfold bind. rewrite S.
    destruct (afterSlug_frame parseDate (db, doc)) as (F1 & _ & _ & F4).
    split; [exact F4|]. exists []. cbn [fst] in F1. rewrite F1.
    split; [now rewrite app_nil_r|]. split; [constructor|].
    split; [cbn; lia | reflexivity].
Qed.

(** X14.  On an update that touches none of title, date and time the hook
    ends with an error exactly when a required field is blank, with the
    error that names the first blank field in the order title, description,
    overview, image, venue, location, date, time, mode, audience, organizer;
    otherwise it calls [next()] without an error.  Either way it leaves the
    document and the store as they were, sending no query. *)
Theorem hook_update_blank_field (fuel : nat) (db : Database) (doc : IEvent) :
  isNew doc = false ->
  isModified "title" doc = false ->
  isModified "date" doc = false ->
  isModified "time" doc = false ->
  preSave parseDate fuel (db, doc)
  = ((db, doc),
     match find (blank doc) requiredFields with
     | Some f => Raise (f ++ " cannot be empty")
     | None => Ret tt
     end).
Proof.
  intros Hnew Ht Hd Htm.
  destruct (preSave_untouched parseDate fuel db doc Hnew Ht Hd Htm)
    as [E _].
  assert (O : snd (preSave parseDate fuel (db, doc))
              = snd (checkRequired requiredFields (db, doc))).
  { unfold preSave, bind, this. cbn [fst snd].
    rewrite Hnew, Ht. cbn [orb ret fst snd].
    rewrite Hnew, Hd. cbn [orb ret fst snd].
    rewrite Hnew, Htm. cbn [orb ret fst snd]. reflexivity. }
  rewrite checkRequired_find in O. cbn [snd] in O.
  destruct (preSave parseDate fuel (db, doc)) as [s o].
  cbn [fst snd] in *. now subst.
Qed.

Lemma dropWhileEnd_empty (p : ascii -> bool) (x : string) :
  dropWhileEnd p x = "" -> all p x = true.
Proof.
  destruct x as [|c x]; cbn; [reflexivity|].
  destruct (p c && all p x); [reflexivity | discriminate].
Qed.

Lemma all_of_dropWhile (p : ascii -> bool) (s : string) :
  all p (dropWhile p s) = true -> all p s = true.
Proof.
  induction s as [|c s IH]; cbn; [reflexivity|].
  destruct (p c) eqn:E; cbn; [exact IH|]. now rewrite E.
Qed.

(** Only white space trims to nothing. *)
Lemma trim_empty (s : string) : trim s = "" -> all is_space s = true.
Proof.
  intros H. now apply all_of_dropWhile, dropWhileEnd_empty.
Qed.

Lemma date_not_blank (s d : string) :
  normalizeDateToISO parseDate s = Ok d -> trim d <> "".
Proof.
  intros H T. apply trim_empty in T.
  destruct (DateMore.normalizeDateToISO_result parseDate s d H)
    as [(y & m & dd & _ & _ & _ & -> & _)|(rest & [-> | ->])];
    [|discriminate T|discriminate T].
  unfold DateFacts.isoDate in T.
  rewrite BookingHookFacts.all_app in T. cbn in T.
  now rewrite andb_false_r in T.
Qed.

Lemma time_not_blank (s t : string) :
  normalizeTime s = Ok t -> trim t <> "".
Proof.
  intros H T. apply trim_empty in T.
  destruct (TimeMore.normalizeTime_result s t H)
    as (h & m1 & m2 & -> & _).
  rewrite BookingHookFacts.all_app in T. cbn in T.
  now rewrite andb_false_r in T.
Qed.

Lemma find_none_all {A : Type} (p : A -> bool) (l : list A) :
  (forall x, In x l -> p x = false) -> find p l = None.
Proof.
  induction l as [|a l IH]; cbn; intros H; [reflexivity|].
  rewrite (H a (or_introl eq_refl)). auto.
Qed.

(** X26.  On a new document whose date and time the normalisers accept
    and whose other required strings are not blank, the hook calls [next()]
    without an error, given fuel above the number of stored events: it
    leaves the document with the normalised date and time and with a slug
    that no other stored event has, and events and bookings as they
    were. *)
Theorem hook_accepts_new_document (fuel : nat) (db : Database) (doc : IEvent)
        (d t : string) :
  List.length (events db) < fuel ->
  isNew doc = true ->
  normalizeDateToISO parseDate (date doc) = Ok d ->
  normalizeTime (time doc) = Ok t ->
  Forall (fun v => trim v <> "")
         [title doc; description doc; overview doc; image doc; venue doc;
          location doc; mode doc; audience doc; organizer doc] ->
  exists db' doc',
    preSave parseDate fuel (db, doc) = ((db', doc'), Ret tt)
    /\ date doc' = d /\ time doc' = t
    /\ slugTaken db (slug doc') (EventModel._id doc) = false
    /\ events db' = events db /\ bookings db' = bookings db.
Proof.
  intros Hfuel Hnew Hd Ht Hreq.
  destruct (probe_total fuel (generateSlug (title doc)) db doc Hfuel)
    as (n & _ & Hfree & _ & Hprobe).
  set (c := candidate (generateSlug (title doc)) n) in *.
  set (db1 := withJournal db _) in Hprobe.
  assert (S : slugStep fuel (db, doc) = ((db1, set_slug c doc), Ret tt)).
  { unfold slugStep, bind, this. cbn [fst snd]. rewrite Hnew. cbn [orb].
    now rewrite Hprobe. }
  pose proof (afterSlug_cases db1 (set_slug c doc)) as A. cbn zeta in A.
  change (isNew (set_slug c doc)) with (isNew doc) in A.
  change (date (set_slug c doc)) with (date doc) in A.
  change (time (set_slug c doc)) with (time doc) in A.
  rewrite Hnew in A. cbn [orb] in A. destruct A as (A1 & A).
  rewrite preSave_split. unfold bind. rewrite S.
  destruct (afterSlug parseDate (db1, set_slug c doc)) as [[db2 doc2] o].
  cbn [fst snd] in *. subst db2.
  destruct A as [(d' & t' & Hd' & Ht' & -> & Ho)
                |[(_ & _ & _ & e & He)|(_ & _ & _ & e & He)]];
    [|congruence|congruence].
  assert (d' = d) by congruence. assert (t' = t) by congruence. subst d' t'.
  assert (F : find (blank (set_time t (set_date d (set_slug c doc))))
                   requiredFields = None).
  { apply find_none_all. intros f Hf. unfold blank.
    pose proof (date_not_blank _ _ Hd) as Nd.
    pose proof (time_not_blank _ _ Ht) as Nt.
    repeat match goal with
           | H : Forall _ (_ :: _) |- _ =>
               let H1 := fresh "R" in
               let H2 := fresh "Rs" in
               inversion H as [|? ? H1 H2]; subst; clear H; rename H2 into H
           end.
    cbn in Hf.
    repeat (destruct Hf as [<-|Hf];
            [cbn; now apply String.eqb_neq|]).
    destruct Hf. }
  rewrite F in Ho. subst o.
  eexists _, _. split; [reflexivity|]. cbn.
  split; [reflexivity|]. split; [reflexivity|]. split; [exact Hfree|].
  split; reflexivity.
Qed.

End Hook.

Definition afternoonMeetup : IEvent :=
  set_time "2:30 PM" (meetup "65f000000000000000000003").

Definition noonMeetup : IEvent :=
  set_time "noon" (meetup "65f000000000000000000003").

(** A stored event edited so that its image is a single space, which the
    schema, having no [trim] for [image], lets through. *)
Definition blankImage : IEvent :=
  {| _id := "65f000000000000000000001"; isNew := false;
     modifiedPaths := ["image"];
     title := "Rocq Meetup"; slug := "rocq-meetup";
     description := "An evening of proofs"; overview := "Talks and demos";
     image := " "; venue := "Main hall";
     location := "Paris"; date := "2024-05-20"; time := "14:30";
     mode := "offline"; audience := "Developers";
     agenda := ["Doors open"]; organizer := "The proof club";
     tags := ["rocq"] |}.

Lemma storeWithTwo_distinct : NoDup (map slug (events storeWithTwo)).
Proof.
  cbn. constructor; [|constructor; [|constructor]].
  - cbn. intros [H|[]]. discriminate.
  - intros [].
Qed.

Lemma save_keeps_slugs_distinct_witness :
  NoDup (map slug
             (events (fst (save noParser 3 storeWithTwo
                                (meetup "65f000000000000000000003"))))).
Proof.
  let r := eval vm_compute in
      (save noParser 3 storeWithTwo (meetup "65f000000000000000000003")) in
  match r with
  | (?db', Ret ?saved) =>
      assert (H : save noParser 3 storeWithTwo
                       (meetup "65f000000000000000000003")
                  = (db', Ret saved)) by (vm_compute; reflexivity)
  end.
  rewrite H. cbn [fst].
  exact (save_keeps_slugs_distinct noParser 3 storeWithTwo _
           (meetup "65f000000000000000000003") _
           storeWithTwo_distinct eq_refl H).
Defined.

Lemma hook_leaves_document_witness :
  let r := preSave noParser 3 (storeWithTwo, afternoonMeetup) in
  title (snd (fst r)) = "Rocq Meetup"
  /\ events (fst (fst r)) = events storeWithTwo
  /\ normalizeTime "2:30 PM" = Ok (time (snd (fst r)))
  /\ slugTaken storeWithTwo (slug (snd (fst r)))
               (EventModel._id afternoonMeetup) = false.
Proof.
  pose proof (hook_leaves_document noParser 3 storeWithTwo afternoonMeetup)
    as H.
  cbn zeta in *. destruct H as [A B].
  assert (R : snd (preSave noParser 3 (storeWithTwo, afternoonMeetup))
              = Ret tt) by (vm_compute; reflexivity).
  destruct (B R) as (_ & N & S).
  split; [apply A|]. split; [apply A|].
  split; [exact (proj2 (N eq_refl)) | exact (S eq_refl)].
Defined.

Lemma refused_save_witness :
  exists db',
    save noParser 3 storeWithTwo noonMeetup
    = (db', Raise "Invalid time format: noon")
    /\ events db' = events storeWithTwo
    /\ bookings db' = bookings storeWithTwo.
Proof.
  let r := eval vm_compute in (save noParser 3 storeWithTwo noonMeetup) in
  match r with
  | (?db', Raise ?e) =>
      exists db';
      assert (H : save noParser 3 storeWithTwo noonMeetup = (db', Raise e))
        by (vm_compute; reflexivity)
  end.
  destruct (refused_save noParser 3 storeWithTwo _ noonMeetup _ H)
    as (E & B & _).
  split; [exact H|]. split; [exact E | exact B].
Defined.

Lemma existence_queries_bounded_witness :
  let r := preSave noParser 3
                   (storeWithTwo, meetup "65f000000000000000000003") in
  snd r <> OutOfFuel
  /\ exists qs,
      journal (fst (fst r)) = (journal storeWithTwo ++ qs)%list
      /\ List.length qs <= 3.
Proof.
  destruct (existence_queries_bounded noParser 3 storeWithTwo
              (meetup "65f000000000000000000003") ltac:(cbn; lia))
    as (N & qs & J & _ & L & _).
  split; [exact N|]. exists qs. split; [exact J | exact L].
Defined.

Lemma hook_update_blank_field_witness :
  preSave noParser 0 (storeWithTwo, blankImage)
  = ((storeWithTwo, blankImage), Raise "image cannot be empty").
Proof.
  exact (hook_update_blank_field noParser 0 storeWithTwo blankImage
           eq_refl eq_refl eq_refl eq_refl).
Defined.

Lemma hook_accepts_new_document_witness :
  exists db' doc',
    preSave noParser 3 (storeWithTwo, afternoonMeetup)
    = ((db', doc'), Ret tt)
    /\ date doc' = "2024-05-20" /\ time doc' = "14:30"
    /\ slugTaken storeWithTwo (slug doc') (EventModel._id afternoonMeetup)
       = false
    /\ events db' = events storeWithTwo
    /\ bookings db' = bookings storeWithTwo.
Proof.
  exact (hook_accepts_new_document noParser 3 storeWithTwo afternoonMeetup
           "2024-05-20" "14:30" ltac:(cbn; lia) eq_refl eq_refl eq_refl
           ltac:(repeat constructor; discriminate)).
Defined.

End EventHookMore.

(** ** Validating an event *)

Module EventSchemaFacts.
Import Js EventModel Mongoose Validation EventSchema ValidationFacts.

(** What the schema refuses at a path: an empty required string, a mode
    that is none of the three, an agenda or a list of tags without an
    item. *)
Definition invalidAt (doc : IEvent) (p : string) : bool :=
  if p =? "mode" then negb (existsb (String.eqb (mode doc)) modes)
  else if p =? "agenda" then
    match agenda doc with [] => true | _ :: _ => false end
  else if p =? "tags" then
    match tags doc with [] => true | _ :: _ => false end
  else if p =? "slug" then false
  else match getField p doc with
       | Some v => v =? ""
       | None => false
       end.

Definition refuses (doc : IEvent) (entry : SchemaPath IEvent) : bool :=
  match firstFailure (snd entry) (snd (fst entry) doc) with
  | Some _ => true
  | None => false
  end.

Lemma schema_invalidAt (doc : IEvent) :
  Forall (fun entry => refuses doc entry = invalidAt doc (fst (fst entry)))
         schema.
Proof.
  unfold schema, refuses.
  repeat (constructor;
          [cbn [fst snd firstFailure]; unfold required, text, items|]);
    try constructor.
  all: try (change (invalidAt doc ?p)
              with (match getField p doc with
                    | Some v => v =? ""
                    | None => false
                    end);
            cbn [getField String.eqb Ascii.eqb Bool.eqb];
            match goal with
            | |- context [?v =? ""] => destruct (v =? ""); reflexivity
            end).
  - change (invalidAt doc "mode")
      with (negb (existsb (String.eqb (mode doc)) modes)).
    unfold enum. destruct (mode doc =? "") eqn:Z.
    + apply String.eqb_eq in Z. rewrite Z. reflexivity.
    + destruct (existsb (String.eqb (mode doc)) modes); reflexivity.
  - change (invalidAt doc "agenda")
      with (match agenda doc with [] => true | _ :: _ => false end).
    unfold validator, hasItem. destruct (agenda doc); reflexivity.
  - change (invalidAt doc "tags")
      with (match tags doc with [] => true | _ :: _ => false end).
    unfold validator, hasItem. destruct (tags doc); reflexivity.
Qed.

(** A path at which something is refused is a path of the schema. *)
Lemma invalidAt_schema (doc : IEvent) (p : string) :
  invalidAt doc p = true -> exists entry, In entry schema /\ fst (fst entry) = p.
Proof.
  assert (K : forall q, In q allPaths ->
                        exists entry, In entry schema /\ fst (fst entry) = q).
  { intros q Hq.
    change allPaths
      with (map (fun entry : SchemaPath IEvent => fst (fst entry)) schema)
      in Hq.
    apply in_map_iff in Hq as (entry & E & Hin). eauto. }
  intros H. apply K. revert H. unfold invalidAt, getField, allPaths.
  repeat match goal with
         | |- context [p =? ?l] =>
             destruct (String.eqb_spec p l); [subst; intros _; cbn; tauto|]
         end.
  discriminate.
Qed.

Section Save.

Variable parseDate : string -> option Z.

(** X27.  Saving an event of which some validated path holds what the
    schema refuses (an empty required string, a mode that is none of
    online, offline and hybrid, an agenda or a list of tags without an
    item) is rejected with a validation error that has an entry for every
    such path and for no other; the hook does not run and the store is as
    it was.  When no validated path holds such a value, the save is what
    the hook and the write make of it.  In a new document a string that
    the schema trims is refused by the validation exactly when the value
    assigned was blank. *)
Theorem event_validation (fuel : nat) (paths : list string) (db : Database)
        (doc : IEvent) :
  (forall values f,
      In f trimmed ->
      invalidAt (newEvent values) f = EventHookMore.blank values f)
  /\ (existsb (invalidAt doc) paths = true ->
   exists errors,
     save parseDate fuel paths db doc
     = (db, Rejected (ValidationError errors))
     /\ (forall p, (exists e, In e errors /\ path e = p)
                   <-> In p paths /\ invalidAt doc p = true))
  /\ (existsb (invalidAt doc) paths = false ->
      save parseDate fuel paths db doc
      = match EventHook.save parseDate fuel db doc with
        | (db', Ret saved) => (db', Saved saved)
        | (db', Raise e) => (db', Rejected (HookError e))
        | (db', OutOfFuel) => (db', Unfinished)
        end).
Proof.
  split.
  { intros values f Hf. cbn in Hf.
    repeat (destruct Hf as [<-|Hf]; [reflexivity|]). destruct Hf. }
  pose proof (schema_invalidAt doc) as SI. rewrite Forall_forall in SI.
  assert (C : forall p, (exists e, In e (validate schema paths doc)
                                   /\ path e = p)
                        <-> In p paths /\ invalidAt doc p = true).
  { intros p. split.
    - intros (e & He & <-). apply In_validate in He
        as (entry & m & Hin & Hp & F & ->). cbn [path].
      split; [now apply existsb_In|].
      rewrite <- (SI entry Hin). unfold refuses. now rewrite F.
    - intros [Hp Hi].
      destruct (invalidAt_schema doc p Hi) as (entry & Hin & <-).
      pose proof (SI entry Hin) as R. rewrite Hi in R. unfold refuses in R.
      destruct (firstFailure (snd entry) (snd (fst entry) doc)) as [m|] eqn:F;
        [|discriminate].
      exists {| path := fst (fst entry); message := m;
                value := snd (fst entry) doc |}.
      split; [|reflexivity].
      apply In_validate. exists entry, m.
      split; [exact Hin|]. split; [now apply existsb_In|].
      split; [exact F | reflexivity]. }
  split.
  - intros H. apply existsb_exists in H as (p & Hp & Hi).
    destruct (proj2 (C p) (conj Hp Hi)) as (e & He & _).
    unfold save, validated.
    destruct (validate schema paths doc) as [|e0 errors] eqn:V;
      [destruct He|].
    exists (e0 :: errors). split; [reflexivity | exact C].
  - intros H. unfold save, validated.
    destruct (validate schema paths doc) as [|e0 errors] eqn:V;
      [reflexivity|].
    exfalso.
    destruct (proj1 (C (path e0)) (ex_intro _ e0 (conj (or_introl eq_refl)
                                                        eq_refl)))
      as [Hp Hi].
    assert (T : existsb (invalidAt doc) paths = true)
      by (apply existsb_exists; eauto).
    congruence.
Qed.

End Save.

(** A new event whose mode is none of the three and that has no agenda. *)
Definition virtualMeetup : IEvent :=
  {| _id := "65f000000000000000000003"; isNew := true; modifiedPaths := [];
     title := "Rocq Meetup"; slug := "";
     description := "An evening of proofs"; overview := "Talks and demos";
     image := "/images/meetup.png"; venue := "Main hall";
     location := "Paris"; date := "2024-05-20"; time := "14:30";
     mode := "virtual"; audience := "Developers";
     agenda := []; organizer := "The proof club";
     tags := ["rocq"] |}.

(** The values of a new event whose title is blank. *)
Definition untitledMeetup : IEvent :=
  EventHookFacts.sampleEvent "65f000000000000000000003" "   " "" true [].

Lemma event_validation_witness :
  (exists errors,
      save EventHookFacts.noParser 3 allPaths EventHookFacts.storeWithTwo
           virtualMeetup
      = (EventHookFacts.storeWithTwo, Rejected (ValidationError errors))
      /\ (exists e, In e errors /\ path e = "mode")
      /\ (exists e, In e errors /\ path e = "agenda")
      /\ ~ (exists e, In e errors /\ path e = "tags"))
  /\ (exists db' saved,
         save EventHookFacts.noParser 3 allPaths EventHookFacts.storeWithTwo
              (EventHookFacts.meetup "65f000000000000000000003")
         = (db', Saved saved)
         /\ slug saved = "rocq-meetup-2")
  /\ invalidAt (newEvent untitledMeetup) "title" = true.
Proof.
  pose proof (event_validation EventHookFacts.noParser 3 allPaths
                EventHookFacts.storeWithTwo virtualMeetup) as (_ & V & _).
  pose proof (event_validation EventHookFacts.noParser 3 allPaths
                EventHookFacts.storeWithTwo
                (EventHookFacts.meetup "65f000000000000000000003"))
    as (T & _ & P).
  split; [|split].
  - destruct (V eq_refl) as (errors & H & C).
    exists errors. split; [exact H|]. split; [|split].
    + apply C. split; [cbn; tauto | reflexivity].
    + apply C. split; [cbn; tauto | reflexivity].
    + intros E. apply C in E as [_ E]. discriminate E.
  - rewrite (P eq_refl).
    let r := eval vm_compute in
        (EventHook.save EventHookFacts.noParser 3 EventHookFacts.storeWithTwo
                        (EventHookFacts.meetup "65f000000000000000000003")) in
    match r with
    | (?db', Ret ?saved) =>
        exists db', saved;
        replace (EventHook.save EventHookFacts.noParser 3
                   EventHookFacts.storeWithTwo
                   (EventHookFacts.meetup "65f000000000000000000003"))
          with (db', Ret saved) by (vm_compute; reflexivity)
    end.
    split; reflexivity.
  - rewrite (T untitledMeetup "title" ltac:(cbn; tauto)). reflexivity.
Defined.

End EventSchemaFacts.

(** ** More on the booking hook *)

Module BookingHookMore.
Import Js BookingModel Mongoose BookingHook BookingHookFacts.

(** X16.  The email pattern accepts exactly the strings made of a local
    part, an [@], and a domain that some dot cuts into two parts, the three
    parts being non-empty and free of white space and of [@]. *)
Theorem email_pattern (s : string) :
  EMAIL_REGEX_test s = true <-> emailShape s.
Proof. apply EMAIL_REGEX_test_spec. Qed.

(** Every stored booking has a matching email and an event in the store. *)
Definition integrity (db : Database) : Prop :=
  forall b, In b (bookings db) ->
            EMAIL_REGEX_test (email b) = true
            /\ idPresent db (eventId b) = true.

Lemma integrity_ext (db db' : Database) :
  events db' = events db -> bookings db' = bookings db ->
  integrity db -> integrity db'.
Proof.
  intros E B I b Hb. rewrite B in Hb. destruct (I b Hb) as [H1 H2].
  split; [exact H1|]. unfold idPresent in *. now rewrite E.
Qed.

Lemma booking_save_cases (db : Database) (b : IBooking) :
  (events (fst (save db b)) = events db
   /\ bookings (fst (save db b)) = bookings db)
  \/ (EMAIL_REGEX_test (email b) = true
      /\ idPresent db (eventId b) = true
      /\ events (fst (save db b)) = events db
      /\ bookings (fst (save db b))
         = (filter (fun x => negb (BookingModel._id x =? BookingModel._id b))
                   (bookings db) ++ [b])%list).
Proof.
  unfold save.
  destruct (EMAIL_REGEX_test (email b)) eqn:He.
  - destruct (idPresent db (eventId b)) eqn:Hid.
    + rewrite preSave_accepts by assumption. right. auto.
    + rewrite preSave_missing_event by assumption. left. auto.
  - rewrite preSave_bad_email by assumption. left. auto.
Qed.

Section WithParser.

Variable parseDate : string -> option Z.

Lemma event_save_frame (fuel : nat) (db : Database)
      (doc : EventModel.IEvent) :
  bookings (fst (EventHook.save parseDate fuel db doc)) = bookings db
  /\ forall id, idPresent db id = true ->
                idPresent (fst (EventHook.save parseDate fuel db doc)) id
                = true.
Proof.
  destruct (EventHook.save parseDate fuel db doc) as [db' [saved|e|]] eqn:S.
  - destruct (EventHookMore.save_Ret parseDate fuel db db' doc saved S)
      as (s & d & t & qs & _ & _ & _ & E & _ & Ev & B & _).
    cbn [fst]. split; [exact B|]. intros id H.
    unfold idPresent in *. rewrite Ev.
    rewrite existsb_app, orb_true_iff.
    destruct (id =? EventModel._id doc) eqn:I.
    + right. cbn. apply String.eqb_eq in I. subst saved id. cbn.
      now rewrite String.eqb_refl.
    + left. apply existsb_exists in H as (x & Hx & Hid).
      apply existsb_exists. exists x. split; [|exact Hid].
      apply filter_In. split; [exact Hx|].
      apply String.eqb_eq in Hid. rewrite Hid. now rewrite I.
  - destruct (EventHookMore.save_Raise parseDate fuel db db' doc e S)
      as (E & B & _).
    cbn [fst]. split; [exact B|]. intros id H.
    unfold idPresent in *. now rewrite E.
  - unfold EventHook.save in S. rewrite EventHookFacts.preSave_split in S.
    unfold bind in S.
    pose proof (EventHookMore.slugStep_frame fuel db doc) as F.
    cbn zeta in F. destruct F as (F1 & F2 & _).
    destruct (EventHookFacts.slugStep fuel (db, doc)) as [[db1 doc1] o1].
    cbn [fst snd] in *.
    destruct o1 as [[]|e1|]; try discriminate.
    + pose proof (EventHookFacts.afterSlug_frame parseDate (db1, doc1))
        as (G1 & _).
      destruct (EventHookFacts.afterSlug parseDate (db1, doc1))
        as [[db2 doc2] o2].
      cbn [fst snd] in *. subst db2.
      destruct o2 as [[]|e2|]; try discriminate.
      injection S as <-. cbn [fst]. split; [exact F2|]. intros id H.
      unfold idPresent in *. now rewrite F1.
    + injection S as <-. cbn [fst]. split; [exact F2|]. intros id H.
      unfold idPresent in *. now rewrite F1.
Qed.

(** X18.  Saving a booking and saving an event, whatever the outcome, keep
    the store such that every stored booking has a matching email and refers
    to an event that is in the store. *)
Theorem integrity_kept (db : Database) :
  integrity db ->
  (forall b, integrity (fst (save db b)))
  /\ (forall fuel doc,
         integrity (fst (EventHook.save parseDate fuel db doc))).
Proof.
  intros I. split.
  - intros b.
    destruct (booking_save_cases db b) as [[E B]|(He & Hid & E & B)].
    + now apply (integrity_ext db).
    + intros x Hx. rewrite B in Hx. apply in_app_iff in Hx as [Hx|[<-|[]]].
      * apply filter_In in Hx as [Hx _]. destruct (I x Hx) as [H1 H2].
        split; [exact H1|]. unfold idPresent in *. now rewrite E.
      * split; [exact He|]. unfold idPresent in *. now rewrite E.
  - intros fuel doc x Hx.
    destruct (event_save_frame fuel db doc) as [B P].
    rewrite B in Hx. destruct (I x Hx) as [H1 H2].
    split; [exact H1 | now apply P].
Qed.

End WithParser.

Definition storeWithBooking : Database :=
  {| events := events EventHookFacts.storeWithTwo;
     bookings := [sampleBooking "65f000000000000000000001"
                                "ada@example.org"];
     journal := [] |}.

Lemma storeWithBooking_integrity : integrity storeWithBooking.
Proof.
  intros b [<-|[]]. split; reflexivity.
Qed.

Lemma integrity_kept_witness :
  integrity (fst (save storeWithBooking
                       (sampleBooking "65f000000000000000000009"
                                      "grace@example.org")))
  /\ integrity (fst (EventHook.save EventHookFacts.noParser 3
                                    storeWithBooking
                                    (EventHookFacts.meetup
                                       "65f000000000000000000001"))).
Proof.
  destruct (integrity_kept EventHookFacts.noParser storeWithBooking
              storeWithBooking_integrity) as [A B].
  split; [apply A | apply B].
Defined.

End BookingHookMore.

(** ** More on saving a booking *)

Module BookingSchemaMore.
Import Js BookingModel Mongoose Validation BookingSchema BookingHookFacts.
Import BookingSchemaFacts.

Ltac by_char c :=
  destruct c as [[] [] [] [] [] [] [] []]; vm_compute;
  intros; solve [reflexivity | congruence].

Lemma is_space_lower (c : ascii) : is_space (lower_char c) = is_space c.
Proof. by_char c. Qed.

Lemma all_space_lower (s : string) :
  all is_space (toLowerCase s) = all is_space s.
Proof.
  induction s as [|c s IH]; cbn; [reflexivity|].
  now rewrite is_space_lower, IH.
Qed.

Lemma dropWhile_lower (s : string) :
  dropWhile is_space (toLowerCase s) = toLowerCase (dropWhile is_space s).
Proof.
  induction s as [|c s IH]; cbn; [reflexivity|].
  rewrite is_space_lower. destruct (is_space c); [exact IH | reflexivity].
Qed.

Lemma dropWhileEnd_lower (s : string) :
  dropWhileEnd is_space (toLowerCase s)
  = toLowerCase (dropWhileEnd is_space s).
Proof.
  induction s as [|c s IH]; cbn; [reflexivity|].
  rewrite is_space_lower, all_space_lower.
  destruct (is_space c && all is_space s); cbn; [reflexivity|].
  now rewrite IH.
Qed.

(** The two setters of [email] give the same string in either order. *)
Lemma setEmail_order (v : string) : setEmail v = toLowerCase (trim v).
Proof.
  unfold setEmail, trim. now rewrite dropWhile_lower, dropWhileEnd_lower.
Qed.

(** X17.  Whichever paths are validated, a booking is stored exactly when
    the email the document holds matches the pattern and its event is in
    the store.  The stored booking then has the document's identifier,
    event and email, and takes the place of any booking of the same
    identifier; one lookup precedes the one write, and the events are
    untouched.  The email a new booking holds is the submitted one trimmed
    and lower-cased, in whichever order. *)
Theorem booking_stored (paths : list string) (db : Database) (b : IBooking) :
  ((exists db' saved, save paths db b = (db', Saved saved))
   <-> EMAIL_REGEX_test (email b) = true
       /\ idPresent db (eventId b) = true)
  /\ (forall db' saved,
         save paths db b = (db', Saved saved) ->
         BookingModel._id saved = BookingModel._id b
         /\ eventId saved = eventId b
         /\ email saved = email b
         /\ bookings db'
            = (filter (fun x => negb (BookingModel._id x
                                      =? BookingModel._id b))
                      (bookings db) ++ [saved])%list
         /\ events db' = events db
         /\ journal db'
            = (journal db ++ [EventExistsId (eventId b);
                              WriteBooking (BookingModel._id b)])%list)
  /\ (forall id event_ submitted,
         email (newBooking id event_ submitted) = trim (toLowerCase submitted)
         /\ email (newBooking id event_ submitted)
            = toLowerCase (trim submitted)).
Proof.
  split; [|split].
  3:{ intros id event_ submitted. split; [reflexivity | apply setEmail_order]. }
  all: destruct (EMAIL_REGEX_test (email b)) eqn:He.
  - rewrite save_good_email by assumption. unfold BookingHook.save.
    destruct (idPresent db (eventId b)) eqn:Hid.
    + rewrite preSave_accepts by assumption. split; [auto | eauto].
    + rewrite preSave_missing_event by assumption.
      split; [intros (? & ? & H); discriminate | intros [_ H]; discriminate].
  - rewrite save_bad_email by assumption.
    split; [intros (? & ? & H); discriminate | intros [H _]; discriminate].
  - rewrite save_good_email by assumption. unfold BookingHook.save.
    destruct (idPresent db (eventId b)) eqn:Hid.
    + rewrite preSave_accepts by assumption.
      intros db' saved H. injection H as <- <-.
      repeat (split; [reflexivity|]).
      cbn [BookingHook.commit record journal]. now rewrite <- app_assoc.
    + rewrite preSave_missing_event by assumption. intros ? ? H.
      discriminate.
  - rewrite save_bad_email by assumption. intros ? ? H. discriminate.
Qed.

Lemma booking_stored_witness :
  exists db' saved,
    create EventHookFacts.storeWithTwo "65f0000000000000000000b1"
           "65f000000000000000000002" " Ada@Example.ORG "
    = (db', Saved saved)
    /\ email saved = "ada@example.org"
    /\ events db' = events EventHookFacts.storeWithTwo.
Proof.
  pose (b := newBooking "65f0000000000000000000b1"
                        "65f000000000000000000002" " Ada@Example.ORG ").
  destruct (proj2 (proj1 (booking_stored allPaths
                            EventHookFacts.storeWithTwo b))
              (conj eq_refl eq_refl)) as (db' & saved & H).
  destruct (proj1 (proj2 (booking_stored allPaths
                            EventHookFacts.storeWithTwo b)) db' saved H)
    as (_ & _ & E & _ & Ev & _).
  exists db', saved. split; [exact H|]. split; [|exact Ev].
  rewrite E. reflexivity.
Defined.

End BookingSchemaMore.

(** ** More on the connection cache *)

Module MongodbMore.
Import Mongoose Mongodb MongodbFacts.

Section AnyEnvironment.

Variable connect : string -> nat -> Promise.

(** X19.  Whatever the state of the cache and whatever the environment
    does, a call of [connectToDatabase] ends, calls [mongoose.connect] at
    most once, and every call after it returns what it returned, changes
    nothing and calls [mongoose.connect] no more, whatever the URI by
    then. *)
Theorem first_call_decides (uri uri' : string) (p : Process) :
  let r := connectToDatabase connect uri p in
  snd r <> OutOfFuel
  /\ connectCalls (fst r) <= S (connectCalls p)
  /\ connectToDatabase connect uri' (fst r) = r.
Proof.
  cbn zeta. destruct p as [g n].
  destruct g as [[[c|] [[c'|reason]|]]|];
    unfold connectToDatabase, bind, getCached; cbn;
    try (destruct (connect uri n) as [c''|reason'']; cbn);
    (split; [discriminate|]); (split; [lia | reflexivity]).
Qed.

(** X20.  Loading the module again in a process that has called
    [connectToDatabase] finds the cache on the global object: the call in
    the module loaded anew returns what the earlier call returned and calls
    [mongoose.connect] no more, even under another URI. *)
Theorem reload_reuses_cache (uri uri' : string) (p0 p : Process) :
  loadModule (Some uri) p0 = LoadDone uri p ->
  uri' <> "" ->
  let r := connectToDatabase connect uri p in
  loadModule (Some uri') (fst r) = LoadDone uri' (fst r)
  /\ connectToDatabase connect uri' (fst r) = r.
Proof.
  intros L Hne r.
  split; [|apply first_call_decides].
  unfold loadModule in L. destruct uri as [|a0 u0]; [discriminate|].
  injection L as <-. unfold r. clear r.
  destruct uri' as [|a u]; [congruence|].
  destruct p0 as [g n].
  destruct g as [[[c|] [[c'|reason]|]]|];
    unfold connectToDatabase, bind, getCached; cbn;
    try (destruct (connect (String a0 u0) n) as [c''|reason'']; cbn);
    reflexivity.
Qed.

End AnyEnvironment.

Lemma first_call_decides_witness :
  let r := connectToDatabase refusedOnce "mongodb://localhost:27017/dev"
                             freshProcess in
  connectCalls (fst r) <= 1
  /\ connectToDatabase refusedOnce "mongodb://db.example.org/prod" (fst r)
     = r.
Proof.
  destruct (first_call_decides refusedOnce "mongodb://localhost:27017/dev"
              "mongodb://db.example.org/prod" freshProcess) as (_ & A & B).
  split; [exact A | exact B].
Defined.

Lemma reload_reuses_cache_witness :
  exists p,
    loadModule (Some "mongodb://localhost:27017/dev") freshProcess
    = LoadDone "mongodb://localhost:27017/dev" p
    /\ let r := connectToDatabase (fun _ n => Fulfilled n)
                                  "mongodb://localhost:27017/dev" p in
       connectToDatabase (fun _ n => Fulfilled n)
                         "mongodb://db.example.org/prod" (fst r)
       = r.
Proof.
  eexists. split; [reflexivity|].
  exact (proj2 (reload_reuses_cache (fun _ n => Fulfilled n)
                  "mongodb://localhost:27017/dev"
                  "mongodb://db.example.org/prod" freshProcess _
                  eq_refl ltac:(discriminate))).
Defined.

End MongodbMore.

Module MongodbRetryFacts.
Import Mongoose MongodbRetry.

Definition freshProcess : Process :=
  {| global_mongooseCache := None; connectCalls := 0 |}.

Definition uriAbsent (env : option string) : Prop :=
  env = None \/ env = Some "".

(** The cache is empty, or holds a connection and its fulfilled promise. *)
Definition clean (p : Process) : Prop :=
  (conn (cached p) = None /\ promise (cached p) = None)
  \/ exists c, conn (cached p) = Some c
               /\ promise (cached p) = Some (Fulfilled c).

Section AnyEnvironment.

Variable connect : string -> nat -> Promise.

(** X21.  With an empty cache and [MONGODB_URI] undefined or empty, the
    call throws the configuration error, calls [mongoose.connect] not at
    all and leaves the process as it was, so that a call made once the
    variable is set is a first call again. *)
Theorem missing_uri_at_call (env : option string) (p : Process) :
  conn (cached p) = None -> promise (cached p) = None -> uriAbsent env ->
  connectToDatabase connect env p = (p, Raise uriNotDefined).
Proof.
  intros Hc Hp He. unfold connectToDatabase, bind, getCached.
  rewrite Hc, Hp. destruct He as [-> | ->]; reflexivity.
Qed.

(** X22.  With an empty cache and a URI, an attempt that is rejected makes
    the call throw the rejection and leaves the cache empty; the next call
    makes a new attempt and returns its connection when that one is
    fulfilled. *)
Theorem failed_attempt_retried (uri uri' reason : string) (c : Connection)
        (p : Process) :
  conn (cached p) = None -> promise (cached p) = None ->
  uri <> "" -> uri' <> "" ->
  connect uri (connectCalls p) = Rejected reason ->
  connect uri' (S (connectCalls p)) = Fulfilled c ->
  exists p' p'',
    connectToDatabase connect (Some uri) p = (p', Raise reason)
    /\ conn (cached p') = None /\ promise (cached p') = None
    /\ connectCalls p' = S (connectCalls p)
    /\ connectToDatabase connect (Some uri') p' = (p'', Ret c)
    /\ conn (cached p'') = Some c
    /\ connectCalls p'' = S (S (connectCalls p)).
Proof.
  intros Hc Hp Hu Hu' Hr Hf.
  destruct uri as [|a u]; [congruence|].
  destruct uri' as [|a' u']; [congruence|].
  destruct p as [g n]. cbn [connectCalls] in *.
  destruct g as [[co pr]|]; cbn in Hc, Hp; subst;
    unfold connectToDatabase, bind, getCached, tryCatch; cbn;
    rewrite Hr; cbn; do 2 eexists;
    (split; [reflexivity|]); cbn;
    (split; [reflexivity|]); (split; [reflexivity|]);
    (split; [reflexivity|]);
    rewrite Hf; cbn; repeat split.
Qed.

(** X23.  Once a call has returned a connection, every later call returns
    that connection, changes nothing and calls [mongoose.connect] no more,
    whatever [MONGODB_URI] is by then, be it undefined. *)
Theorem connection_reused (env env' : option string) (p p' : Process)
        (c : Connection) :
  connectToDatabase connect env p = (p', Ret c) ->
  connectToDatabase connect env' p' = (p', Ret c).
Proof.
  destruct p as [g n].
  destruct g as [[[c0|] [[c1|reason]|]]|];
    unfold connectToDatabase, bind, getCached, tryCatch; cbn;
    try (destruct env as [[|a u]|]; cbn;
         try (destruct (connect (String a u) n) as [c2|reason2]; cbn));
    intros H; try discriminate; injection H as <- <-; reflexivity.
Qed.

Lemma call_keeps_clean (env : option string) (p : Process) :
  clean p ->
  clean (fst (connectToDatabase connect env p))
  /\ snd (connectToDatabase connect env p) <> OutOfFuel.
Proof.
  destruct p as [g n]. unfold clean.
  destruct g as [[[c0|] [[c1|reason]|]]|]; cbn;
    intros [[H1 H2]|(c & H1 & H2)]; try discriminate;
    unfold connectToDatabase, bind, getCached, tryCatch; cbn;
    try (destruct env as [[|a u]|]; cbn;
         try (destruct (connect (String a u) n) as [c2|reason2]; cbn));
    (split; [|discriminate]); eauto.
Qed.

(** X24.  From a freshly loaded module on, after any number of calls made
    one after the other, whatever the environment does, the cache is empty
    or holds a connection with its fulfilled promise: a rejected promise is
    never kept. *)
Theorem cache_stays_clean (envs : list (option string)) (p : Process) :
  clean p ->
  clean (calls connect envs p)
  /\ forall reason,
       promise (cached (calls connect envs p)) <> Some (Rejected reason).
Proof.
  revert p. induction envs as [|env envs IH]; intros p Hp; cbn [calls].
  - split; [exact Hp|]. intros reason H.
    destruct Hp as [[_ Hp]|(c & _ & Hp)]; congruence.
  - apply IH. now apply call_keeps_clean.
Qed.

End AnyEnvironment.

Lemma loadModule_clean : clean (loadModule freshProcess).
Proof. left. split; reflexivity. Qed.

Definition refusedOnce (uri : string) (n : nat) : Promise :=
  match n with
  | O => Rejected "connect ECONNREFUSED"
  | S _ => Fulfilled n
  end.

Lemma missing_uri_at_call_witness :
  connectToDatabase refusedOnce None (loadModule freshProcess)
  = (loadModule freshProcess, Raise uriNotDefined).
Proof.
  exact (missing_uri_at_call refusedOnce None (loadModule freshProcess)
           eq_refl eq_refl (or_introl eq_refl)).
Defined.

Lemma failed_attempt_retried_witness :
  exists p' p'',
    connectToDatabase refusedOnce (Some "mongodb://localhost:27017/dev")
                      (loadModule freshProcess)
    = (p', Raise "connect ECONNREFUSED")
    /\ connectToDatabase refusedOnce (Some "mongodb://localhost:27017/dev")
                         p'
       = (p'', Ret 1).
Proof.
  destruct (failed_attempt_retried refusedOnce
              "mongodb://localhost:27017/dev"
              "mongodb://localhost:27017/dev" "connect ECONNREFUSED" 1
              (loadModule freshProcess) eq_refl eq_refl
              ltac:(discriminate) ltac:(discriminate) eq_refl eq_refl)
    as (p' & p'' & H1 & _ & _ & _ & H2 & _).
  exists p', p''. split; [exact H1 | exact H2].
Defined.

Lemma connection_reused_witness :
  let r := connectToDatabase (fun _ n => Fulfilled n)
                             (Some "mongodb://localhost:27017/dev")
                             (loadModule freshProcess) in
  connectToDatabase (fun _ n => Fulfilled n) None (fst r) = (fst r, Ret 0).
Proof.
  exact (connection_reused (fun _ n => Fulfilled n)
           (Some "mongodb://localhost:27017/dev") None
           (loadModule freshProcess) _ 0 eq_refl).
Defined.

Lemma cache_stays_clean_witness :
  clean (calls refusedOnce
               [None; Some "mongodb://localhost:27017/dev";
                Some "mongodb://localhost:27017/dev"; None]
               (loadModule freshProcess)).
Proof.
  exact (proj1 (cache_stays_clean refusedOnce _ (loadModule freshProcess)
                  loadModule_clean)).
Defined.

End MongodbRetryFacts.
